(** * Coachboard: a shallow embedding of [app.js] and its specification

    The application keeps one project document (video reference, roster,
    timestamped annotations) in a module-level variable, mutates it from DOM
    event handlers and writes it through to local storage.  This file embeds
    the handlers as state-passing functions and proves the properties stated
    about them.

    Conventions of the embedding:
    - a JavaScript string is a Rocq [string], read as a sequence of code
      units below 256;
    - a JavaScript number used as an identifier is a [jsnum]: an integer that
      a double holds exactly, or [NaN];
    - the annotation objects live in a store and [state.timestamps] holds
      references to them, because click handlers close over the objects;
    - values read from the DOM, the clock and the random generator are
      arguments of the handlers;
    - the [render*] functions only write to the DOM and are left out, apart
      from the values that the handlers they install close over. *)

From Stdlib Require Import ZArith QArith Lia String Ascii List Bool.
From stdpp Require Import base list strings gmap.

Open Scope string_scope.
Open Scope Z_scope.

(** ** JavaScript strings and numbers *)

Module JS.

(** The characters that [String.prototype.trim] removes, among the code
    units below 256: TAB, LF, VT, FF, CR, space and NBSP. *)
Definition is_ws (c : ascii) : bool :=
  let n := nat_of_ascii c in
  ((9 <=? n)%nat && (n <=? 13)%nat) || (n =? 32)%nat || (n =? 160)%nat.

Definition is_empty (s : string) : bool :=
  match s with EmptyString => true | String _ _ => false end.

Fixpoint trimStart (s : string) : string :=
  match s with
  | EmptyString => EmptyString
  | String c r => if is_ws c then trimStart r else s
  end.

Fixpoint trimEnd (s : string) : string :=
  match s with
  | EmptyString => EmptyString
  | String c r =>
      let t := trimEnd r in
      if is_ws c && is_empty t then EmptyString else String c t
  end.

Definition trim (s : string) : string := trimEnd (trimStart s).

(** A string is truthy when it is not empty. *)
Definition truthy_str (s : string) : bool := negb (is_empty s).

(** [s.includes(c)] for a single character. *)
Fixpoint has_char (c : ascii) (s : string) : bool :=
  match s with
  | EmptyString => false
  | String d r => Ascii.eqb c d || has_char c r
  end.

Fixpoint all_chars (p : ascii -> bool) (s : string) : bool :=
  match s with
  | EmptyString => true
  | String c r => p c && all_chars p r
  end.

(** Identifiers.  [Num z] stands for the double that equals the integer [z];
    the program only compares, prints and parses identifiers, and on the
    integers of magnitude at most [MAX_SAFE_INTEGER] doubles do that as the
    integers do. *)
Inductive jsnum : Type :=
  | Num (z : Z)
  | NaN.

Definition MAX_SAFE_INTEGER : Z := 9007199254740991.

#[global] Instance jsnum_eq_dec : EqDecision jsnum.
Proof. solve_decision. Defined.

(** [a === b] on numbers: [NaN] equals nothing, itself included. *)
Definition strict_eq (a b : jsnum) : bool :=
  match a, b with
  | Num x, Num y => x =? y
  | _, _ => false
  end.

(** SameValueZero, the equality of [Map] keys and of [Array.includes]:
    as [===], but [NaN] equals [NaN]. *)
Definition same_value_zero (a b : jsnum) : bool :=
  match a, b with
  | Num x, Num y => x =? y
  | NaN, NaN => true
  | _, _ => false
  end.

(** A number is truthy unless it is zero or [NaN]. *)
Definition truthy_num (a : jsnum) : bool :=
  match a with
  | Num z => negb (z =? 0)
  | NaN => false
  end.

(** Decimal digits. *)
Definition is_digit (c : ascii) : bool :=
  let n := nat_of_ascii c in (48 <=? n)%nat && (n <=? 57)%nat.

Definition digit_val (c : ascii) : Z := Z.of_nat (nat_of_ascii c) - 48.

Definition digit_char (d : Z) : ascii := ascii_of_nat (48 + Z.to_nat d).

(** The value of a string of decimal digits, most significant first. *)
Fixpoint dec_val (acc : Z) (s : string) : Z :=
  match s with
  | EmptyString => acc
  | String c r => dec_val (acc * 10 + digit_val c) r
  end.

(** The decimal digits of a natural number; [fuel] bounds the number of
    digits after the first. *)
Fixpoint dec_digits (fuel : nat) (n : Z) (acc : string) : string :=
  let acc' := String (digit_char (n mod 10)) acc in
  match fuel with
  | O => acc'
  | S f => if n <? 10 then acc' else dec_digits f (n / 10) acc'
  end.

Definition dec_string (n : Z) : string :=
  dec_digits (Z.to_nat (Z.log2 n)) n EmptyString.

(** [String(z)] for an integer. *)
Definition String_Z (z : Z) : string :=
  if z <? 0 then String "-"%char (dec_string (- z)) else dec_string z.

(** [String(n)], also what a template literal inserts. *)
Definition String_ (n : jsnum) : string :=
  match n with
  | Num z => String_Z z
  | NaN => "NaN"
  end.

(** An optional sign followed by one or more decimal digits. *)
Definition dec_int (s : string) : option (bool * Z) :=
  let body (neg : bool) (r : string) :=
    if negb (is_empty r) && all_chars is_digit r
    then Some (neg, dec_val 0 r) else None in
  match s with
  | String "+"%char r => body false r
  | String "-"%char r => body true r
  | _ => body false s
  end.

(** The characters that occur in some numeric literal accepted by
    [Number(string)]: digits, sign, point, exponent and radix markers,
    hexadecimal digits and the letters of [Infinity]. *)
Definition numeric_char (c : ascii) : bool :=
  is_digit c ||
  has_char c "+-.abcdefABCDEFxXoOInity".

(** [Number(s)] for a string.  The result is [None] where the embedding does
    not follow JavaScript: literals with a fraction, an exponent or a radix
    prefix, [Infinity], a negative zero, and integers too large for a double
    to hold exactly.  Everything else is decided as JavaScript does: blank
    text is 0, a decimal integer is its value, and text with a character
    that no numeric literal contains is [NaN]. *)
Definition Number_ (s : string) : option jsnum :=
  let t := trim s in
  if is_empty t then Some (Num 0)
  else match dec_int t with
       | Some (neg, v) =>
           if MAX_SAFE_INTEGER <? v then None
           else if neg && (v =? 0) then None
           else Some (Num (if neg then - v else v))
       | None => if all_chars numeric_char t then None else Some NaN
       end.

(** [s.padStart(w, zero)] for the one-character string of the digit 0. *)
Definition padStart0 (w : nat) (s : string) : string :=
  String.concat EmptyString (repeat "0" (w - String.length s)) +:+ s.

(** The fields that [uidNumeric] reads from [new Date()]. *)
Record Date : Type := mkDate {
  getFullYear : Z;
  getMonth : Z;
  getDate : Z;
  getHours : Z;
  getMinutes : Z;
  getSeconds : Z
}.

(** What the [Date] getters guarantee. *)
Definition valid_date (d : Date) : bool :=
  (0 <=? getFullYear d) &&
  (0 <=? getMonth d) && (getMonth d <=? 11) &&
  (1 <=? getDate d) && (getDate d <=? 31) &&
  (0 <=? getHours d) && (getHours d <=? 23) &&
  (0 <=? getMinutes d) && (getMinutes d <=? 59) &&
  (0 <=? getSeconds d) && (getSeconds d <=? 59).

Definition pad (n : Z) (w : nat) : string := padStart0 w (String_Z n).

(** [uidNumeric()]: [YYMMDDHHMMSS] followed by three random digits, read as a
    number.  [rnd] is the value of [Math.floor(Math.random()*1000)]. *)
Definition uid_text (d : Date) (rnd : Z) : string :=
  let base :=
    pad (Z.rem (getFullYear d) 100) 2 +:+ pad (getMonth d + 1) 2 +:+
    pad (getDate d) 2 +:+ pad (getHours d) 2 +:+ pad (getMinutes d) 2 +:+
    pad (getSeconds d) 2 in
  let rand := padStart0 3 (String_Z rnd) in
  base +:+ rand.

Definition uidNumeric (d : Date) (rnd : Z) : option jsnum :=
  Number_ (uid_text d rnd).

(** [s.split(sep)] for a one-character separator; [cur] is the segment read
    so far. *)
Fixpoint split_on (sep : ascii) (s : string) (cur : string) : list string :=
  match s with
  | EmptyString => [cur]
  | String c r =>
      if Ascii.eqb c sep then cur :: split_on sep r EmptyString
      else split_on sep r (cur +:+ String c EmptyString)
  end.

(** [hay.includes(needle)] *)
Fixpoint includes (needle hay : string) : bool :=
  String.prefix needle hay ||
  match hay with
  | EmptyString => false
  | String _ r => includes needle r
  end.

(** [s.replace(c, empty)] for a one-character pattern: the first occurrence
    is removed. *)
Fixpoint remove_first (c : ascii) (s : string) : string :=
  match s with
  | EmptyString => EmptyString
  | String d r => if Ascii.eqb c d then r else String d (remove_first c r)
  end.

(** What [parseYouTubeId] reads from [new URL(url)]. *)
Record URL : Type := mkURL {
  hostname : string;
  pathname : string;
  searchParams_v : option string
}.

(** [parts.indexOf(x)], with [None] for -1. *)
Fixpoint indexOf (x : string) (parts : list string) : option nat :=
  match parts with
  | [] => None
  | p :: ps => if String.eqb p x then Some O else option_map S (indexOf x ps)
  end.

(** [parseYouTubeId(url)]; [u] is [None] when [new URL(url)] throws. *)
Definition parseYouTubeId (u : option URL) : string :=
  match u with
  | None => EmptyString
  | Some u =>
      if includes "youtu.be" (hostname u) then remove_first "/" (pathname u)
      else if truthy_str (default EmptyString (searchParams_v u))
      then default EmptyString (searchParams_v u)
      else
        let parts := List.filter truthy_str (split_on "/" (pathname u) EmptyString) in
        match indexOf "embed" parts with
        | Some i =>
            if truthy_str (default EmptyString (parts !! S i))
            then default EmptyString (parts !! S i)
            else EmptyString
        | None => EmptyString
        end
  end.

(** [fmtTime(sec)] for an integer number of seconds. *)
Definition fmtTime (sec : Z) : string :=
  let sec := Z.max 0 sec in
  let m := sec / 60 in
  let s := sec mod 60 in
  String_Z m +:+ ":" +:+ padStart0 2 (String_Z s).

End JS.

Import JS.

(** ** The data model *)

(** A roster entry.  Athlete objects are never mutated after creation. *)
Record Athlete : Type := mkAthlete {
  a_id : jsnum;
  first : string;
  last : string;
  position : string;
  jersey : string;
  team : string
}.

(** A point of a stroke: the result of [relPoint], which reads the rectangle
    of the canvas from the DOM and computes in floating point.  The embedding
    takes the two coordinates as given. *)
Record Point : Type := mkPoint { p_x : Q; p_y : Q }.

Record Stroke : Type := mkStroke {
  s_id : jsnum;
  tool : string;
  color : string;
  size : jsnum;
  points : list Point;
  createdAt : Z
}.

(** An annotation.  [taggedAthleteIds] and [drawings] may be missing from an
    imported object, which the program reads as [x || []]. *)
Record Annotation : Type := mkAnnotation {
  t_id : jsnum;
  time : Z;
  title : string;
  description : string;
  taggedAthleteIds : option (list jsnum);
  drawings : option (list Stroke)
}.

(** [x || []] for an array that may be undefined. *)
Definition or_empty {A : Type} (x : option (list A)) : list A := default [] x.

(** The project document as a value: what [JSON.stringify(state)] records. *)
Record Doc : Type := mkDoc {
  d_projectId : jsnum;
  d_youtubeUrl : string;
  d_youtubeId : string;
  d_roster : list Athlete;
  d_timestamps : list Annotation
}.

(** ** CSV *)

Module Csv.

Definition dquote : ascii := ascii_of_nat 34.
Definition comma : ascii := ","%char.
Definition LF : ascii := ascii_of_nat 10.
Definition CR : ascii := ascii_of_nat 13.

(** [s.replaceAll] of a double quote by two double quotes. *)
Fixpoint double_quotes (s : string) : string :=
  match s with
  | EmptyString => EmptyString
  | String c r =>
      if Ascii.eqb c dquote then String dquote (String dquote (double_quotes r))
      else String c (double_quotes r)
  end.

(** [esc] of [toCSV]; the argument is [v.toString()], or the empty string
    when [v] is null or undefined. *)
Definition esc (s : string) : string :=
  if has_char dquote s || has_char comma s || has_char LF s
  then String dquote (double_quotes s +:+ String dquote EmptyString)
  else s.

(** [toCSV(rows, headers)]; [get r h] is the text of [r[h]], empty when the
    property is missing. *)
Definition toCSV {R : Type} (get : R -> string -> string)
    (rows : list R) (headers : list string) : string :=
  let out := String.concat "," headers ::
             map (fun r => String.concat "," (map (fun h => esc (get r h)) headers)) rows in
  String.concat (String LF EmptyString) out.

(** The first [replace] of [fromCSV]: every CR LF becomes LF. *)
Fixpoint crlf_to_lf (s : string) : string :=
  match s with
  | EmptyString => EmptyString
  | String c r =>
      match r with
      | String c' r' =>
          if Ascii.eqb c CR && Ascii.eqb c' LF then String LF (crlf_to_lf r')
          else String c (crlf_to_lf r)
      | EmptyString => String c EmptyString
      end
  end.

(** The second [replace] of [fromCSV]: every remaining CR becomes LF. *)
Fixpoint cr_to_lf (s : string) : string :=
  match s with
  | EmptyString => EmptyString
  | String c r => String (if Ascii.eqb c CR then LF else c) (cr_to_lf r)
  end.

(** The loop of [parseLine]: [cells], [cur] and [inQ] are its variables; a
    doubled quote inside quotes consumes two characters. *)
Fixpoint parse_go (line : string) (cells : list string) (cur : string)
    (inQ : bool) : list string :=
  match line with
  | EmptyString => cells ++ [cur]
  | String ch rest =>
      if Ascii.eqb ch dquote then
        match rest with
        | String ch' rest' =>
            if inQ && Ascii.eqb ch' dquote
            then parse_go rest' cells (cur +:+ String dquote EmptyString) inQ
            else parse_go rest cells cur (negb inQ)
        | EmptyString => parse_go rest cells cur (negb inQ)
        end
      else if Ascii.eqb ch comma && negb inQ
      then parse_go rest (cells ++ [cur]) EmptyString inQ
      else parse_go rest cells (cur +:+ String ch EmptyString) inQ
  end.

Definition parseLine (line : string) : list string :=
  map trim (parse_go line [] EmptyString false).

(** The one name whose assignment on a plain object creates no property: it
    is an accessor of [Object.prototype], and its setter ignores a string. *)
Definition proto_name : string := "__proto__".

(** [row[h] = v] on the plain object [row], [v] a string.  The map holds the
    own properties of the object. *)
Definition assign (h v : string) (row : gmap string string) : gmap string string :=
  if String.eqb h proto_name then row else <[h := v]> row.

(** [headers.forEach((h, idx) => row[h] = cells[idx] ?? empty)] *)
Fixpoint fill_row (headers : list string) (idx : nat) (cells : list string)
    (row : gmap string string) : gmap string string :=
  match headers with
  | [] => row
  | h :: hs => fill_row hs (S idx) cells (assign h (default EmptyString (cells !! idx)) row)
  end.

Record Parsed : Type := mkParsed {
  headers : list string;
  rows : list (gmap string string)
}.

Definition fromCSV (text : string) : Parsed :=
  let lines :=
    List.filter (fun l => negb (is_empty (trim l)))
      (split_on LF (cr_to_lf (crlf_to_lf text)) EmptyString) in
  match lines with
  | [] => mkParsed [] []
  | l0 :: ls =>
      let headers := map trim (parseLine l0) in
      mkParsed headers (map (fun l => fill_row headers 0 (parseLine l) ∅) ls)
  end.

End Csv.
Import Csv.

(** ** The application state *)

(** A reference to an annotation object: its index in the store. *)
Abbreviation ref := nat (only parsing).

Record State : Type := mkState {
  (* the fields of [state] *)
  projectId : jsnum;
  youtubeUrl : string;
  youtubeId : string;
  roster : list Athlete;
  timestamps : list ref;
  (* the annotation objects ever created; objects dropped from
     [state.timestamps] stay reachable from handlers that closed over them *)
  store : list Annotation;
  (* the other module-level variables *)
  hasPlayer : bool;
  playerReady : bool;
  pendingVideoId : option string;
  selectedTsId : option jsnum;
  drawEnabled : bool;
  drawingsBuf : list Stroke;
  activeStroke : option Stroke;
  (* the value stored under [LS_KEY], as the document it serialises *)
  localStorage : option Doc;
  (* the text of the two status lines *)
  status : string;
  rosterStatus : string
}.

Definition set_projectId (v : jsnum) (s : State) : State :=
  mkState v (youtubeUrl s) (youtubeId s) (roster s) (timestamps s) (store s)
    (hasPlayer s) (playerReady s) (pendingVideoId s) (selectedTsId s)
    (drawEnabled s) (drawingsBuf s) (activeStroke s) (localStorage s)
    (status s) (rosterStatus s).

Definition set_youtube (url id : string) (s : State) : State :=
  mkState (projectId s) url id (roster s) (timestamps s) (store s)
    (hasPlayer s) (playerReady s) (pendingVideoId s) (selectedTsId s)
    (drawEnabled s) (drawingsBuf s) (activeStroke s) (localStorage s)
    (status s) (rosterStatus s).

Definition set_roster (v : list Athlete) (s : State) : State :=
  mkState (projectId s) (youtubeUrl s) (youtubeId s) v (timestamps s) (store s)
    (hasPlayer s) (playerReady s) (pendingVideoId s) (selectedTsId s)
    (drawEnabled s) (drawingsBuf s) (activeStroke s) (localStorage s)
    (status s) (rosterStatus s).

Definition set_timestamps (v : list ref) (s : State) : State :=
  mkState (projectId s) (youtubeUrl s) (youtubeId s) (roster s) v (store s)
    (hasPlayer s) (playerReady s) (pendingVideoId s) (selectedTsId s)
    (drawEnabled s) (drawingsBuf s) (activeStroke s) (localStorage s)
    (status s) (rosterStatus s).

Definition set_store (v : list Annotation) (s : State) : State :=
  mkState (projectId s) (youtubeUrl s) (youtubeId s) (roster s) (timestamps s) v
    (hasPlayer s) (playerReady s) (pendingVideoId s) (selectedTsId s)
    (drawEnabled s) (drawingsBuf s) (activeStroke s) (localStorage s)
    (status s) (rosterStatus s).

Definition set_pendingVideoId (v : option string) (s : State) : State :=
  mkState (projectId s) (youtubeUrl s) (youtubeId s) (roster s) (timestamps s)
    (store s) (hasPlayer s) (playerReady s) v (selectedTsId s)
    (drawEnabled s) (drawingsBuf s) (activeStroke s) (localStorage s)
    (status s) (rosterStatus s).

Definition set_selectedTsId (v : option jsnum) (s : State) : State :=
  mkState (projectId s) (youtubeUrl s) (youtubeId s) (roster s) (timestamps s)
    (store s) (hasPlayer s) (playerReady s) (pendingVideoId s) v
    (drawEnabled s) (drawingsBuf s) (activeStroke s) (localStorage s)
    (status s) (rosterStatus s).

Definition set_drawEnabled (v : bool) (s : State) : State :=
  mkState (projectId s) (youtubeUrl s) (youtubeId s) (roster s) (timestamps s)
    (store s) (hasPlayer s) (playerReady s) (pendingVideoId s) (selectedTsId s)
    v (drawingsBuf s) (activeStroke s) (localStorage s)
    (status s) (rosterStatus s).

Definition set_drawings (v : list Stroke) (s : State) : State :=
  mkState (projectId s) (youtubeUrl s) (youtubeId s) (roster s) (timestamps s)
    (store s) (hasPlayer s) (playerReady s) (pendingVideoId s) (selectedTsId s)
    (drawEnabled s) v (activeStroke s) (localStorage s)
    (status s) (rosterStatus s).

Definition set_activeStroke (v : option Stroke) (s : State) : State :=
  mkState (projectId s) (youtubeUrl s) (youtubeId s) (roster s) (timestamps s)
    (store s) (hasPlayer s) (playerReady s) (pendingVideoId s) (selectedTsId s)
    (drawEnabled s) (drawingsBuf s) v (localStorage s)
    (status s) (rosterStatus s).

Definition set_localStorage (v : option Doc) (s : State) : State :=
  mkState (projectId s) (youtubeUrl s) (youtubeId s) (roster s) (timestamps s)
    (store s) (hasPlayer s) (playerReady s) (pendingVideoId s) (selectedTsId s)
    (drawEnabled s) (drawingsBuf s) (activeStroke s) v
    (status s) (rosterStatus s).

Definition setStatus (msg : string) (s : State) : State :=
  mkState (projectId s) (youtubeUrl s) (youtubeId s) (roster s) (timestamps s)
    (store s) (hasPlayer s) (playerReady s) (pendingVideoId s) (selectedTsId s)
    (drawEnabled s) (drawingsBuf s) (activeStroke s) (localStorage s)
    msg (rosterStatus s).

Definition set_rosterStatus (msg : string) (s : State) : State :=
  mkState (projectId s) (youtubeUrl s) (youtubeId s) (roster s) (timestamps s)
    (store s) (hasPlayer s) (playerReady s) (pendingVideoId s) (selectedTsId s)
    (drawEnabled s) (drawingsBuf s) (activeStroke s) (localStorage s)
    (status s) msg.

(** The annotation objects that [state.timestamps] refers to, in order. *)
Definition annotations (s : State) : list Annotation :=
  omap (fun r => store s !! r) (timestamps s).

(** The in-memory document: [state] with every reference followed. *)
Definition document (s : State) : Doc :=
  mkDoc (projectId s) (youtubeUrl s) (youtubeId s) (roster s) (annotations s).

(** [saveState()]: [JSON.stringify] copies the whole document, so later
    mutations of [state] do not reach the stored value. *)
Definition saveState (s : State) : State :=
  set_localStorage (Some (document s)) s.

(** [state.timestamps.find(t => t.id === id)]; [id] is [None] for [null],
    which is strictly equal to no number. *)
Definition find_ts (id : option jsnum) (s : State) : option ref :=
  match id with
  | None => None
  | Some n =>
      List.find (fun r => match store s !! r with
                          | Some t => strict_eq (t_id t) n
                          | None => false
                          end) (timestamps s)
  end.

(** Truthiness of [selectedTsId]. *)
Definition selected (s : State) : bool :=
  match selectedTsId s with
  | Some n => truthy_num n
  | None => false
  end.

(** How the call of a handler ends: it returns, it throws, or it is outside
    what the embedding represents, which is the case when [Number_] does not
    decide a text and when a reference points to no object. *)
Inductive Error : Type := TypeError.

Inductive Outcome : Type :=
  | Done (s : State)
  | Threw (e : Error) (s : State)
  | Beyond.

(** ** Roster *)

Definition with_tags (ids : list jsnum) (t : Annotation) : Annotation :=
  mkAnnotation (t_id t) (time t) (title t) (description t) (Some ids) (drawings t).

Definition with_drawings (ds : list Stroke) (t : Annotation) : Annotation :=
  mkAnnotation (t_id t) (time t) (title t) (description t) (taggedAthleteIds t) (Some ds).

Definition with_text (ti de : string) (t : Annotation) : Annotation :=
  mkAnnotation (t_id t) (time t) ti de (taggedAthleteIds t) (drawings t).

(** [for (const ts of state.timestamps) ts = f(ts)]: the loop visits the
    objects through the references, in order. *)
Definition for_each_ts (f : Annotation -> Annotation) (s : State) : State :=
  set_store (foldl (fun st r => alter f r st) (store s) (timestamps s)) s.

(** The loop body of the delete handler:
    [ts.taggedAthleteIds = (ts.taggedAthleteIds||[]).filter(aid => Number(aid) !== id)] *)
Definition untag (id : jsnum) (t : Annotation) : Annotation :=
  with_tags (List.filter (fun aid => negb (strict_eq aid id))
               (or_empty (taggedAthleteIds t))) t.

(** The click handler that [renderRosterTable] binds to a Delete button;
    [data_del] is the attribute of the button. *)
Definition rosterDelete_onclick (data_del : string) (s : State) : Outcome :=
  match Number_ data_del with
  | None => Beyond
  | Some id =>
      let s := set_roster
                 (List.filter (fun x => negb (strict_eq (a_id x) id)) (roster s)) s in
      let s := for_each_ts (untag id) s in
      Done (saveState s)
  end.

(** [renderRosterTable] writes [data-del] from the template [${a.id}]. *)
Definition data_del (a : Athlete) : string := String_ (a_id a).

(** Clicking the Delete button of the row rendered for [a]. *)
Definition removeAthlete (a : Athlete) (s : State) : Outcome :=
  rosterDelete_onclick (data_del a) s.

(** [addAthlete()]; the first five arguments are the values of the form
    fields, [now] and [rnd] what [uidNumeric] reads. *)
Definition addAthlete (r_first r_last r_pos r_jersey r_team : string)
    (now : Date) (rnd : Z) (s : State) : Outcome :=
  let first := trim r_first in
  let last := trim r_last in
  let position := trim r_pos in
  let jersey := trim r_jersey in
  let team := trim r_team in
  if negb (truthy_str first) || negb (truthy_str last)
  then Done (set_rosterStatus "First and last name are required." s)
  else match uidNumeric now rnd with
       | None => Beyond
       | Some id =>
           let s := set_roster
                      (roster s ++ [mkAthlete id first last position jersey team]) s in
           let s := saveState s in
           Done (set_rosterStatus ("Added athlete ID " +:+ String_ id +:+ ".") s)
       end.

(** The text of a property of an athlete, as [toCSV] reads it. *)
Definition athlete_get (a : Athlete) (h : string) : string :=
  if String.eqb h "id" then String_ (a_id a)
  else if String.eqb h "first" then first a
  else if String.eqb h "last" then last a
  else if String.eqb h "position" then position a
  else if String.eqb h "jersey" then jersey a
  else if String.eqb h "team" then team a
  else EmptyString.

Definition roster_headers : list string :=
  ["id"; "first"; "last"; "position"; "jersey"; "team"].

(** The text that [exportRosterCSV] hands to the download. *)
Definition exportRosterCSV (s : State) : string :=
  toCSV athlete_get (roster s) roster_headers.

(** [a ?? b] *)
Definition nullish {A : Type} (a b : option A) : option A :=
  match a with Some _ => a | None => b end.

Notation "a ?? b" := (nullish a b) (at level 60, right associativity).

(** One iteration of the first loop of [importRosterCSV]: [None] when the
    row is skipped.  [clock] is what [uidNumeric] reads if it is called.
    None of the names read here is a property of [Object.prototype], so
    reading one that the row does not own gives [undefined], as the lookup
    among the own properties does. *)
Definition map_row (r : gmap string string) (clock : Date * Z)
    : option (option Athlete) :=
  let first := trim (default EmptyString (r !! "first" ?? r !! "firstname" ?? r !! "name")) in
  let last := trim (default EmptyString (r !! "last" ?? r !! "lastname" ?? r !! "surname")) in
  let position := trim (default EmptyString (r !! "position" ?? r !! "pos")) in
  let jersey := trim (default EmptyString (r !! "jersey" ?? r !! "number" ?? r !! "jerseyNumber")) in
  let team := trim (default EmptyString (r !! "team" ?? r !! "squad")) in
  let idRaw := trim (default EmptyString (r !! "id")) in
  let id := if truthy_str idRaw then Number_ idRaw
            else uidNumeric (fst clock) (snd clock) in
  if negb (truthy_str first) && negb (truthy_str last) then Some None
  else match id with
       | Some id => Some (Some (mkAthlete id first last position jersey team))
       | None => None
       end.

(** The first loop: the rows that are kept, in order; the outer [None] is
    [Beyond].  [clock i] is read by the [uidNumeric] call of row [i]. *)
Fixpoint map_rows (rows : list (gmap string string)) (i : nat)
    (clock : nat -> Date * Z) : option (list Athlete) :=
  match rows with
  | [] => Some []
  | r :: rs =>
      match map_row r (clock i), map_rows rs (S i) clock with
      | Some (Some a), Some l => Some (a :: l)
      | Some None, Some l => Some l
      | _, _ => None
      end
  end.

(** [Map.prototype.set]: a [Map] keeps its entries in insertion order and a
    key that is already present keeps its place. *)
Fixpoint map_set {V : Type} (k : jsnum) (v : V) (m : list (jsnum * V))
    : list (jsnum * V) :=
  match m with
  | [] => [(k, v)]
  | (k', v') :: m' =>
      if same_value_zero k' k then (k', v) :: m'
      else (k', v') :: map_set k v m'
  end.

(** [new Map(entries)], and the second loop of [importRosterCSV]. *)
Definition map_set_all {V : Type} (key : V -> jsnum) (l : list V)
    (m : list (jsnum * V)) : list (jsnum * V) :=
  foldl (fun m a => map_set (key a) a m) m l.

(** [Array.from(byId.values())] after both loops. *)
Definition merge_by_id (old mapped : list Athlete) : list Athlete :=
  map snd (map_set_all a_id mapped (map_set_all a_id old [])).

(** [selectTimestamp(id)] *)
Definition selectTimestamp (id : option jsnum) (s : State) : State :=
  let s := set_selectedTsId id s in
  match find_ts id s with
  | None => s
  | Some r =>
      match store s !! r with
      | Some ts => set_drawings (or_empty (drawings ts)) s
      | None => s
      end
  end.

(** [importRosterCSV()] from the point where the file has been read; [file]
    is [None] when the picker returns no file. *)
Definition importRosterCSV (file : option string) (clock : nat -> Date * Z)
    (s : State) : Outcome :=
  match file with
  | None => Done s
  | Some text =>
      match map_rows (rows (fromCSV text)) 0 clock with
      | None => Beyond
      | Some mapped =>
          let s := set_roster (merge_by_id (roster s) mapped) s in
          let s := saveState s in
          let s := set_rosterStatus
                     ("Imported " +:+ String_Z (Z.of_nat (length mapped)) +:+
                      " rows (merged by ID).") s in
          let s := setStatus "Roster imported and UI refreshed." s in
          Done (if selected s then selectTimestamp (selectedTsId s) s else s)
      end
  end.

(** [clearRoster()] *)
Definition clearRoster (s : State) : Outcome :=
  let s := set_roster [] s in
  let s := for_each_ts (with_tags []) s in
  let s := saveState s in
  Done (set_rosterStatus "Roster cleared." s).

(** ** Timestamps *)

(** [addTimestampAtCurrent()]; [time] is [Math.floor(player.getCurrentTime())].
    The new object is allocated at the end of the store. *)
Definition addTimestampAtCurrent (time : Z) (now : Date) (rnd : Z)
    (s : State) : Outcome :=
  if negb (hasPlayer s) then Done s
  else match uidNumeric now rnd with
       | None => Beyond
       | Some id =>
           let ts := mkAnnotation id time "New coaching point" EmptyString
                       (Some []) (Some []) in
           let r := length (store s) in
           let s := set_store (store s ++ [ts]) s in
           let s := set_timestamps (timestamps s ++ [r]) s in
           let s := saveState s in
           let s := setStatus ("Added timestamp @ " +:+ fmtTime time) s in
           Done (selectTimestamp (Some id) s)
       end.

(** [saveTimestampEdits()]; the arguments are the values of the two inputs. *)
Definition saveTimestampEdits (tsTitle tsDesc : string) (s : State) : Outcome :=
  if negb (selected s) then Done s
  else match find_ts (selectedTsId s) s with
       | None => Done s
       | Some r =>
           let s := set_store (alter (with_text (trim tsTitle) (trim tsDesc)) r (store s)) s in
           let s := saveState s in
           Done (setStatus "Saved timestamp." s)
       end.

(** [deleteTimestamp()] *)
Definition deleteTimestamp (s : State) : Outcome :=
  match selectedTsId s with
  | Some id =>
      if negb (truthy_num id) then Done s
      else
        let keep r := match store s !! r with
                      | Some t => negb (strict_eq (t_id t) id)
                      | None => true
                      end in
        let s := set_timestamps (List.filter keep (timestamps s)) s in
        let s := set_selectedTsId None s in
        let s := set_drawings [] s in
        let s := saveState s in
        Done (setStatus "Deleted timestamp." s)
  | None => Done s
  end.

(** ** Tagging *)

(** The annotation whose tags [renderTaggedAthletes] and
    [renderAthleteSearchResults] show, and that the handlers they install
    close over: [selectedTsId ? state.timestamps.find(...) : null].  [None]
    stands for [null] and [undefined]. *)
Definition rendered_ts (s : State) : option ref :=
  if selected s then find_ts (selectedTsId s) s else None.

(** The click handler of a pill in [renderTaggedAthletes]; it closes over the
    annotation [ts] and the tagged [id]. *)
Definition pill_onclick (ts : ref) (id : jsnum) (s : State) : Outcome :=
  match store s !! ts with
  | None => Beyond
  | Some _ =>
      let s := set_store (alter (untag id) ts (store s)) s in
      Done (saveState s)
  end.

(** The two statements of the Tag button handler that touch the annotation:
    [if (!ts.taggedAthleteIds) ts.taggedAthleteIds = [];
     if (!ts.taggedAthleteIds.includes(a.id)) ts.taggedAthleteIds.push(a.id);] *)
Definition add_tag (id : jsnum) (t : Annotation) : Annotation :=
  let ids := or_empty (taggedAthleteIds t) in
  if existsb (fun x => same_value_zero x id) ids
  then with_tags ids t
  else with_tags (ids ++ [id]) t.

(** The click handler of a button in [renderAthleteSearchResults]; it closes
    over [ts], the annotation found when the list was rendered, and over the
    athlete [a] of the row.  Reading a property of [null] throws. *)
Definition tagButton_onclick (ts : option ref) (a : Athlete) (s : State)
    : Outcome :=
  match ts with
  | None => Threw TypeError s
  | Some r =>
      match store s !! r with
      | None => Beyond
      | Some _ =>
          let s := set_store (alter (add_tag (a_id a)) r (store s)) s in
          Done (saveState s)
      end
  end.

(** Clicking the button of athlete [a] in a list rendered in state [s]. *)
Definition tagAthlete (a : Athlete) (s : State) : Outcome :=
  tagButton_onclick (rendered_ts s) a s.

(** ** Telestration *)

(** What [drawStroke] sends to the canvas; the coordinates are the
    normalised ones, which the program scales by the size of the canvas. *)
Inductive CanvasOp : Type :=
  | BeginPath (composite : string) (strokeStyle : string) (lineWidth : jsnum)
  | MoveTo (p : Point)
  | LineTo (p : Point)
  | StrokeOp.

Definition drawStroke (stroke : Stroke) : list CanvasOp :=
  match points stroke with
  | p0 :: (_ :: _) as rest =>
      BeginPath
        (if String.eqb (tool stroke) "erase" then "destination-out" else "source-over")
        (if truthy_str (color stroke) then color stroke else "#00E5FF")
        (if truthy_num (size stroke) then size stroke else Num 4)
      :: MoveTo p0 :: map LineTo rest ++ [StrokeOp]
  | _ => []
  end.

(** [redrawAll()], after it has cleared the canvas. *)
Definition redrawAll (s : State) : list CanvasOp :=
  concat (map drawStroke (drawingsBuf s)) ++
  match activeStroke s with
  | Some a => drawStroke a
  | None => []
  end.

(** What a pointer handler reads from its event and from the page:
    [relPoint(e.clientX, e.clientY)], the colour and size selectors, the
    clock and the random generator. *)
Record PointerEvent : Type := mkPointerEvent {
  e_point : Point;
  e_color : string;
  e_size : jsnum;
  e_now : Date;
  e_rnd : Z;
  e_time : Z
}.

Definition pointerDown (e : PointerEvent) (s : State) : Outcome :=
  if negb (drawEnabled s) then Done s
  else if negb (selected s)
  then Done (setStatus "Select a timestamp before drawing." s)
  else match uidNumeric (e_now e) (e_rnd e) with
       | None => Beyond
       | Some id =>
           Done (set_activeStroke
                   (Some (mkStroke id "pen" (e_color e) (e_size e)
                            [e_point e] (e_time e))) s)
       end.

Definition push_point (p : Point) (k : Stroke) : Stroke :=
  mkStroke (s_id k) (tool k) (color k) (size k) (points k ++ [p]) (createdAt k).

Definition pointerMove (e : PointerEvent) (s : State) : Outcome :=
  if negb (drawEnabled s) then Done s
  else match activeStroke s with
       | None => Done s
       | Some k => Done (set_activeStroke (Some (push_point (e_point e) k)) s)
       end.

(** [ts.drawings = ts.drawings || []; ts.drawings.push(activeStroke)] *)
Definition push_stroke (k : Stroke) (t : Annotation) : Annotation :=
  with_drawings (or_empty (drawings t) ++ [k]) t.

Definition pointerUp (s : State) : Outcome :=
  if negb (drawEnabled s) then Done s
  else match activeStroke s with
       | None => Done s
       | Some k =>
           match find_ts (selectedTsId s) s with
           | None => Done s
           | Some r =>
               match store s !! r with
               | None => Beyond
               | Some ts =>
                   let s := set_store (alter (push_stroke k) r (store s)) s in
                   let s := set_drawings (or_empty (drawings ts) ++ [k]) s in
                   let s := set_activeStroke None s in
                   Done (saveState s)
               end
           end
       end.

(** The click handler of the draw toggle. *)
Definition drawToggle_onclick (s : State) : Outcome :=
  let s := set_drawEnabled (negb (drawEnabled s)) s in
  Done (setStatus (if drawEnabled s then "Drawing enabled." else "Drawing disabled.") s).

(** The click handler of the Clear drawings button. *)
Definition clearDraw_onclick (s : State) : Outcome :=
  if negb (selected s) then Done s
  else match find_ts (selectedTsId s) s with
       | None => Done s
       | Some r =>
           let s := set_store (alter (with_drawings []) r (store s)) s in
           let s := set_drawings [] s in
           let s := saveState s in
           Done (setStatus "Cleared drawings for selected timestamp." s)
       end.

(** ** Project: video, new project, import *)

(** The click handler of the Load button; [ytUrl] is the value of the input
    and [u] the result of [new URL] on it. *)
Definition load_onclick (ytUrl : string) (u : option URL) (s : State) : Outcome :=
  let url := trim ytUrl in
  let id := parseYouTubeId u in
  if negb (truthy_str id)
  then Done (setStatus "Could not parse YouTube ID. Paste a normal YouTube URL." s)
  else
    let s := set_youtube url id s in
    let s := saveState s in
    if negb (playerReady s) || negb (hasPlayer s)
    then Done (setStatus "Loading queued — player is still initializing..."
                 (set_pendingVideoId (Some id) s))
    else Done (setStatus ("Loaded videoId: " +:+ id) s).

(** [newProject()] *)
Definition newProject (now : Date) (rnd : Z) (s : State) : Outcome :=
  match uidNumeric now rnd with
  | None => Beyond
  | Some id =>
      let s := set_projectId id s in
      let s := set_timestamps [] s in
      let s := set_selectedTsId None s in
      let s := set_drawings [] s in
      let s := set_activeStroke None s in
      let s := saveState s in
      Done (setStatus "New project started (timestamps cleared, roster kept). " s)
  end.

(** A property of the parsed file that must be an array. *)
Inductive Field (A : Type) : Type :=
  | Missing
  | NotArray
  | IsArray (l : list A).
Arguments Missing {A}.
Arguments NotArray {A}.
Arguments IsArray {A} l.

(** The object in a project file, as far as [importProject] looks into it.
    [None] is a property that is null or undefined.  The elements of the two
    arrays are taken to have the shape that the program writes. *)
Record ProjectFile : Type := mkProjectFile {
  f_projectId : option jsnum;
  f_youtubeUrl : option string;
  f_youtubeId : option string;
  f_roster : Field Athlete;
  f_timestamps : Field Annotation
}.

(** The value of [JSON.parse(text)]: something that fails the test
    [!obj || typeof obj !== object], or an object. *)
Inductive JsonValue : Type :=
  | NotObject
  | Object (o : ProjectFile).

Definition import_failed (s : State) : Outcome :=
  Done (setStatus "Import failed: invalid project JSON." s).

(** [importProject()] from the point where the file has been read.  [file] is
    [None] when the picker returns no file; otherwise it holds the result of
    [JSON.parse], [None] when that throws. *)
Definition importProject (file : option (option JsonValue)) (now : Date)
    (rnd : Z) (s : State) : Outcome :=
  match file with
  | None => Done s
  | Some None => import_failed s
  | Some (Some NotObject) => import_failed s
  | Some (Some (Object obj)) =>
      match f_roster obj, f_timestamps obj with
      | IsArray ros, IsArray tss =>
          match (match f_projectId obj with
                 | Some id => Some id
                 | None => uidNumeric now rnd
                 end) with
          | None => Beyond
          | Some pid =>
              let fresh := seq (length (store s)) (length tss) in
              let s := set_projectId pid s in
              let s := set_youtube (default EmptyString (f_youtubeUrl obj))
                         (default EmptyString (f_youtubeId obj)) s in
              let s := set_roster ros s in
              let s := set_store (store s ++ tss) s in
              let s := set_timestamps fresh s in
              let s := saveState s in
              let s := set_selectedTsId None s in
              let s := set_drawings [] s in
              let s := if truthy_str (youtubeId s)
                       then if playerReady s && hasPlayer s then s
                            else set_pendingVideoId (Some (youtubeId s)) s
                       else s in
              Done (setStatus "Imported project JSON." s)
          end
      | _, _ => import_failed s
      end
  end.

(** ** Events *)

(** The user actions that change the document. *)
Inductive Event : Type :=
  | AddAthlete (r_first r_last r_pos r_jersey r_team : string) (now : Date) (rnd : Z)
  | RemoveAthlete (data_del : string)
  | ClearRoster
  | ImportRosterCSV (file : option string) (clock : nat -> Date * Z)
  | AddTimestamp (time : Z) (now : Date) (rnd : Z)
  | EditTimestamp (tsTitle tsDesc : string)
  | DeleteTimestamp
  | AddTag (ts : option ref) (a : Athlete)
  | RemoveTag (ts : ref) (id : jsnum)
  | PointerDown (e : PointerEvent)
  | PointerMove (e : PointerEvent)
  | PointerUp
  | ClearDrawings
  | LoadVideo (ytUrl : string) (u : option URL)
  | NewProject (now : Date) (rnd : Z)
  | ImportProject (file : option (option JsonValue)) (now : Date) (rnd : Z).

Definition handle (ev : Event) (s : State) : Outcome :=
  match ev with
  | AddAthlete f l p j t now rnd => addAthlete f l p j t now rnd s
  | RemoveAthlete d => rosterDelete_onclick d s
  | ClearRoster => clearRoster s
  | ImportRosterCSV file clock => importRosterCSV file clock s
  | AddTimestamp time now rnd => addTimestampAtCurrent time now rnd s
  | EditTimestamp ti de => saveTimestampEdits ti de s
  | DeleteTimestamp => deleteTimestamp s
  | AddTag ts a => tagButton_onclick ts a s
  | RemoveTag ts id => pill_onclick ts id s
  | PointerDown e => pointerDown e s
  | PointerMove e => pointerMove e s
  | PointerUp => pointerUp s
  | ClearDrawings => clearDraw_onclick s
  | LoadVideo url u => load_onclick url u s
  | NewProject now rnd => newProject now rnd s
  | ImportProject file now rnd => importProject file now rnd s
  end.

(** Running a handler after another, as the event loop does: a handler that
    throws ends its own call only. *)
Definition and_then (o : Outcome) (h : State -> Outcome) : Outcome :=
  match o with
  | Done s => h s
  | Threw _ s => h s
  | Beyond => Beyond
  end.

(** The module-level initial values, before [loadState]. *)
Definition initial (pid : jsnum) : State :=
  mkState pid EmptyString EmptyString [] [] [] false false None None
    false [] None None EmptyString EmptyString.

(** ** Auxiliary definitions of the statements *)

(** The number that [uidNumeric] spells out. *)
Definition uid_value (d : Date) (rnd : Z) : Z :=
  ((((((Z.rem (getFullYear d) 100) * 100 + (getMonth d + 1)) * 100 + getDate d) * 100
     + getHours d) * 100 + getMinutes d) * 100 + getSeconds d) * 1000 + rnd.

(** What two calls of [uidNumeric] must differ in to give different
    identifiers: the reading of the clock to the second, without the century,
    and the random draw. *)
Definition uid_reading (d : Date) (rnd : Z) : list Z :=
  [Z.rem (getFullYear d) 100; getMonth d; getDate d; getHours d;
   getMinutes d; getSeconds d; rnd].

Definition two_digits (n : Z) : string :=
  String (digit_char (n / 10)) (String (digit_char (n mod 10)) EmptyString).

Definition three_digits (n : Z) : string :=
  String (digit_char (n / 100)) (two_digits (n mod 100)).


(** A pointer gesture: pointer-down, any number of pointer-moves, pointer-up,
    with no other event in between. *)
Definition gesture (down : PointerEvent) (moves : list PointerEvent)
    (s : State) : Outcome :=
  and_then
    (foldl (fun o e => and_then o (pointerMove e)) (pointerDown down s) moves)
    pointerUp.

(** The document and its persisted copy agree. *)
Definition persisted (s : State) : Prop :=
  localStorage s = Some (document s).

(** The strokes of a gesture: the stroke that pointer-down starts, and the
    stroke after the pointer-moves. *)
Definition stroke_begun (id : jsnum) (e : PointerEvent) : Stroke :=
  mkStroke id "pen" (e_color e) (e_size e) [e_point e] (e_time e).

Definition stroke_moved (k : Stroke) (moves : list PointerEvent) : Stroke :=
  foldl (fun k e => push_point (e_point e) k) k moves.

(** What [importProject] accepts: an object whose [roster] and [timestamps]
    are arrays. *)
Definition well_shaped (parsed : option JsonValue)
    : option (ProjectFile * list Athlete * list Annotation) :=
  match parsed with
  | Some (Object obj) =>
      match f_roster obj, f_timestamps obj with
      | IsArray ros, IsArray tss => Some (obj, ros, tss)
      | _, _ => None
      end
  | _ => None
  end.

(** States and inputs used in the examples. *)
Definition noon : Date := mkDate 2026 10 1 12 0 0.

Definition a_point : Point := mkPoint (1 # 2) (1 # 2).

Definition a_pointer_event : PointerEvent :=
  mkPointerEvent a_point "#00E5FF" (Num 4) noon 123 0.

(** A player is present, drawing is enabled and the only annotation is
    selected. *)
Definition drawing_state : State :=
  mkState (Num 1) EmptyString EmptyString [] [0%nat]
    [mkAnnotation (Num 7) 3 "New coaching point" EmptyString (Some []) (Some [])]
    true true None (Some (Num 7)) true [] None None EmptyString EmptyString.

(** A player is present; nothing else has happened yet. *)
Definition player_state : State :=
  mkState (Num 1) EmptyString EmptyString [] [] [] true true None None
    false [] None None EmptyString EmptyString.

(** A project file with one athlete and no annotation. *)
Definition a_project_file : JsonValue :=
  Object (mkProjectFile (Some (Num 9)) (Some "https://youtu.be/abc123") (Some "abc123")
            (IsArray [mkAthlete (Num 5) "Ann" "Lee" EmptyString EmptyString EmptyString])
            (IsArray [])).

(** A roster file whose only row has an id that is not a number. *)
Definition csv_with_bad_id : string :=
  "id,first,last" +:+ String Csv.LF "TBD,Ann,Lee".

(** A roster file with two rows whose id cells are different texts, neither
    of them a number. *)
Definition csv_with_bad_ids : string :=
  "id,first,last" +:+ String Csv.LF ("TBD,Ann,Lee" +:+ String Csv.LF "N/A,Bob,Ray").

Definition a_clock (i : nat) : Date * Z := (noon, 123).

Definition ann_NaN : Athlete :=
  mkAthlete NaN "Ann" "Lee" EmptyString EmptyString EmptyString.

(** The roster file is imported, a timestamp is added (and thereby selected)
    and the imported athlete is tagged to it. *)
Definition tagged_after_import : Outcome :=
  and_then
    (and_then (importRosterCSV (Some csv_with_bad_id) a_clock player_state)
       (addTimestampAtCurrent 3 noon 123))
    (tagAthlete ann_NaN).

(** The header names under which [importRosterCSV] looks for the first and
    the last name. *)
Definition name_headers : list string :=
  ["first"; "firstname"; "name"; "last"; "lastname"; "surname"].

(** The trimmed text of a cell, empty when the row has no such column. *)
Definition cell (r : gmap string string) (h : string) : string :=
  trim (default EmptyString (r !! h)).

(** Text that a CSV export followed by an import gives back: it is trimmed
    and holds no line break. *)
Definition plain_text (s : string) : bool :=
  String.eqb (trim s) s && negb (has_char LF s) && negb (has_char CR s).

Definition plain_athlete (a : Athlete) : bool :=
  plain_text (first a) && plain_text (last a) && plain_text (position a) &&
  plain_text (jersey a) && plain_text (team a).

(** An id that [Number] reads back from its text: [NaN], or an integer that
    a double holds exactly. *)
Definition exact_id (n : jsnum) : bool :=
  match n with
  | Num z => (- MAX_SAFE_INTEGER <=? z) && (z <=? MAX_SAFE_INTEGER)
  | NaN => true
  end.

(** A roster with one athlete whose first name holds a line break, and one
    whose first name starts with a space. *)
Definition two_line_name : State :=
  set_roster
    [mkAthlete (Num 5) ("Ann" +:+ String LF "Marie") "Lee" EmptyString EmptyString
       EmptyString]
    player_state.

Definition padded_name : State :=
  set_roster
    [mkAthlete (Num 5) " Ann" "Lee" EmptyString EmptyString EmptyString]
    player_state.

(** The cells of the line that [exportRosterCSV] writes for an athlete, and
    the row object that [fromCSV] builds from them. *)
Definition fields (a : Athlete) : list string :=
  [String_ (a_id a); first a; last a; position a; jersey a; team a].

Definition row_of (a : Athlete) : gmap string string :=
  fill_row roster_headers 0 (fields a) ∅.

(** The characters of the text of an id. *)
Definition id_char (c : ascii) : bool := is_digit c || has_char c "-Na".

(** A roster whose names need quoting in the export: a comma, and a nickname
    in double quotes. *)
Definition quoted_names : State :=
  set_roster
    [mkAthlete (Num 5) "Ann" "Lee, Jr" "WR" "12" "Blue";
     mkAthlete NaN ("Bo " +:+ String dquote ("Ace" +:+ String dquote EmptyString))
       "Ray" "QB" "7" "Blue"]
    player_state.

(** Putting an imported record into a roster by id: the record takes the
    place of the first entry with its id, or goes to the end. *)
Fixpoint upsert (b : Athlete) (l : list Athlete) : list Athlete :=
  match l with
  | [] => [b]
  | a :: l' =>
      if same_value_zero (a_id a) (a_id b) then b :: l' else a :: upsert b l'
  end.

(** A roster file with three rows: one with the id of a roster entry, one
    without an id, and one without a name. *)
Definition three_rows : string :=
  "id,first,last" +:+ String LF ("6,Rob,Roy" +:+ String LF (",New,Guy" +:+ String LF "7,,")).

Definition two_athletes : State :=
  set_roster
    [mkAthlete (Num 5) "Ann" "Lee" "WR" "12" "Blue";
     mkAthlete (Num 6) "Bob" "Ray" "QB" "7" "Blue"]
    player_state.

(** The text after a field: the end of the line, or the comma before the
    next field. *)
Definition field_end (rest : string) : Prop :=
  match rest with
  | EmptyString => True
  | String c _ => c = comma
  end.

(** Events that the embedding represents in the given state: the clock and
    the random generator return what they can return, every id text is
    decided by [Number_], and the handlers of tags close over objects. *)
Definition regular (ev : Event) (s : State) : Prop :=
  match ev with
  | AddAthlete _ _ _ _ _ now rnd
  | AddTimestamp _ now rnd
  | NewProject now rnd
  | ImportProject _ now rnd => valid_date now = true /\ 0 <= rnd < 1000
  | PointerDown e => valid_date (e_now e) = true /\ 0 <= e_rnd e < 1000
  | RemoveAthlete d => is_Some (Number_ d)
  | ImportRosterCSV (Some text) clock =>
      is_Some (map_rows (rows (fromCSV text)) 0 clock)
  | AddTag (Some r) _ => is_Some (store s !! r)
  | RemoveTag r _ => is_Some (store s !! r)
  | _ => True
  end.


(** ** Further functions of the program *)

Module Text.

(** [escapeHtml(s)]: each of the five characters is replaced by its entity. *)
Fixpoint escapeHtml (s : string) : string :=
  match s with
  | EmptyString => EmptyString
  | String c r =>
      (if Ascii.eqb c "&" then "&amp;"
       else if Ascii.eqb c "<" then "&lt;"
       else if Ascii.eqb c ">" then "&gt;"
       else if Ascii.eqb c dquote then "&quot;"
       else if Ascii.eqb c "'" then "&#39;"
       else String c EmptyString) +:+ escapeHtml r
  end.

(** [toLowerCase] on a code unit below 256: the letters A to Z and the
    capital letters of Latin-1 (192 to 222, without the multiplication sign
    215) move up by 32. *)
Definition lower_char (c : ascii) : ascii :=
  let n := nat_of_ascii c in
  if ((65 <=? n)%nat && (n <=? 90)%nat) ||
     ((192 <=? n)%nat && (n <=? 222)%nat && negb (n =? 215)%nat)
  then ascii_of_nat (n + 32) else c.

Fixpoint toLowerCase (s : string) : string :=
  match s with
  | EmptyString => EmptyString
  | String c r => String (lower_char c) (toLowerCase r)
  end.

(** [norm(s)] for a string. *)
Definition norm (s : string) : string := toLowerCase (trim s).

(** [norm(n)] for a number: a falsy number is replaced by the empty string
    before it is printed. *)
Definition norm_num (n : jsnum) : string :=
  if truthy_num n then toLowerCase (trim (String_ n)) else EmptyString.

(** [rosterSearchIndex(a)] *)
Definition rosterSearchIndex (a : Athlete) : string :=
  String.concat " "
    [norm_num (a_id a); norm (first a); norm (last a); norm (position a);
     norm (jersey a); norm (team a)].

(** The filter of [renderRosterTable] and of [renderAthleteSearchResults]:
    [!q || rosterSearchIndex(a).includes(q)], where [q] is [norm] of the
    value of the search box. *)
Definition rosterMatches (search : string) (a : Athlete) : bool :=
  let q := norm search in
  negb (truthy_str q) || includes q (rosterSearchIndex a).

End Text.

Import Text.

(** The rows that [renderRosterTable] shows: the roster sorted and then
    filtered by the search box.  [sort] stands for [Array.prototype.sort]
    with the comparator of the function, which orders with [localeCompare];
    all that is used of it is that sorting rearranges the array. *)
Definition rosterRows (sort : list Athlete -> list Athlete) (search : string)
    (s : State) : list Athlete :=
  List.filter (rosterMatches search) (sort (roster s)).

(** The rows that [renderAthleteSearchResults] shows: none for an empty
    roster, and otherwise the first 30 of the sorted and filtered roster,
    [.slice(0, 30)]. *)
Definition athleteRows (sort : list Athlete -> list Athlete) (search : string)
    (s : State) : list Athlete :=
  match roster s with
  | [] => []
  | _ => take 30 (List.filter (rosterMatches search) (sort (roster s)))
  end.

#[global] Instance Athlete_eq_dec : EqDecision Athlete.
Proof. solve_decision. Defined.

(** ** The player becoming ready *)

Definition set_playerReady (v : bool) (s : State) : State :=
  mkState (projectId s) (youtubeUrl s) (youtubeId s) (roster s) (timestamps s)
    (store s) (hasPlayer s) v (pendingVideoId s) (selectedTsId s)
    (drawEnabled s) (drawingsBuf s) (activeStroke s) (localStorage s)
    (status s) (rosterStatus s).

(** The [onReady] callback of the player.  The second component is the
    argument of [player.cueVideoById], if the callback calls it. *)
Definition onReady (s : State) : State * option string :=
  let s := set_playerReady true s in
  let s := setStatus "Player ready." s in
  if truthy_str (default EmptyString (pendingVideoId s))
  then (set_pendingVideoId None s, pendingVideoId s)
  else if truthy_str (youtubeId s) then (s, Some (youtubeId s))
  else (s, None).

(** The argument of [player.cueVideoById] in the click handler of the Load
    button, if the handler calls it. *)
Definition load_cue (u : option URL) (s : State) : option string :=
  let id := parseYouTubeId u in
  if negb (truthy_str id) then None
  else if negb (playerReady s) || negb (hasPlayer s) then None
  else Some id.

(** ** Auxiliary definitions of the further statements *)

(** Every reference of [state.timestamps] points to an object. *)
Definition valid_refs (s : State) : Prop :=
  Forall (fun r => (r < length (store s))%nat) (timestamps s).

(** The records that the import keeps from a roster file, if the embedding
    represents all their ids. *)
Definition imported_rows (text : string) (clock : nat -> Date * Z)
    : option (list Athlete) :=
  map_rows (rows (fromCSV text)) 0 clock.

(** LF line ends replaced by CR LF. *)
Fixpoint lf_to_crlf (s : string) : string :=
  match s with
  | EmptyString => EmptyString
  | String c r =>
      if Ascii.eqb c LF then String CR (String LF (lf_to_crlf r))
      else String c (lf_to_crlf r)
  end.

(** The events that are roster operations, and those that replace or edit
    the list of annotations. *)
Definition roster_event (ev : Event) : bool :=
  match ev with
  | AddAthlete _ _ _ _ _ _ _ | RemoveAthlete _ | ClearRoster
  | ImportRosterCSV _ _ | ImportProject _ _ _ => true
  | _ => false
  end.

Definition video_event (ev : Event) : bool :=
  match ev with
  | LoadVideo _ _ | ImportProject _ _ _ => true
  | _ => false
  end.

(** A string that does not start with white space. *)
Definition no_lead (s : string) : Prop :=
  match s with
  | EmptyString => True
  | String c _ => is_ws c = false
  end.

(** The characters that [escapeHtml] replaces. *)
Definition html_special (c : ascii) : bool := has_char c "&<>'" || Ascii.eqb c dquote.

(** LF line ends replaced by a lone CR. *)
Fixpoint lf_to_cr (s : string) : string :=
  match s with
  | EmptyString => EmptyString
  | String c r => String (if Ascii.eqb c LF then CR else c) (lf_to_cr r)
  end.

(** A record that a CSV export followed by an import gives back. *)
Definition round_trips (a : Athlete) : Prop :=
  plain_athlete a = true /\ exact_id (a_id a) = true.

(** The record that a roster entry with id [k] and value [v] holds after
    the rows [l] were set in order: the last row with that id, if any. *)
Definition overridden (l : list Athlete) (k : jsnum) (v : Athlete) : Athlete :=
  foldl (fun acc b => if same_value_zero k (a_id b) then b else acc) v l.

(** A roster file in which every row has an id. *)
Definition rows_with_ids : string :=
  "id,first,last" +:+ String LF ("6,Rob,Roy" +:+ String LF "9,Zed,Zee").

(** An annotation without its tag list, and without its text. *)
Definition without_tags (t : Annotation) : jsnum * Z * string * string * option (list Stroke) :=
  (t_id t, time t, title t, description t, drawings t).

Definition without_text (t : Annotation)
    : jsnum * Z * option (list jsnum) * option (list Stroke) :=
  (t_id t, time t, taggedAthleteIds t, drawings t).

(** The events that only concern the roster. *)
Definition pure_roster_event (ev : Event) : bool :=
  match ev with
  | AddAthlete _ _ _ _ _ _ _ | RemoveAthlete _ | ClearRoster
  | ImportRosterCSV _ _ => true
  | _ => false
  end.

(** A state with two annotations, the second of which is selected. *)
Definition two_annotations : State :=
  mkState (Num 1) EmptyString EmptyString
    [mkAthlete (Num 5) "Ann" "Lee" "WR" "12" "Blue"] [0%nat; 1%nat]
    [mkAnnotation (Num 7) 3 "Kick-off" EmptyString (Some [Num 5]) (Some []);
     mkAnnotation (Num 8) 9 "Corner" EmptyString (Some []) (Some [])]
    true true None (Some (Num 8)) true [] None None EmptyString EmptyString.

Definition without_drawings (t : Annotation)
    : jsnum * Z * string * string * option (list jsnum) :=
  (t_id t, time t, title t, description t, taggedAthleteIds t).

(** Two annotations, the selected one with one committed stroke that is also
    in the drawing buffer. *)
Definition a_stroke : Stroke :=
  mkStroke (Num 11) "pen" "#00E5FF" (Num 4) [a_point] 1700000000000.

Definition drawn_annotations : State :=
  mkState (Num 1) EmptyString EmptyString
    [mkAthlete (Num 5) "Ann" "Lee" "WR" "12" "Blue"] [0%nat; 1%nat]
    [mkAnnotation (Num 7) 3 "Kick-off" EmptyString (Some [Num 5]) (Some []);
     mkAnnotation (Num 8) 9 "Corner" EmptyString (Some []) (Some [a_stroke])]
    true true None (Some (Num 8)) true [a_stroke] None None EmptyString EmptyString.

(** * Properties *)

(** ** Strings and numbers *)

#[local] Arguments String.append !s1 s2 : simpl nomatch.

Section Strings.

Lemma append_nil_r (s : string) : s +:+ EmptyString = s.
Proof. induction s as [|c s IH]; simpl; [reflexivity | now rewrite IH]. Qed.

Lemma append_assoc (a b c : string) : (a +:+ b) +:+ c = a +:+ (b +:+ c).
Proof. induction a as [|x a IH]; simpl; [reflexivity | now rewrite IH]. Qed.

Lemma all_chars_app (p : ascii -> bool) (a b : string) :
  all_chars p (a +:+ b) = all_chars p a && all_chars p b.
Proof.
  induction a as [|x a IH]; simpl; [reflexivity|].
  rewrite IH. now rewrite andb_assoc.
Qed.

Lemma has_char_app (c : ascii) (a b : string) :
  has_char c (a +:+ b) = has_char c a || has_char c b.
Proof.
  induction a as [|x a IH]; simpl; [reflexivity|].
  rewrite IH. now rewrite orb_assoc.
Qed.

Lemma dec_val_app (a b : string) (acc : Z) :
  dec_val acc (a +:+ b) = dec_val (dec_val acc a) b.
Proof.
  revert acc. induction a as [|x a IH]; intros acc; simpl; [reflexivity|].
  apply IH.
Qed.

Lemma dec_digits_acc (fuel : nat) (n : Z) (acc : string) :
  dec_digits fuel n acc = dec_digits fuel n EmptyString +:+ acc.
Proof.
  revert n acc. induction fuel as [|f IH]; intros n acc; simpl.
  - reflexivity.
  - destruct (n <? 10); [reflexivity|].
    rewrite IH. rewrite (IH _ (String _ EmptyString)).
    now rewrite append_assoc.
Qed.

Lemma digit_char_val (d : Z) : 0 <= d < 10 -> digit_val (digit_char d) = d.
Proof.
  intros H. unfold digit_val, digit_char.
  rewrite nat_ascii_embedding by lia. lia.
Qed.

Lemma digit_char_is_digit (d : Z) : 0 <= d < 10 -> is_digit (digit_char d) = true.
Proof.
  intros H. unfold is_digit, digit_char.
  rewrite nat_ascii_embedding by lia.
  apply andb_true_iff. split; apply Nat.leb_le; lia.
Qed.

Lemma dec_digits_val (fuel : nat) (n : Z) :
  0 <= n < 2 ^ Z.of_nat (S fuel) ->
  dec_val 0 (dec_digits fuel n EmptyString) = n.
Proof.
  revert n. induction fuel as [|f IH]; intros n Hn.
  - simpl. change (2 ^ Z.of_nat 1) with 2 in Hn.
    rewrite digit_char_val by (apply Z.mod_pos_bound; lia).
    rewrite Z.mod_small by lia. lia.
  - simpl dec_digits. destruct (Z.ltb_spec n 10) as [Hlt|Hge].
    + simpl. rewrite digit_char_val by (apply Z.mod_pos_bound; lia).
      rewrite Z.mod_small by lia. lia.
    + rewrite dec_digits_acc, dec_val_app. simpl.
      rewrite digit_char_val by (apply Z.mod_pos_bound; lia).
      rewrite IH.
      * pose proof (Z.div_mod n 10). lia.
      * assert (Hp : 2 ^ Z.of_nat (S (S f)) = 2 * 2 ^ Z.of_nat (S f)).
        { rewrite (Nat2Z.inj_succ (S f)). rewrite Z.pow_succ_r by lia. reflexivity. }
        split; [apply Z.div_pos; lia|].
        apply Z.div_lt_upper_bound; lia.
Qed.

Lemma dec_digits_all_digits (fuel : nat) (n : Z) :
  all_chars is_digit (dec_digits fuel n EmptyString) = true.
Proof.
  assert (Hd : forall m, is_digit (digit_char (m mod 10)) = true)
    by (intros m; apply digit_char_is_digit, Z.mod_pos_bound; lia).
  revert n. induction fuel as [|f IH]; intros n; cbn [dec_digits].
  - cbn [all_chars]. now rewrite Hd.
  - destruct (n <? 10).
    + cbn [all_chars]. now rewrite Hd.
    + rewrite dec_digits_acc, all_chars_app, IH. cbn [all_chars]. now rewrite Hd.
Qed.

Lemma dec_digits_nonempty (fuel : nat) (n : Z) (acc : string) :
  is_empty (dec_digits fuel n acc) = false.
Proof.
  revert n acc. induction fuel as [|f IH]; intros n acc; simpl; [reflexivity|].
  destruct (n <? 10); [reflexivity | apply IH].
Qed.

Lemma dec_string_val (n : Z) : 0 <= n -> dec_val 0 (dec_string n) = n.
Proof.
  intros Hn. unfold dec_string. apply dec_digits_val.
  split; [assumption|].
  destruct (Z.eq_dec n 0) as [->|Hne]; [reflexivity|].
  rewrite Nat2Z.inj_succ, Z2Nat.id by apply Z.log2_nonneg.
  apply Z.log2_spec. lia.
Qed.

Lemma dec_string_all_digits (n : Z) : all_chars is_digit (dec_string n) = true.
Proof. apply dec_digits_all_digits. Qed.

Lemma dec_string_nonempty (n : Z) : is_empty (dec_string n) = false.
Proof. apply dec_digits_nonempty. Qed.

(** A digit is neither white space nor a sign. *)
Lemma digit_not_ws (c : ascii) : is_digit c = true -> is_ws c = false.
Proof.
  unfold is_digit, is_ws. intros H.
  apply andb_true_iff in H as [H1 H2].
  apply Nat.leb_le in H1. apply Nat.leb_le in H2.
  repeat (apply orb_false_iff; split).
  - apply andb_false_iff. right. apply Nat.leb_gt. lia.
  - apply Nat.eqb_neq. lia.
  - apply Nat.eqb_neq. lia.
Qed.

Lemma trimEnd_no_ws (s : string) :
  all_chars (fun c => negb (is_ws c)) s = true -> trimEnd s = s.
Proof.
  induction s as [|c s IH]; simpl; [reflexivity|].
  intros H. apply andb_true_iff in H as [Hc Hs].
  rewrite (IH Hs). apply negb_true_iff in Hc. now rewrite Hc.
Qed.

Lemma trim_no_ws (s : string) :
  all_chars (fun c => negb (is_ws c)) s = true -> trim s = s.
Proof.
  intros H. unfold trim.
  assert (Hs : trimStart s = s).
  { destruct s as [|c s]; simpl; [reflexivity|].
    simpl in H. apply andb_true_iff in H as [Hc _].
    apply negb_true_iff in Hc. now rewrite Hc. }
  rewrite Hs. now apply trimEnd_no_ws.
Qed.

Lemma all_chars_impl (p q : ascii -> bool) (s : string) :
  (forall c, p c = true -> q c = true) ->
  all_chars p s = true -> all_chars q s = true.
Proof.
  intros Hpq. induction s as [|c s IH]; simpl; [reflexivity|].
  intros H. apply andb_true_iff in H as [Hc Hs].
  rewrite (Hpq _ Hc), (IH Hs). reflexivity.
Qed.

Lemma digits_no_ws (s : string) :
  all_chars is_digit s = true -> all_chars (fun c => negb (is_ws c)) s = true.
Proof.
  apply all_chars_impl. intros c Hc. now rewrite (digit_not_ws c Hc).
Qed.

(** [Number] of a non-empty string of digits whose value a double holds. *)
Lemma Number_digits (s : string) :
  is_empty s = false -> all_chars is_digit s = true ->
  dec_val 0 s <= MAX_SAFE_INTEGER ->
  Number_ s = Some (Num (dec_val 0 s)).
Proof.
  intros Hne Hd Hmax. unfold Number_.
  rewrite (trim_no_ws s (digits_no_ws s Hd)). rewrite Hne.
  assert (Hdi : dec_int s = Some (false, dec_val 0 s)).
  { destruct s as [|c r]; [discriminate|].
    assert (Hc : is_digit c = true) by (simpl in Hd; now apply andb_true_iff in Hd).
    unfold dec_int. rewrite Hd. simpl.
    destruct (Ascii.eqb_spec c "+"%char) as [->|H1]; [discriminate|].
    destruct (Ascii.eqb_spec c "-"%char) as [->|H2]; [discriminate|].
    destruct c as [[] [] [] [] [] [] [] []]; try reflexivity; contradiction. }
  rewrite Hdi.
  destruct (Z.ltb_spec MAX_SAFE_INTEGER (dec_val 0 s)); [lia | reflexivity].
Qed.

(** Printing an identifier and reading it back gives the identifier. *)
Lemma Number_String (n : jsnum) :
  match n with
  | Num z => - MAX_SAFE_INTEGER <= z <= MAX_SAFE_INTEGER
  | NaN => True
  end ->
  Number_ (String_ n) = Some n.
Proof.
  destruct n as [z|]; [|intros _; vm_compute; reflexivity].
  intros Hz. simpl. unfold String_Z.
  destruct (Z.ltb_spec z 0) as [Hneg|Hpos].
  - unfold Number_.
    assert (Ht : trim (String "-"%char (dec_string (- z))) = String "-"%char (dec_string (- z))).
    { apply trim_no_ws. simpl. apply digits_no_ws, dec_string_all_digits. }
    rewrite Ht. simpl is_empty. cbv iota.
    unfold dec_int. rewrite dec_string_nonempty, dec_string_all_digits. simpl.
    rewrite dec_string_val by lia.
    destruct (Z.ltb_spec MAX_SAFE_INTEGER (- z)); [lia|].
    destruct (Z.eqb_spec (- z) 0); [lia|].
    now rewrite Z.opp_involutive.
  - rewrite Number_digits.
    + now rewrite dec_string_val.
    + apply dec_string_nonempty.
    + apply dec_string_all_digits.
    + rewrite dec_string_val; lia.
Qed.

End Strings.

(** ** Generated identifiers *)

Section Uid.

Lemma pad2_two_digits (n : Z) : 0 <= n < 100 -> pad n 2 = two_digits n.
Proof.
  intros Hn.
  assert (Hall : forallb (fun k => String.eqb (pad (Z.of_nat k) 2) (two_digits (Z.of_nat k)))
                   (seq 0 100) = true) by (vm_compute; reflexivity).
  rewrite forallb_forall in Hall.
  specialize (Hall (Z.to_nat n)).
  rewrite Z2Nat.id in Hall by lia.
  apply String.eqb_eq, Hall, in_seq. lia.
Qed.

Lemma pad3_three_digits (n : Z) :
  0 <= n < 1000 -> padStart0 3 (String_Z n) = three_digits n.
Proof.
  intros Hn.
  assert (Hall : forallb (fun k => String.eqb (padStart0 3 (String_Z (Z.of_nat k)))
                                     (three_digits (Z.of_nat k)))
                   (seq 0 1000) = true) by (vm_compute; reflexivity).
  rewrite forallb_forall in Hall.
  specialize (Hall (Z.to_nat n)).
  rewrite Z2Nat.id in Hall by lia.
  apply String.eqb_eq, Hall, in_seq. lia.
Qed.

Lemma two_digits_val (acc n : Z) :
  0 <= n < 100 -> dec_val acc (two_digits n) = acc * 100 + n.
Proof.
  intros Hn. unfold two_digits. cbn [dec_val].
  rewrite !digit_char_val.
  - pose proof (Z.div_mod n 10). lia.
  - apply Z.mod_pos_bound. lia.
  - split; [apply Z.div_pos; lia | apply Z.div_lt_upper_bound; lia].
Qed.

Lemma three_digits_val (acc n : Z) :
  0 <= n < 1000 -> dec_val acc (three_digits n) = acc * 1000 + n.
Proof.
  intros Hn. unfold three_digits. cbn [dec_val].
  rewrite two_digits_val by (apply Z.mod_pos_bound; lia).
  rewrite digit_char_val.
  - pose proof (Z.div_mod n 100). lia.
  - split; [apply Z.div_pos; lia | apply Z.div_lt_upper_bound; lia].
Qed.

Lemma two_digits_all_digits (n : Z) :
  0 <= n < 100 -> all_chars is_digit (two_digits n) = true.
Proof.
  intros Hn. unfold two_digits. cbn [all_chars].
  rewrite !digit_char_is_digit; [reflexivity | |].
  - apply Z.mod_pos_bound. lia.
  - split; [apply Z.div_pos; lia | apply Z.div_lt_upper_bound; lia].
Qed.

Lemma three_digits_all_digits (n : Z) :
  0 <= n < 1000 -> all_chars is_digit (three_digits n) = true.
Proof.
  intros Hn. unfold three_digits. cbn [all_chars].
  rewrite two_digits_all_digits by (apply Z.mod_pos_bound; lia).
  rewrite digit_char_is_digit; [reflexivity|].
  split; [apply Z.div_pos; lia | apply Z.div_lt_upper_bound; lia].
Qed.

Lemma valid_date_bounds (d : Date) :
  valid_date d = true ->
  0 <= Z.rem (getFullYear d) 100 < 100 /\ 0 <= getMonth d <= 11 /\
  1 <= getDate d <= 31 /\ 0 <= getHours d <= 23 /\
  0 <= getMinutes d <= 59 /\ 0 <= getSeconds d <= 59.
Proof.
  unfold valid_date. rewrite !andb_true_iff, !Z.leb_le.
  intros H. pose proof (Z.rem_bound_pos (getFullYear d) 100). lia.
Qed.

(** With a clock reading that [Date] can return and a draw below 1000,
    [uidNumeric] returns the number of at most fifteen digits. *)
Lemma uidNumeric_value (d : Date) (rnd : Z) :
  valid_date d = true -> 0 <= rnd < 1000 ->
  uidNumeric d rnd = Some (Num (uid_value d rnd)).
Proof.
  intros Hd Hr. apply valid_date_bounds in Hd.
  unfold uidNumeric, uid_text.
  rewrite !pad2_two_digits by lia. rewrite pad3_three_digits by lia.
  set (t := _ +:+ three_digits rnd).
  assert (Hv : dec_val 0 t = uid_value d rnd).
  { unfold t, uid_value. rewrite !dec_val_app.
    rewrite three_digits_val by lia.
    rewrite !two_digits_val by lia. lia. }
  rewrite <- Hv. apply Number_digits.
  - reflexivity.
  - unfold t. rewrite !all_chars_app.
    rewrite !two_digits_all_digits by lia.
    rewrite three_digits_all_digits by lia. reflexivity.
  - rewrite Hv. unfold uid_value, MAX_SAFE_INTEGER. lia.
Qed.

Lemma radix_inj (b a a' c c' : Z) :
  0 <= c < b -> 0 <= c' < b -> a * b + c = a' * b + c' -> a = a' /\ c = c'.
Proof.
  intros Hc Hc' Heq.
  assert (Ha : a = a') by nia.
  subst a'. split; [reflexivity | lia].
Qed.

(** Different readings give different identifiers. *)
Lemma uid_value_inj (d d' : Date) (rnd rnd' : Z) :
  valid_date d = true -> 0 <= rnd < 1000 ->
  valid_date d' = true -> 0 <= rnd' < 1000 ->
  uid_value d rnd = uid_value d' rnd' ->
  uid_reading d rnd = uid_reading d' rnd'.
Proof.
  intros Hd Hr Hd' Hr' Heq.
  apply valid_date_bounds in Hd. apply valid_date_bounds in Hd'.
  unfold uid_value in Heq. unfold uid_reading.
  apply radix_inj in Heq as [Heq ->]; [|lia|lia].
  apply radix_inj in Heq as [Heq ->]; [|lia|lia].
  apply radix_inj in Heq as [Heq ->]; [|lia|lia].
  apply radix_inj in Heq as [Heq ->]; [|lia|lia].
  apply radix_inj in Heq as [Heq ->]; [|lia|lia].
  apply radix_inj in Heq as [-> Heq]; [|lia|lia].
  assert (getMonth d = getMonth d') as -> by lia.
  reflexivity.
Qed.

End Uid.

(** ** The store of annotation objects *)

Section Store.

Lemma find_ts_Some (id : option jsnum) (s : State) (r : ref) :
  find_ts id s = Some r ->
  r ∈ timestamps s /\
  exists n t, id = Some n /\ store s !! r = Some t /\ strict_eq (t_id t) n = true.
Proof.
  unfold find_ts. destruct id as [n|]; [|discriminate].
  intros H. apply find_some in H as [Hin Hp].
  split; [now apply list_elem_of_In|].
  destruct (store s !! r) as [t|] eqn:Ht; [|discriminate].
  now exists n, t.
Qed.

(** [selectTimestamp] touches the selection and the drawing buffer only. *)
Lemma selectTimestamp_frame (id : option jsnum) (s : State) :
  document (selectTimestamp id s) = document s /\
  localStorage (selectTimestamp id s) = localStorage s /\
  store (selectTimestamp id s) = store s /\
  timestamps (selectTimestamp id s) = timestamps s /\
  roster (selectTimestamp id s) = roster s.
Proof.
  unfold selectTimestamp.
  destruct (find_ts id (set_selectedTsId id s)) as [r|]; [|by repeat split].
  destruct (store (set_selectedTsId id s) !! r); by repeat split.
Qed.

(** Objects that [state.timestamps] does not refer to are not part of the
    document. *)
Lemma annotations_alter_other (f : Annotation -> Annotation) (r : ref)
    (st : list Annotation) (refs : list ref) :
  r ∉ refs ->
  omap (fun i => alter f r st !! i) refs = omap (fun i => st !! i) refs.
Proof.
  induction refs as [|i refs IH]; intros Hr; [reflexivity|].
  apply not_elem_of_cons in Hr as [Hne Hr].
  cbn [omap list_omap]. change (list_omap ?g ?l) with (omap g l).
  rewrite IH by assumption.
  rewrite list_lookup_alter_ne by congruence. reflexivity.
Qed.

(** Allocating the imported annotations at the end of the store and
    referring to them in order gives back the imported list. *)
Lemma annotations_fresh (st tss : list Annotation) :
  omap (fun i => (st ++ tss)%list !! i) (seq (length st) (length tss)) = tss.
Proof.
  revert st. induction tss as [|t tss IH]; intros st; [reflexivity|].
  cbn [length seq omap list_omap]. change (list_omap ?g ?l) with (omap g l).
  rewrite lookup_app_r by lia. rewrite Nat.sub_diag. cbn [lookup list_lookup].
  f_equal.
  specialize (IH (st ++ [t])%list).
  rewrite <- app_assoc in IH. cbn [app] in IH.
  rewrite length_app in IH. cbn [length] in IH.
  rewrite Nat.add_1_r in IH. exact IH.
Qed.

End Store.

(** ** Write-through persistence *)

Section Persistence.

Lemma saveState_persisted (s : State) : persisted (saveState s).
Proof. reflexivity. Qed.

(** C2.  Every operation that mutates the project document (athlete add,
    remove and clear, roster CSV import, timestamp add, edit and delete, tag
    add and remove, stroke commit, clear drawings, video load, new project,
    project import) has written the whole document to local storage when it
    returns: either the stored copy equals the in-memory document, or the
    handler has left both the document and the stored copy as they were
    (a guard refused the action, or the handler is a pointer-down or
    pointer-move, which only touch the stroke in progress).  So once the
    stored copy equals the document, it does so after every completed
    operation. *)
Theorem write_through (ev : Event) (s s' : State) :
  handle ev s = Done s' ->
  (persisted s' \/ (document s' = document s /\ localStorage s' = localStorage s)) /\
  (persisted s -> persisted s').
Proof.
  intros Hdone.
  assert (H : persisted s' \/
              (document s' = document s /\ localStorage s' = localStorage s));
    [|split; [exact H|];
      intros Hs; destruct H as [H|[Hd Hl]]; [exact H|];
      unfold persisted in *; now rewrite Hd, Hl].
  revert Hdone. unfold persisted.
  destruct ev; cbn [handle].
  - unfold addAthlete.
    destruct (_ || _); [intros [= <-]; by right|].
    destruct (uidNumeric now rnd); [|discriminate].
    intros [= <-]. by left.
  - unfold rosterDelete_onclick.
    destruct (Number_ data_del0); [|discriminate].
    intros [= <-]. by left.
  - unfold clearRoster. intros [= <-]. by left.
  - unfold importRosterCSV.
    destruct file as [text|]; [|intros [= <-]; by right].
    destruct (map_rows _ _ _) as [mapped|]; [|discriminate].
    intros [= <-].
    destruct (selected _); [|by left].
    left.
    match goal with |- context [selectTimestamp ?i ?x] =>
      destruct (selectTimestamp_frame i x) as (Hd & Hl & _) end.
    rewrite Hd, Hl. reflexivity.
  - unfold addTimestampAtCurrent.
    destruct (negb (hasPlayer s)); [intros [= <-]; by right|].
    destruct (uidNumeric now rnd) as [id|]; [|discriminate].
    intros [= <-]. left.
    match goal with |- context [selectTimestamp ?i ?x] =>
      destruct (selectTimestamp_frame i x) as (Hd & Hl & _) end.
    rewrite Hd, Hl. reflexivity.
  - unfold saveTimestampEdits.
    destruct (negb (selected s)); [intros [= <-]; by right|].
    destruct (find_ts _ _); intros [= <-]; [by left | by right].
  - unfold deleteTimestamp.
    destruct (selectedTsId s) as [id|]; [|intros [= <-]; by right].
    destruct (negb (truthy_num id)); intros [= <-]; [by right | by left].
  - unfold tagButton_onclick.
    destruct ts as [r|]; [|discriminate].
    destruct (store s !! r); [|discriminate].
    intros [= <-]. by left.
  - unfold pill_onclick.
    destruct (store s !! ts); [|discriminate].
    intros [= <-]. by left.
  - unfold pointerDown.
    destruct (negb (drawEnabled s)); [intros [= <-]; by right|].
    destruct (negb (selected s)); [intros [= <-]; by right|].
    destruct (uidNumeric _ _); [|discriminate].
    intros [= <-]. by right.
  - unfold pointerMove.
    destruct (negb (drawEnabled s)); [intros [= <-]; by right|].
    destruct (activeStroke s); intros [= <-]; by right.
  - unfold pointerUp.
    destruct (negb (drawEnabled s)); [intros [= <-]; by right|].
    destruct (activeStroke s); [|intros [= <-]; by right].
    destruct (find_ts _ _) as [r|]; [|intros [= <-]; by right].
    destruct (store s !! r); [|discriminate].
    intros [= <-]. by left.
  - unfold clearDraw_onclick.
    destruct (negb (selected s)); [intros [= <-]; by right|].
    destruct (find_ts _ _); intros [= <-]; [by left | by right].
  - unfold load_onclick.
    destruct (negb (truthy_str (parseYouTubeId u))); [intros [= <-]; by right|].
    destruct (_ || _); intros [= <-]; by left.
  - unfold newProject.
    destruct (uidNumeric now rnd); [|discriminate].
    intros [= <-]. by left.
  - unfold importProject, import_failed.
    destruct file as [[[|obj]|]|]; try (intros [= <-]; by right).
    destruct (f_roster obj) as [| |ros]; try (intros [= <-]; by right).
    destruct (f_timestamps obj) as [| |tss]; try (intros [= <-]; by right).
    destruct (match f_projectId obj with Some id => Some id | None => _ end);
      [|discriminate].
    intros [= <-]. left.
    destruct (truthy_str _); [destruct (_ && _)|]; reflexivity.
Qed.

(** A handler whose inputs the embedding represents returns or throws. *)
Lemma handle_completes (ev : Event) (s : State) :
  regular ev s ->
  exists s', handle ev s = Done s' \/ handle ev s = Threw TypeError s'.
Proof.
  destruct ev; cbn [regular handle]; intros Hreg.
  - destruct Hreg as [Hd Hr]. unfold addAthlete.
    rewrite (uidNumeric_value _ _ Hd Hr). destruct (_ || _); eauto.
  - destruct Hreg as [n Hn]. unfold rosterDelete_onclick. rewrite Hn. eauto.
  - unfold clearRoster. eauto.
  - unfold importRosterCSV. destruct file as [text|]; [|eauto].
    destruct Hreg as [mapped ->]. eauto.
  - destruct Hreg as [Hd Hr]. unfold addTimestampAtCurrent.
    rewrite (uidNumeric_value _ _ Hd Hr). destruct (negb _); eauto.
  - unfold saveTimestampEdits. destruct (negb _); [eauto|].
    destruct (find_ts _ _); eauto.
  - unfold deleteTimestamp. destruct (selectedTsId s) as [id|]; [|eauto].
    destruct (negb _); eauto.
  - unfold tagButton_onclick. destruct ts as [r|]; [|eauto].
    destruct Hreg as [t ->]. eauto.
  - unfold pill_onclick. destruct Hreg as [t ->]. eauto.
  - destruct Hreg as [Hd Hr]. unfold pointerDown.
    rewrite (uidNumeric_value _ _ Hd Hr).
    destruct (negb _); [eauto|]. destruct (negb _); eauto.
  - unfold pointerMove. destruct (negb _); [eauto|].
    destruct (activeStroke s); eauto.
  - unfold pointerUp. destruct (negb _); [eauto|].
    destruct (activeStroke s); [|eauto].
    destruct (find_ts _ _) as [r|] eqn:Hf; [|eauto].
    apply find_ts_Some in Hf as (_ & n & t & _ & -> & _). eauto.
  - unfold clearDraw_onclick. destruct (negb _); [eauto|].
    destruct (find_ts _ _); eauto.
  - unfold load_onclick. destruct (negb _); [eauto|].
    destruct (_ || _); eauto.
  - destruct Hreg as [Hd Hr]. unfold newProject.
    rewrite (uidNumeric_value _ _ Hd Hr). eauto.
  - destruct Hreg as [Hd Hr]. unfold importProject, import_failed.
    rewrite (uidNumeric_value _ _ Hd Hr).
    destruct file as [[[|obj]|]|]; eauto.
    destruct (f_roster obj); eauto. destruct (f_timestamps obj); eauto.
    destruct (f_projectId obj); eauto.
Qed.

Lemma write_through_witness :
  exists s',
    handle (AddAthlete "Ann" "Lee" "WR" "12" "Blue" noon 123) (initial (Num 1))
      = Done s' /\
    (persisted s' \/
     (document s' = document (initial (Num 1)) /\
      localStorage s' = localStorage (initial (Num 1)))) /\
    (persisted (initial (Num 1)) -> persisted s').
Proof.
  eexists. split; [vm_compute; reflexivity|].
  apply (write_through (AddAthlete "Ann" "Lee" "WR" "12" "Blue" noon 123)
           (initial (Num 1))).
  vm_compute. reflexivity.
Defined.

End Persistence.

(** ** New project *)

Section NewProject.

(** C9.  The new-project operation empties the timestamps list and clears
    the selection and the drawing state (buffer and stroke in progress), leaves
    the roster and the video reference (url and id) exactly as they were,
    and persists the result. *)
Theorem newProject_keeps_roster_and_video (now : Date) (rnd : Z) (s : State) :
  valid_date now = true -> 0 <= rnd < 1000 ->
  exists s',
    newProject now rnd s = Done s' /\
    timestamps s' = [] /\ d_timestamps (document s') = [] /\
    selectedTsId s' = None /\ drawingsBuf s' = [] /\ activeStroke s' = None /\
    roster s' = roster s /\
    youtubeUrl s' = youtubeUrl s /\ youtubeId s' = youtubeId s /\
    persisted s'.
Proof.
  intros Hd Hr. unfold newProject.
  rewrite (uidNumeric_value now rnd Hd Hr).
  eexists. split; [reflexivity|]. by repeat split.
Qed.

Lemma newProject_keeps_roster_and_video_witness :
  exists s',
    newProject noon 123 drawing_state = Done s' /\
    timestamps s' = [] /\ d_timestamps (document s') = [] /\
    selectedTsId s' = None /\ drawingsBuf s' = [] /\ activeStroke s' = None /\
    roster s' = roster drawing_state /\
    youtubeUrl s' = youtubeUrl drawing_state /\
    youtubeId s' = youtubeId drawing_state /\
    persisted s'.
Proof.
  apply (newProject_keeps_roster_and_video noon 123 drawing_state).
  - reflexivity.
  - lia.
Defined.

End NewProject.

(** ** Tagging without a selection *)

Section Tagging.

(** C7.  When no annotation is selected, the handler of a Tag button that was
    rendered in that state throws: the handler closed over [null] and reads
    a property of it.  The document is unchanged, but the error escapes and
    no message is reported. *)
Theorem tag_without_selection_throws (a : Athlete) (s : State) :
  selectedTsId s = None ->
  tagAthlete a s = Threw TypeError s.
Proof.
  intros Hsel. unfold tagAthlete, rendered_ts, selected.
  rewrite Hsel. reflexivity.
Qed.

Lemma tag_without_selection_throws_witness :
  selectedTsId two_athletes = None /\
  tagAthlete (mkAthlete (Num 5) "Ann" "Lee" "WR" "12" "Blue") two_athletes
    = Threw TypeError two_athletes.
Proof.
  split; [reflexivity|].
  apply (tag_without_selection_throws _ two_athletes). reflexivity.
Defined.

(** With an annotation selected the same button tags the athlete once. *)
Lemma tag_with_selection (a : Athlete) (s : State) (r : ref) (t : Annotation) :
  rendered_ts s = Some r -> store s !! r = Some t ->
  exists s',
    tagAthlete a s = Done s' /\
    store s' !! r = Some (add_tag (a_id a) t) /\ persisted s'.
Proof.
  intros Hr Ht. unfold tagAthlete, tagButton_onclick. rewrite Hr, Ht.
  eexists. split; [reflexivity|]. split; [|reflexivity].
  cbn [store saveState set_store set_localStorage].
  rewrite list_lookup_alter_eq, Ht. reflexivity.
Qed.

End Tagging.

(** ** Pointer gestures *)

Section Gestures.

Lemma stroke_moved_tool (k : Stroke) (moves : list PointerEvent) :
  tool (stroke_moved k moves) = tool k.
Proof.
  revert k. induction moves as [|e moves IH]; intros k; [reflexivity|].
  unfold stroke_moved in *. cbn [foldl]. now rewrite IH.
Qed.

Lemma stroke_moved_points (k : Stroke) (moves : list PointerEvent) :
  points (stroke_moved k moves) = (points k ++ map e_point moves)%list.
Proof.
  revert k. induction moves as [|e moves IH]; intros k.
  - cbn. now rewrite app_nil_r.
  - unfold stroke_moved in *. cbn [foldl map]. rewrite IH. cbn.
    now rewrite <- app_assoc.
Qed.

Lemma pointerMoves (moves : list PointerEvent) (k : Stroke) (s : State) :
  drawEnabled s = true ->
  foldl (fun o e => and_then o (pointerMove e))
    (Done (set_activeStroke (Some k) s)) moves
  = Done (set_activeStroke (Some (stroke_moved k moves)) s).
Proof.
  intros Hd. revert k. induction moves as [|e moves IH]; intros k; [reflexivity|].
  cbn [foldl and_then]. unfold pointerMove at 2. cbn. rewrite Hd. cbn.
  apply IH.
Qed.

(** A gesture made with drawing enabled and an annotation selected appends
    its stroke to the drawings of that annotation and persists. *)
Lemma gesture_commits (down : PointerEvent) (moves : list PointerEvent)
    (s : State) (r : ref) (t : Annotation) (id : jsnum) :
  drawEnabled s = true -> selected s = true ->
  find_ts (selectedTsId s) s = Some r -> store s !! r = Some t ->
  uidNumeric (e_now down) (e_rnd down) = Some id ->
  exists s',
    gesture down moves s = Done s' /\
    store s' !! r =
      Some (with_drawings
              (or_empty (drawings t) ++ [stroke_moved (stroke_begun id down) moves]) t) /\
    timestamps s' = timestamps s /\
    activeStroke s' = None /\
    persisted s'.
Proof.
  intros Hd Hsel Hf Ht Hid. unfold gesture, pointerDown.
  rewrite Hd, Hsel, Hid. cbn [negb].
  change (mkStroke id "pen" (e_color down) (e_size down) [e_point down] (e_time down))
    with (stroke_begun id down).
  rewrite (pointerMoves moves _ s Hd). cbn [and_then].
  unfold pointerUp. cbn [drawEnabled set_activeStroke activeStroke].
  rewrite Hd. cbn [negb].
  change (find_ts (selectedTsId (set_activeStroke ?k s)) (set_activeStroke ?k s))
    with (find_ts (selectedTsId s) s).
  rewrite Hf. cbn [store set_activeStroke]. rewrite Ht.
  eexists. split; [reflexivity|]. split; [|by repeat split].
  cbn [store saveState set_store set_localStorage set_activeStroke set_drawings].
  rewrite list_lookup_alter_eq, Ht. reflexivity.
Qed.

(** The canvas operations of a stroke that is not an eraser stroke: nothing
    below two points, and otherwise a path that is begun in the composite
    mode [source-over] and in no other. *)
Lemma drawStroke_source_over (k : Stroke) :
  tool k <> "erase" ->
  (forall c st w, BeginPath c st w ∈ drawStroke k -> c = "source-over") /\
  ((2 <= length (points k))%nat ->
   exists st w ops, drawStroke k = BeginPath "source-over" st w :: ops).
Proof.
  intros Ht. apply String.eqb_neq in Ht. unfold drawStroke. rewrite Ht.
  destruct (points k) as [|p0 [|p1 rest]].
  - split; [intros c st w H; inversion H | cbn; lia].
  - split; [intros c st w H; inversion H | cbn; lia].
  - split; [|intros _; eauto].
    intros c st w H.
    apply elem_of_cons in H as [H|H]; [now injection H as -> _ _|].
    apply elem_of_cons in H as [H|H]; [discriminate|].
    apply elem_of_app in H as [H|H].
    + apply list_elem_of_In, in_map_iff in H as (q & Hq & _). discriminate.
    + apply list_elem_of_singleton in H. discriminate.
Qed.

(** The annotation that a reference of the timestamp list points to is an
    annotation of the document. *)
Lemma annotation_in_document (s : State) (r : ref) (t : Annotation) :
  r ∈ timestamps s -> store s !! r = Some t -> t ∈ d_timestamps (document s).
Proof.
  intros Hr Ht. cbn [document d_timestamps]. unfold annotations.
  apply list_elem_of_omap. now exists r.
Qed.

(** C8, as the code has it.  Every stroke committed by a pointer gesture has
    tool [pen]: for every gesture performed with drawing enabled and an
    annotation selected, the gesture appends one stroke to the drawings of
    that annotation, the stroke appended has its tool field equal to [pen],
    and [drawStroke] renders it as a drawing stroke, in the composite mode
    [source-over] (a path is drawn when the gesture has a pointer-move);
    [erase] is only a rendering mode and is never produced by the
    recorder. *)
Theorem committed_stroke_tool_is_pen (down : PointerEvent)
    (moves : list PointerEvent) (s : State) (r : ref) (t : Annotation) :
  drawEnabled s = true -> selected s = true ->
  find_ts (selectedTsId s) s = Some r -> store s !! r = Some t ->
  valid_date (e_now down) = true -> 0 <= e_rnd down < 1000 ->
  exists s' t' k,
    gesture down moves s = Done s' /\
    store s' !! r = Some t' /\
    drawings t' = Some (or_empty (drawings t) ++ [k])%list /\
    tool k = "pen" /\ tool k <> "erase" /\
    points k = e_point down :: map e_point moves /\
    (forall c st w, BeginPath c st w ∈ drawStroke k -> c = "source-over") /\
    (moves <> [] ->
     exists st w ops, drawStroke k = BeginPath "source-over" st w :: ops).
Proof.
  intros Hd Hsel Hf Ht Hv Hr.
  destruct (gesture_commits down moves s r t _ Hd Hsel Hf Ht
              (uidNumeric_value _ _ Hv Hr)) as (s' & Hg & Hs & _).
  set (k := stroke_moved
              (stroke_begun (Num (uid_value (e_now down) (e_rnd down))) down) moves) in *.
  assert (Htool : tool k = "pen") by (unfold k; now rewrite stroke_moved_tool).
  assert (Hpts : points k = e_point down :: map e_point moves)
    by (unfold k; now rewrite stroke_moved_points).
  assert (Hne : tool k <> "erase") by (rewrite Htool; discriminate).
  destruct (drawStroke_source_over k Hne) as [Hall Hpath].
  exists s', (with_drawings (or_empty (drawings t) ++ [k])%list t), k.
  split; [exact Hg|]. split; [exact Hs|]. split; [reflexivity|].
  split; [exact Htool|]. split; [exact Hne|]. split; [exact Hpts|].
  split; [exact Hall|].
  intros Hm. apply Hpath. rewrite Hpts.
  destruct moves; [congruence | cbn; lia].
Qed.

Lemma committed_stroke_tool_is_pen_witness :
  exists s' t' k,
    gesture a_pointer_event [a_pointer_event] drawing_state = Done s' /\
    store s' !! 0%nat = Some t' /\
    drawings t' = Some [k] /\
    tool k = "pen" /\ tool k <> "erase" /\
    points k = [a_point; a_point] /\
    (forall c st w, BeginPath c st w ∈ drawStroke k -> c = "source-over") /\
    ([a_pointer_event] <> [] ->
     exists st w ops, drawStroke k = BeginPath "source-over" st w :: ops).
Proof.
  apply (committed_stroke_tool_is_pen a_pointer_event [a_pointer_event]
           drawing_state 0%nat
           (mkAnnotation (Num 7) 3 "New coaching point" EmptyString (Some []) (Some []))).
  - reflexivity.
  - reflexivity.
  - reflexivity.
  - reflexivity.
  - reflexivity.
  - cbn. lia.
Defined.

(** What the canvas receives for the stroke of that gesture. *)
Example committed_stroke_is_drawn :
  exists s' t' k,
    gesture a_pointer_event [a_pointer_event] drawing_state = Done s' /\
    store s' !! 0%nat = Some t' /\ drawings t' = Some [k] /\
    drawStroke k
      = [BeginPath "source-over" "#00E5FF" (Num 4); MoveTo a_point;
         LineTo a_point; StrokeOp].
Proof.
  eexists _, _, _. split; [vm_compute; reflexivity|].
  split; [reflexivity|]. split; reflexivity.
Qed.

(** C8 as stated fails: the committed stroke does not have tool [draw]. *)
Lemma committed_stroke_tool_is_not_draw :
  exists s' t' k,
    gesture a_pointer_event [a_pointer_event] drawing_state = Done s' /\
    store s' !! 0%nat = Some t' /\ drawings t' = Some [k] /\
    tool k <> "draw".
Proof.
  eexists _, _, _. split; [vm_compute; reflexivity|].
  split; [reflexivity|]. split; [reflexivity|]. discriminate.
Qed.

(** C10.  Pointer-down followed immediately by pointer-up, with drawing
    enabled and an annotation selected, commits and persists a stroke of
    exactly one point to the drawings of that annotation: the drawings of the
    annotation are the old ones followed by that stroke, the annotation is in
    the document and the stored copy is that document, although [drawStroke]
    draws nothing for a stroke of fewer than two points. *)
Theorem single_point_stroke_is_committed (down : PointerEvent) (s : State)
    (r : ref) (t : Annotation) :
  drawEnabled s = true -> selected s = true ->
  find_ts (selectedTsId s) s = Some r -> store s !! r = Some t ->
  valid_date (e_now down) = true -> 0 <= e_rnd down < 1000 ->
  exists s' t' k,
    gesture down [] s = Done s' /\
    store s' !! r = Some t' /\
    drawings t' = Some (or_empty (drawings t) ++ [k])%list /\
    points k = [e_point down] /\ length (points k) = 1%nat /\
    drawStroke k = [] /\
    t' ∈ d_timestamps (document s') /\
    localStorage s' = Some (document s').
Proof.
  intros Hd Hsel Hf Ht Hv Hr.
  destruct (gesture_commits down [] s r t _ Hd Hsel Hf Ht
              (uidNumeric_value _ _ Hv Hr)) as (s' & Hg & Hs & Hts & _ & Hp).
  exists s',
    (with_drawings
       (or_empty (drawings t)
        ++ [stroke_begun (Num (uid_value (e_now down) (e_rnd down))) down])%list t),
    (stroke_begun (Num (uid_value (e_now down) (e_rnd down))) down).
  split; [exact Hg|]. split; [exact Hs|]. do 4 (split; [reflexivity|]).
  split; [|exact Hp].
  apply (annotation_in_document s' r); [|exact Hs].
  rewrite Hts. now apply find_ts_Some in Hf as [Hin _].
Qed.

Lemma single_point_stroke_is_committed_witness :
  exists s' t' k,
    gesture a_pointer_event [] drawing_state = Done s' /\
    store s' !! 0%nat = Some t' /\
    drawings t' = Some [k] /\
    points k = [a_point] /\ length (points k) = 1%nat /\
    drawStroke k = [] /\
    t' ∈ d_timestamps (document s') /\
    localStorage s' = Some (document s').
Proof.
  apply (single_point_stroke_is_committed a_pointer_event drawing_state 0%nat
           (mkAnnotation (Num 7) 3 "New coaching point" EmptyString (Some []) (Some []))).
  - reflexivity.
  - reflexivity.
  - reflexivity.
  - reflexivity.
  - reflexivity.
  - cbn. lia.
Defined.

(** The document and the stored copy after that gesture: the only annotation
    holds the one stroke, of one point. *)
Example single_point_stroke_stored :
  exists s',
    gesture a_pointer_event [] drawing_state = Done s' /\
    map drawings (d_timestamps (document s'))
      = [Some [mkStroke (Num 261101120000123) "pen" "#00E5FF" (Num 4) [a_point] 0]] /\
    localStorage s' = Some (document s').
Proof. eexists. split; [vm_compute; reflexivity|]. split; reflexivity. Qed.

End Gestures.

(** ** Project import *)

Section ImportProject.

(** C3.  Project import checks that the parsed value is an object whose
    [roster] and [timestamps] are both arrays.  If parsing fails or either
    field is not an array, the import returns with the status line reading
    [Import failed: invalid project JSON.], and the document and its
    persisted copy are as they were.  If the check succeeds, the imported
    object replaces the document wholesale (a missing project id is
    generated, a missing video reference is empty), the new document is
    persisted and the status line reports the import. *)
Theorem importProject_validates (parsed : option JsonValue) (now : Date)
    (rnd : Z) (s : State) :
  valid_date now = true -> 0 <= rnd < 1000 ->
  match well_shaped parsed with
  | None =>
      exists s',
        importProject (Some parsed) now rnd s = Done s' /\
        status s' = "Import failed: invalid project JSON." /\
        document s' = document s /\
        localStorage s' = localStorage s
  | Some (obj, ros, tss) =>
      exists s',
        importProject (Some parsed) now rnd s = Done s' /\
        status s' = "Imported project JSON." /\
        document s' =
          mkDoc (default (Num (uid_value now rnd)) (f_projectId obj))
            (default EmptyString (f_youtubeUrl obj))
            (default EmptyString (f_youtubeId obj)) ros tss /\
        persisted s'
  end.
Proof.
  intros Hd Hr. unfold well_shaped, importProject, import_failed.
  destruct parsed as [[|obj]|];
    [eexists; by repeat split| |eexists; by repeat split].
  destruct (f_roster obj) as [| |ros];
    [eexists; by repeat split|eexists; by repeat split|].
  destruct (f_timestamps obj) as [| |tss];
    [eexists; by repeat split|eexists; by repeat split|].
  rewrite (uidNumeric_value now rnd Hd Hr).
  assert (Hdoc : forall pid,
    document (saveState (set_timestamps (seq (length (store s)) (length tss))
      (set_store (store s ++ tss) (set_roster ros
        (set_youtube (default EmptyString (f_youtubeUrl obj))
           (default EmptyString (f_youtubeId obj)) (set_projectId pid s))))))
    = mkDoc pid (default EmptyString (f_youtubeUrl obj))
        (default EmptyString (f_youtubeId obj)) ros tss).
  { intros pid. unfold document, annotations.
    cbn [projectId youtubeUrl youtubeId roster store timestamps saveState
         set_localStorage set_timestamps set_store set_roster set_youtube set_projectId].
    now rewrite annotations_fresh. }
  destruct (f_projectId obj) as [pid|]; cbn [default];
    (eexists; split; [reflexivity|]);
    (split; [reflexivity|]);
    (split; [|destruct (truthy_str _); [destruct (_ && _)|]; reflexivity]);
    (etransitivity; [|apply Hdoc]);
    (destruct (truthy_str _); [destruct (_ && _)|]; reflexivity).
Qed.

Lemma importProject_validates_witness :
  (exists s',
     importProject (Some (Some a_project_file)) noon 123 drawing_state = Done s' /\
     status s' = "Imported project JSON." /\
     document s' =
       mkDoc (Num 9) "https://youtu.be/abc123" "abc123"
         [mkAthlete (Num 5) "Ann" "Lee" EmptyString EmptyString EmptyString] [] /\
     persisted s') /\
  (exists s',
     importProject
       (Some (Some (Object (mkProjectFile None None None (IsArray []) NotArray))))
       noon 123 drawing_state = Done s' /\
     status s' = "Import failed: invalid project JSON." /\
     document s' = document drawing_state /\
     localStorage s' = localStorage drawing_state).
Proof.
  split.
  - apply (importProject_validates (Some a_project_file) noon 123 drawing_state).
    + reflexivity.
    + lia.
  - apply (importProject_validates
             (Some (Object (mkProjectFile None None None (IsArray []) NotArray)))
             noon 123 drawing_state).
    + reflexivity.
    + lia.
Defined.

(** The failing branches at concrete files: text that does not parse, a value
    that is not an object, and an object without a [timestamps] array.  Each
    time the status line reports the failure and the document is the one
    from before. *)
Example importProject_rejects :
  Forall (fun parsed =>
            exists s',
              importProject (Some parsed) noon 123 drawing_state = Done s' /\
              status s' = "Import failed: invalid project JSON." /\
              status s' <> status drawing_state /\
              document s' = document drawing_state /\
              localStorage s' = localStorage drawing_state)
    [None; Some NotObject;
     Some (Object (mkProjectFile None None None (IsArray []) NotArray));
     Some (Object (mkProjectFile None None None Missing (IsArray [])))].
Proof.
  repeat constructor; (eexists; split; [reflexivity|]);
    repeat split; discriminate.
Qed.

End ImportProject.

(** ** Adding an athlete *)

Section AddAthlete.

(** C5, as the code has it.  An addition whose first and last name are not
    empty after trimming appends exactly one record, so the roster is one
    longer, and persists.  The id of the record is the number that
    [uidNumeric] makes from the clock and a random draw; it differs from
    every id in the roster that [uidNumeric] made from another reading, and
    it is not compared with the roster. *)
Theorem addAthlete_appends_one (r_first r_last r_pos r_jersey r_team : string)
    (now : Date) (rnd : Z) (s : State) :
  truthy_str (trim r_first) = true -> truthy_str (trim r_last) = true ->
  valid_date now = true -> 0 <= rnd < 1000 ->
  exists s',
    addAthlete r_first r_last r_pos r_jersey r_team now rnd s = Done s' /\
    roster s' =
      (roster s ++
       [mkAthlete (Num (uid_value now rnd)) (trim r_first) (trim r_last)
          (trim r_pos) (trim r_jersey) (trim r_team)])%list /\
    length (roster s') = S (length (roster s)) /\
    (forall a now' rnd',
        a ∈ roster s ->
        valid_date now' = true -> 0 <= rnd' < 1000 ->
        uidNumeric now' rnd' = Some (a_id a) ->
        uid_reading now' rnd' <> uid_reading now rnd ->
        a_id a <> Num (uid_value now rnd)) /\
    persisted s'.
Proof.
  intros Hf Hl Hd Hr. unfold addAthlete.
  rewrite Hf, Hl. cbn [negb orb].
  rewrite (uidNumeric_value now rnd Hd Hr).
  eexists. split; [reflexivity|].
  split; [reflexivity|].
  split; [cbn; rewrite length_app; cbn; lia|].
  split; [|reflexivity].
  intros a now' rnd' _ Hd' Hr' Hid Hne Heq.
  rewrite (uidNumeric_value now' rnd' Hd' Hr') in Hid.
  rewrite Heq in Hid. injection Hid as Hv.
  apply Hne. now apply uid_value_inj.
Qed.

Lemma addAthlete_appends_one_witness :
  exists s',
    addAthlete "Ann" " Lee " "WR" "12" "Blue" noon 123 (initial (Num 1)) = Done s' /\
    roster s' = [mkAthlete (Num 261101120000123) "Ann" "Lee" "WR" "12" "Blue"] /\
    length (roster s') = 1%nat /\
    (forall a now' rnd',
        a ∈ roster (initial (Num 1)) ->
        valid_date now' = true -> 0 <= rnd' < 1000 ->
        uidNumeric now' rnd' = Some (a_id a) ->
        uid_reading now' rnd' <> uid_reading noon 123 ->
        a_id a <> Num 261101120000123) /\
    persisted s'.
Proof.
  apply (addAthlete_appends_one "Ann" " Lee " "WR" "12" "Blue" noon 123 (initial (Num 1))).
  - reflexivity.
  - reflexivity.
  - reflexivity.
  - lia.
Defined.

(** C5 as stated fails: two additions within one second that draw the same
    three digits get the same id. *)
Lemma addAthlete_id_not_unique :
  exists s1 s2 a b,
    addAthlete "Ann" "Lee" "WR" "12" "Blue" noon 123 (initial (Num 1)) = Done s1 /\
    addAthlete "Bob" "Ray" "QB" "7" "Blue" noon 123 s1 = Done s2 /\
    roster s1 = [a] /\ roster s2 = [a; b] /\ a_id b = a_id a.
Proof.
  eexists _, _, _, _.
  split; [vm_compute; reflexivity|].
  split; [vm_compute; reflexivity|].
  by repeat split.
Qed.

End AddAthlete.

(** ** Removing an athlete *)

Section RemoveAthlete.

Lemma strict_eq_true (a b : jsnum) :
  strict_eq a b = true <-> exists z, a = Num z /\ b = Num z.
Proof.
  destruct a as [x|], b as [y|]; cbn; split;
    try discriminate; try (intros (z & ? & ?); discriminate).
  - intros H. apply Z.eqb_eq in H. subst. now exists y.
  - intros (z & [= ->] & [= ->]). apply Z.eqb_refl.
Qed.

Lemma same_value_zero_eq (a b : jsnum) : same_value_zero a b = true <-> a = b.
Proof.
  destruct a as [x|], b as [y|]; cbn; split; try discriminate; try reflexivity.
  - intros H. apply Z.eqb_eq in H. now subst.
  - intros [= ->]. apply Z.eqb_refl.
Qed.

(** After the loop, every object that the loop visited has been through the
    body at least once. *)
Lemma for_each_lookup (P : Annotation -> Prop) (f : Annotation -> Annotation)
    (refs : list nat) (st : list Annotation) (r : nat) (t : Annotation) :
  (forall x, P (f x)) ->
  r ∈ refs ->
  foldl (fun st r => alter f r st) st refs !! r = Some t ->
  P t.
Proof.
  intros HP. revert r t. induction refs as [|r0 refs IH] using rev_ind;
    intros r t Hin Hl.
  - by apply elem_of_nil in Hin.
  - rewrite foldl_app in Hl. cbn [foldl] in Hl.
    destruct (decide (r0 = r)) as [->|Hne].
    + rewrite list_lookup_alter_eq in Hl.
      destruct (foldl _ st refs !! r) as [x|]; [|discriminate].
      injection Hl as <-. apply HP.
    + rewrite list_lookup_alter_ne in Hl by assumption.
      apply (IH r t); [|assumption].
      apply elem_of_app in Hin as [Hin|Hin]; [assumption|].
      apply list_elem_of_singleton in Hin. congruence.
Qed.

Lemma untag_removes (id : Z) (t : Annotation) :
  ~ In (Num id) (or_empty (taggedAthleteIds (untag (Num id) t))).
Proof.
  unfold untag. cbn. intros H. apply filter_In in H as [_ H].
  cbn in H. now rewrite Z.eqb_refl in H.
Qed.

(** The cascade for an id that is a number: the athlete leaves the roster,
    the id leaves the tag list of every annotation of the document, and the
    result is persisted. *)
Lemma removeAthlete_cascades (a : Athlete) (z : Z) (s : State) :
  a_id a = Num z -> - MAX_SAFE_INTEGER <= z <= MAX_SAFE_INTEGER ->
  exists s',
    removeAthlete a s = Done s' /\
    (forall x, In x (roster s') -> a_id x <> Num z) /\
    (forall t, t ∈ annotations s' -> ~ In (Num z) (or_empty (taggedAthleteIds t))) /\
    persisted s'.
Proof.
  intros Hid Hz. unfold removeAthlete, data_del, rosterDelete_onclick.
  rewrite Hid. rewrite (Number_String (Num z) Hz).
  eexists. split; [reflexivity|].
  split; [|split; [|reflexivity]].
  - intros x Hx Hxid. cbn in Hx. apply filter_In in Hx as [_ Hx].
    rewrite Hxid in Hx. cbn in Hx. now rewrite Z.eqb_refl in Hx.
  - intros t Ht. unfold annotations in Ht.
    apply list_elem_of_omap in Ht as (r & Hr & Hl).
    cbn [timestamps store saveState set_localStorage for_each_ts set_store set_roster] in Hr, Hl.
    apply (for_each_lookup (fun t => ~ In (Num z) (or_empty (taggedAthleteIds t)))
             (untag (Num z)) (timestamps s) (store s) r t); [|exact Hr|exact Hl].
    intros x. apply untag_removes.
Qed.

(** C1.  The cascade fails for a roster entry whose id is [NaN], which the
    roster import creates from an id cell that is not a number: the Delete
    button of that row compares with [!==], which holds between [NaN] and
    every id, so the athlete stays in the roster and the id stays in the tag
    list of the annotation. *)
Theorem removeAthlete_NaN_removes_nothing :
  exists s s' t,
    tagged_after_import = Done s /\
    roster s = [ann_NaN] /\
    removeAthlete ann_NaN s = Done s' /\
    roster s' = [ann_NaN] /\
    annotations s' = [t] /\ taggedAthleteIds t = Some [NaN].
Proof.
  eexists _, _, _.
  split; [vm_compute; reflexivity|].
  split; [reflexivity|].
  split; [vm_compute; reflexivity|].
  by repeat split.
Qed.

End RemoveAthlete.

(** ** Roster import: the merge by id *)

Section MapModel.

Context {V : Type}.

Lemma map_set_fresh (k : jsnum) (v : V) (m : list (jsnum * V)) :
  k ∉ map fst m -> map_set k v m = (m ++ [(k, v)])%list.
Proof.
  induction m as [|[k' v'] m IH]; intros Hk; [reflexivity|].
  cbn [map_set]. cbn [map fst] in Hk.
  apply not_elem_of_cons in Hk as [Hne Hk].
  destruct (same_value_zero k' k) eqn:E.
  - apply same_value_zero_eq in E. congruence.
  - cbn. now rewrite IH.
Qed.

Lemma map_set_at (k : jsnum) (v v0 : V) (m : list (jsnum * V)) (i : nat) :
  NoDup (map fst m) -> m !! i = Some (k, v0) ->
  map_set k v m = <[i := (k, v)]> m.
Proof.
  revert i. induction m as [|[k' v'] m IH]; intros i Hnd Hi; [discriminate|].
  cbn [map fst] in Hnd. apply NoDup_cons in Hnd as [Hnotin Hnd'].
  destruct i as [|i]; cbn in Hi.
  - injection Hi as -> ->. cbn [map_set].
    rewrite (proj2 (same_value_zero_eq k k) eq_refl). reflexivity.
  - cbn [map_set].
    destruct (same_value_zero k' k) eqn:E.
    + apply same_value_zero_eq in E. subst k'. exfalso. apply Hnotin.
      change (k ∈ fst <$> m). apply list_elem_of_fmap. exists (k, v0).
      split; [reflexivity|]. apply list_elem_of_lookup. now exists i.
    + cbn. now rewrite (IH i Hnd' Hi).
Qed.

Lemma map_set_same (k : jsnum) (v : V) (m : list (jsnum * V)) :
  NoDup (map fst m) -> (k, v) ∈ m -> map_set k v m = m.
Proof.
  intros Hnd Hin. apply list_elem_of_lookup in Hin as [i Hi].
  rewrite (map_set_at k v v m i Hnd Hi). now apply list_insert_id.
Qed.

Lemma map_set_all_fresh (key : V -> jsnum) (l : list V) (m : list (jsnum * V)) :
  NoDup (map fst m ++ map key l) ->
  map_set_all key l m = (m ++ map (fun a => (key a, a)) l)%list.
Proof.
  revert m. induction l as [|a l IH]; intros m Hnd.
  - cbn. now rewrite app_nil_r.
  - unfold map_set_all in *. cbn [foldl map].
    assert (Hk : key a ∉ map fst m).
    { intros Hin. apply NoDup_app in Hnd as (_ & Hnd & _).
      apply (Hnd _ Hin). cbn [map]. apply list_elem_of_here. }
    rewrite (map_set_fresh _ _ _ Hk).
    rewrite IH.
    + now rewrite <- app_assoc.
    + rewrite map_app. cbn [map fst]. now rewrite <- app_assoc.
Qed.

Lemma map_set_all_same (key : V -> jsnum) (l : list V) (m : list (jsnum * V)) :
  NoDup (map fst m) -> (forall a, a ∈ l -> (key a, a) ∈ m) ->
  map_set_all key l m = m.
Proof.
  intros Hnd. induction l as [|a l IH]; intros Hin; [reflexivity|].
  unfold map_set_all in *. cbn [foldl].
  rewrite map_set_same; [|assumption|apply Hin, list_elem_of_here].
  apply IH. intros b Hb. apply Hin. now apply list_elem_of_further.
Qed.

End MapModel.

Section Merge.

Lemma fst_keyed (l : list Athlete) :
  map fst (map (fun a => (a_id a, a)) l) = map a_id l.
Proof. rewrite map_map. reflexivity. Qed.

Lemma snd_keyed (l : list Athlete) :
  map snd (map (fun a => (a_id a, a)) l) = l.
Proof. rewrite map_map. cbn. apply map_id. Qed.

Lemma roster_map (old : list Athlete) :
  NoDup (map a_id old) ->
  map_set_all a_id old [] = map (fun a => (a_id a, a)) old.
Proof. intros Hnd. now rewrite map_set_all_fresh. Qed.

(** Importing records that the roster already holds changes nothing. *)
Lemma merge_same (old mapped : list Athlete) :
  NoDup (map a_id old) -> (forall a, a ∈ mapped -> a ∈ old) ->
  merge_by_id old mapped = old.
Proof.
  intros Hnd Hin. unfold merge_by_id. rewrite (roster_map old Hnd).
  rewrite map_set_all_same.
  - apply snd_keyed.
  - now rewrite fst_keyed.
  - intros a Ha.
    change ((a_id a, a) ∈ (fun a => (a_id a, a)) <$> old).
    apply list_elem_of_fmap. exists a. split; [reflexivity | now apply Hin].
Qed.

(** A row whose id is the id of a roster entry takes the place of that
    entry. *)
Lemma merge_overwrites_in_place (old : list Athlete) (i : nat) (a b : Athlete) :
  NoDup (map a_id old) -> old !! i = Some a -> a_id b = a_id a ->
  merge_by_id old [b] = <[i := b]> old.
Proof.
  intros Hnd Hi Hid. unfold merge_by_id. rewrite (roster_map old Hnd).
  unfold map_set_all. cbn [foldl].
  rewrite (map_set_at (a_id b) b a _ i).
  - change (map snd ?l) with (snd <$> l).
    rewrite list_fmap_insert. cbn [snd].
    change (snd <$> ?l) with (map snd l). now rewrite snd_keyed.
  - now rewrite fst_keyed.
  - change (map ?f ?l) with (f <$> l). rewrite list_lookup_fmap, Hi. cbn.
    now rewrite Hid.
Qed.

(** A row whose id is new is added at the end. *)
Lemma merge_appends (old : list Athlete) (b : Athlete) :
  NoDup (map a_id old) -> a_id b ∉ map a_id old ->
  merge_by_id old [b] = (old ++ [b])%list.
Proof.
  intros Hnd Hb. unfold merge_by_id. rewrite (roster_map old Hnd).
  unfold map_set_all. cbn [foldl].
  rewrite map_set_fresh by now rewrite fst_keyed.
  rewrite map_app, snd_keyed. reflexivity.
Qed.

End Merge.
(** ** Roster import: the rows *)

Section ImportRows.

Lemma nullish_cell2 (r : gmap string string) (h1 h2 : string) :
  trim (default EmptyString (r !! h1 ?? r !! h2)) = cell r h1 \/
  trim (default EmptyString (r !! h1 ?? r !! h2)) = cell r h2.
Proof.
  unfold cell, nullish. destruct (r !! h1); [now left | now right].
Qed.

Lemma nullish_cell3 (r : gmap string string) (h1 h2 h3 : string) :
  trim (default EmptyString (r !! h1 ?? r !! h2 ?? r !! h3)) = cell r h1 \/
  trim (default EmptyString (r !! h1 ?? r !! h2 ?? r !! h3)) = cell r h2 \/
  trim (default EmptyString (r !! h1 ?? r !! h2 ?? r !! h3)) = cell r h3.
Proof.
  unfold cell, nullish. destruct (r !! h1); [now left|].
  destruct (r !! h2); [right; now left | right; now right].
Qed.

(** A row in which no first-name and no last-name column, under any accepted
    header, is populated is skipped. *)
Lemma map_row_skips (r : gmap string string) (clock : Date * Z) :
  (forall h, h ∈ name_headers -> cell r h = EmptyString) ->
  map_row r clock = Some None.
Proof.
  intros Hblank. unfold map_row.
  assert (Hf : trim (default EmptyString (r !! "first" ?? r !! "firstname" ?? r !! "name"))
               = EmptyString).
  { destruct (nullish_cell3 r "first" "firstname" "name") as [->|[->| ->]];
      apply Hblank; unfold name_headers; set_solver. }
  assert (Hl : trim (default EmptyString (r !! "last" ?? r !! "lastname" ?? r !! "surname"))
               = EmptyString).
  { destruct (nullish_cell3 r "last" "lastname" "surname") as [->|[->| ->]];
      apply Hblank; unfold name_headers; set_solver. }
  rewrite Hf, Hl. reflexivity.
Qed.

(** A kept row has a populated first-name or last-name column. *)
Lemma map_row_kept (r : gmap string string) (clock : Date * Z) (a : Athlete) :
  map_row r clock = Some (Some a) ->
  exists h, h ∈ name_headers /\ cell r h <> EmptyString.
Proof.
  unfold map_row. intros H.
  destruct (truthy_str (trim (default EmptyString
              (r !! "first" ?? r !! "firstname" ?? r !! "name")))) eqn:Ef.
  - destruct (nullish_cell3 r "first" "firstname" "name") as [E|[E|E]];
      rewrite E in Ef;
      [exists "first" | exists "firstname" | exists "name"];
      (split; [unfold name_headers; set_solver|]);
      intros E0; rewrite E0 in Ef; discriminate.
  - destruct (truthy_str (trim (default EmptyString
                (r !! "last" ?? r !! "lastname" ?? r !! "surname")))) eqn:El;
      [|discriminate].
    destruct (nullish_cell3 r "last" "lastname" "surname") as [E|[E|E]];
      rewrite E in El;
      [exists "last" | exists "lastname" | exists "surname"];
      (split; [unfold name_headers; set_solver|]);
      intros E0; rewrite E0 in El; discriminate.
Qed.

(** A kept row without an id, or with a blank one, gets a generated id. *)
Lemma map_row_generates_id (r : gmap string string) (now : Date) (rnd : Z)
    (a : Athlete) :
  cell r "id" = EmptyString ->
  valid_date now = true -> 0 <= rnd < 1000 ->
  map_row r (now, rnd) = Some (Some a) ->
  a_id a = Num (uid_value now rnd).
Proof.
  unfold cell, map_row. intros Hid Hd Hr. rewrite Hid.
  cbn [truthy_str is_empty negb fst snd].
  rewrite (uidNumeric_value now rnd Hd Hr).
  destruct (_ && _); intros [= <-]. reflexivity.
Qed.

(** A kept row with an id cell gets [Number] of that cell. *)
Lemma map_row_reads_id (r : gmap string string) (clock : Date * Z)
    (a : Athlete) :
  cell r "id" <> EmptyString ->
  map_row r clock = Some (Some a) ->
  Number_ (cell r "id") = Some (a_id a).
Proof.
  unfold cell, map_row. intros Hid.
  destruct (trim (default EmptyString (r !! "id"))) as [|c idRaw] eqn:E;
    [contradiction|].
  cbn [truthy_str is_empty negb].
  destruct (_ && _); [discriminate|].
  destruct (Number_ (String c idRaw)) as [n|]; [|discriminate].
  intros [= <-]. reflexivity.
Qed.

Lemma numeric_char_not_ws (c : ascii) :
  numeric_char c = true -> is_ws c = false.
Proof.
  destruct c as [[] [] [] [] [] [] [] []]; vm_compute; congruence.
Qed.

Lemma is_digit_numeric (c : ascii) : is_digit c = true -> numeric_char c = true.
Proof. unfold numeric_char. now intros ->. Qed.

Lemma zeros_numeric (k : nat) :
  all_chars numeric_char (String.concat EmptyString (repeat "0" k)) = true.
Proof.
  induction k as [|k IH]; [reflexivity|].
  cbn [repeat]. destruct k as [|k]; [reflexivity|].
  cbn [repeat String.concat] in *.
  rewrite !all_chars_app in *. cbn [all_chars] in *. exact IH.
Qed.

Lemma String_Z_numeric (z : Z) : all_chars numeric_char (String_Z z) = true.
Proof.
  unfold String_Z. destruct (z <? 0); cbn [all_chars];
    [change (numeric_char "-") with true; cbn [andb]|];
    apply (all_chars_impl is_digit numeric_char _ is_digit_numeric),
      dec_string_all_digits.
Qed.

Lemma uid_text_numeric (d : Date) (rnd : Z) :
  all_chars numeric_char (uid_text d rnd) = true.
Proof.
  unfold uid_text, pad, padStart0.
  rewrite !all_chars_app, !zeros_numeric, !String_Z_numeric. reflexivity.
Qed.

(** [uidNumeric] never returns [NaN]. *)
Lemma uidNumeric_not_NaN (d : Date) (rnd : Z) : uidNumeric d rnd <> Some NaN.
Proof.
  unfold uidNumeric, Number_.
  pose proof (uid_text_numeric d rnd) as Hn.
  rewrite (trim_no_ws (uid_text d rnd)).
  - destruct (is_empty _); [discriminate|].
    destruct (dec_int _) as [[neg v]|].
    + destruct (_ <? _); [discriminate|]. destruct (_ && _); discriminate.
    + rewrite Hn. discriminate.
  - revert Hn. apply all_chars_impl. intros c Hc.
    now rewrite (numeric_char_not_ws c Hc).
Qed.

(** C6 fails on the code.  The import does not give a generated id to a kept
    row whose id cell is not a number: the row gets [Number] of the cell,
    which is [NaN], and no call of [uidNumeric] returns that. *)
Theorem import_keeps_invalid_id :
  exists s',
    importRosterCSV (Some csv_with_bad_id) a_clock player_state = Done s' /\
    roster s' = [ann_NaN] /\
    forall d rnd, uidNumeric d rnd <> Some (a_id ann_NaN).
Proof.
  eexists. split; [vm_compute; reflexivity|].
  split; [reflexivity|].
  intros d rnd. apply uidNumeric_not_NaN.
Qed.

(** What follows from the [NaN] id: two rows whose id cells are different
    invalid texts share the key [NaN] of the map, so the second overwrites
    the first and one athlete is lost. *)
Example import_invalid_ids_collapse :
  exists s',
    importRosterCSV (Some csv_with_bad_ids) a_clock player_state = Done s' /\
    roster s' = [mkAthlete NaN "Bob" "Ray" EmptyString EmptyString EmptyString] /\
    rosterStatus s' = "Imported 2 rows (merged by ID).".
Proof. eexists. split; [vm_compute; reflexivity|]. split; reflexivity. Qed.

End ImportRows.

(** ** CSV export and import *)

Section CsvText.

Lemma ascii_eqb_sym (a b : ascii) : Ascii.eqb a b = Ascii.eqb b a.
Proof.
  destruct (Ascii.eqb_spec a b) as [->|Hne].
  - now rewrite Ascii.eqb_refl.
  - symmetry. apply Ascii.eqb_neq. congruence.
Qed.

Lemma split_on_line (sep : ascii) (l rest cur : string) :
  has_char sep l = false ->
  split_on sep (l +:+ rest) cur = split_on sep rest (cur +:+ l).
Proof.
  revert cur. induction l as [|c l IH]; intros cur Hl.
  - cbn. now rewrite append_nil_r.
  - cbn [has_char] in Hl. apply orb_false_iff in Hl as [Hc Hl].
    cbn [String.append split_on]. rewrite ascii_eqb_sym, Hc.
    rewrite IH by assumption. rewrite append_assoc. reflexivity.
Qed.

Lemma split_on_join (sep : ascii) (l : string) (ls : list string) :
  (forall x, x ∈ l :: ls -> has_char sep x = false) ->
  split_on sep (String.concat (String sep EmptyString) (l :: ls)) EmptyString
  = l :: ls.
Proof.
  revert l. induction ls as [|l2 ls IH]; intros l Hall.
  - cbn [String.concat]. rewrite <- (append_nil_r l) at 1.
    rewrite split_on_line by (apply Hall; set_solver). reflexivity.
  - cbn [String.concat]. rewrite split_on_line by (apply Hall; set_solver).
    cbn [String.append split_on]. rewrite Ascii.eqb_refl.
    cbn [String.append]. f_equal. apply IH.
    intros x Hx. apply Hall. now apply list_elem_of_further.
Qed.

Lemma crlf_to_lf_id (s : string) : has_char CR s = false -> crlf_to_lf s = s.
Proof.
  induction s as [|c r IH]; intros H; [reflexivity|].
  cbn [has_char] in H. apply orb_false_iff in H as [Hc Hr].
  cbn [crlf_to_lf]. destruct r as [|c' r']; [reflexivity|].
  rewrite ascii_eqb_sym in Hc. rewrite Hc. cbn [andb].
  now rewrite IH.
Qed.

Lemma cr_to_lf_id (s : string) : has_char CR s = false -> cr_to_lf s = s.
Proof.
  induction s as [|c r IH]; intros H; [reflexivity|].
  cbn [has_char] in H. apply orb_false_iff in H as [Hc Hr].
  cbn [cr_to_lf]. rewrite ascii_eqb_sym in Hc. rewrite Hc.
  now rewrite IH.
Qed.

Lemma has_char_double_quotes (c : ascii) (s : string) :
  has_char c (double_quotes s) = has_char c s.
Proof.
  induction s as [|d s IH]; [reflexivity|].
  cbn [double_quotes]. destruct (Ascii.eqb_spec d dquote) as [->|Hd];
    cbn [has_char]; rewrite IH; [|reflexivity].
  destruct (Ascii.eqb c dquote); reflexivity.
Qed.

(** Quoting adds double quotes only. *)
Lemma has_char_esc (c : ascii) (s : string) :
  Ascii.eqb c dquote = false -> has_char c (esc s) = has_char c s.
Proof.
  intros Hc. unfold esc. destruct (_ || _); [|reflexivity].
  cbn [has_char]. rewrite Hc, has_char_app, has_char_double_quotes.
  cbn [has_char orb]. rewrite Hc. cbn. now rewrite orb_false_r.
Qed.

Lemma has_char_concat (c : ascii) (sep : string) (l : list string) :
  has_char c sep = false -> (forall x, x ∈ l -> has_char c x = false) ->
  has_char c (String.concat sep l) = false.
Proof.
  intros Hsep. induction l as [|x l IH]; intros Hall; [reflexivity|].
  cbn [String.concat]. destruct l as [|y l]; [apply Hall; set_solver|].
  rewrite !has_char_app, Hsep, IH.
  - rewrite (Hall x) by set_solver. reflexivity.
  - intros z Hz. apply Hall. now apply list_elem_of_further.
Qed.

End CsvText.

Section CsvParse.

(** An unquoted field is read up to its end. *)
Lemma parse_raw (s rest cur : string) (cells : list string) :
  has_char dquote s = false -> has_char comma s = false ->
  parse_go (s +:+ rest) cells cur false = parse_go rest cells (cur +:+ s) false.
Proof.
  revert cur. induction s as [|c s IH]; intros cur Hq Hc.
  - cbn. now rewrite append_nil_r.
  - cbn [has_char] in Hq, Hc.
    apply orb_false_iff in Hq as [Hq1 Hq]. apply orb_false_iff in Hc as [Hc1 Hc].
    rewrite ascii_eqb_sym in Hq1. rewrite ascii_eqb_sym in Hc1.
    cbn [String.append parse_go]. rewrite Hq1, Hc1. cbn [andb].
    rewrite IH by assumption. now rewrite append_assoc.
Qed.

(** Inside quotes, the doubled quotes of a field are read back as single
    ones, and the closing quote ends the quoted part. *)
Lemma parse_quoted (s rest cur : string) (cells : list string) :
  field_end rest ->
  parse_go (double_quotes s +:+ String dquote rest) cells cur true
  = parse_go rest cells (cur +:+ s) false.
Proof.
  intros Hrest. revert cur. induction s as [|c s IH]; intros cur.
  - cbn [double_quotes String.append parse_go]. rewrite Ascii.eqb_refl.
    rewrite append_nil_r.
    destruct rest as [|c' rest']; [reflexivity|].
    cbn in Hrest. subst c'. reflexivity.
  - cbn [double_quotes].
    destruct (Ascii.eqb_spec c dquote) as [->|Hc].
    + cbn [String.append parse_go]. rewrite Ascii.eqb_refl. cbn [andb].
      rewrite IH. now rewrite append_assoc.
    + cbn [String.append parse_go].
      apply Ascii.eqb_neq in Hc. rewrite Hc. rewrite andb_false_r.
      rewrite IH. now rewrite append_assoc.
Qed.

(** A field written by [esc] is read back as it was. *)
Lemma parse_esc (s rest cur : string) (cells : list string) :
  field_end rest ->
  parse_go (esc s +:+ rest) cells cur false = parse_go rest cells (cur +:+ s) false.
Proof.
  intros Hrest. unfold esc.
  destruct (has_char dquote s || has_char comma s || has_char LF s) eqn:E.
  - cbn [String.append parse_go]. rewrite Ascii.eqb_refl. cbn [andb negb].
    rewrite append_assoc. cbn [String.append].
    assert (Hgo : forall l, match l with
                            | String ch' rest' => parse_go l cells cur true
                            | EmptyString => parse_go l cells cur true
                            end = parse_go l cells cur true)
      by (intros [|? ?]; reflexivity).
    rewrite Hgo. now apply parse_quoted.
  - apply orb_false_iff in E as [E _]. apply orb_false_iff in E as [Hq Hc].
    now apply parse_raw.
Qed.

(** A line written by [toCSV] is read back cell by cell. *)
Lemma parse_fields (f : string) (fs cells : list string) :
  parse_go (String.concat "," (map esc (f :: fs))) cells EmptyString false
  = (cells ++ f :: fs)%list.
Proof.
  revert f cells. induction fs as [|f2 fs IH]; intros f cells.
  - cbn [map String.concat]. rewrite <- (append_nil_r (esc f)).
    rewrite parse_esc by exact I. reflexivity.
  - change (String.concat "," (map esc (f :: f2 :: fs)))
      with (esc f +:+ String comma (String.concat "," (map esc (f2 :: fs)))).
    rewrite parse_esc by reflexivity.
    change (parse_go (String comma ?rest) ?c ?cur false)
      with (parse_go rest (c ++ [cur]) EmptyString false).
    rewrite IH. now rewrite <- app_assoc.
Qed.

End CsvParse.

Section CsvRoundTrip.

Lemma plain_text_inv (s : string) :
  plain_text s = true ->
  trim s = s /\ has_char LF s = false /\ has_char CR s = false.
Proof.
  unfold plain_text. rewrite !andb_true_iff, !negb_true_iff.
  intros [[H1 H2] H3]. apply String.eqb_eq in H1. tauto.
Qed.

Lemma all_chars_has_char (p : ascii -> bool) (c : ascii) (s : string) :
  all_chars p s = true -> p c = false -> has_char c s = false.
Proof.
  intros Hs Hc. induction s as [|d s IH]; [reflexivity|].
  cbn [all_chars] in Hs. apply andb_true_iff in Hs as [Hd Hs].
  cbn [has_char]. rewrite (IH Hs), orb_false_r.
  apply Ascii.eqb_neq. intros ->. congruence.
Qed.

Lemma id_char_not_ws (c : ascii) : id_char c = true -> is_ws c = false.
Proof.
  destruct c as [[] [] [] [] [] [] [] []]; vm_compute; congruence.
Qed.

Lemma String_id_chars (n : jsnum) : all_chars id_char (String_ n) = true.
Proof.
  destruct n as [z|]; [|reflexivity].
  assert (Hd : forall m, all_chars id_char (dec_string m) = true).
  { intros m. apply (all_chars_impl is_digit); [|apply dec_string_all_digits].
    intros c Hc. unfold id_char. now rewrite Hc. }
  cbn [String_]. unfold String_Z. destruct (z <? 0); [|apply Hd].
  cbn [all_chars]. rewrite Hd. reflexivity.
Qed.

Lemma String_id_nonempty (n : jsnum) : is_empty (String_ n) = false.
Proof.
  destruct n as [z|]; [|reflexivity].
  cbn [String_]. unfold String_Z. destruct (z <? 0); [reflexivity|].
  apply dec_string_nonempty.
Qed.

Lemma String_id_trim (n : jsnum) : trim (String_ n) = String_ n.
Proof.
  apply trim_no_ws. apply (all_chars_impl id_char); [|apply String_id_chars].
  intros c Hc. now rewrite (id_char_not_ws c Hc).
Qed.

Lemma String_id_has_char (c : ascii) (n : jsnum) :
  id_char c = false -> has_char c (String_ n) = false.
Proof. intros Hc. apply (all_chars_has_char id_char); [apply String_id_chars | exact Hc]. Qed.

Lemma esc_String_id (n : jsnum) : esc (String_ n) = String_ n.
Proof.
  unfold esc. rewrite !String_id_has_char by reflexivity. reflexivity.
Qed.

(** The line of an athlete, as [toCSV] writes it. *)
Lemma row_line_fields (a : Athlete) :
  String.concat "," (map (fun h => esc (athlete_get a h)) roster_headers)
  = String.concat "," (map esc (fields a)).
Proof. reflexivity. Qed.

Lemma fields_trimmed (a : Athlete) :
  plain_athlete a = true -> map trim (fields a) = fields a.
Proof.
  unfold plain_athlete. rewrite !andb_true_iff.
  intros [[[[H1 H2] H3] H4] H5].
  apply plain_text_inv in H1 as (H1 & _). apply plain_text_inv in H2 as (H2 & _).
  apply plain_text_inv in H3 as (H3 & _). apply plain_text_inv in H4 as (H4 & _).
  apply plain_text_inv in H5 as (H5 & _).
  unfold fields. cbn [map]. rewrite String_id_trim, H1, H2, H3, H4, H5.
  reflexivity.
Qed.

Lemma parseLine_row (a : Athlete) :
  plain_athlete a = true ->
  parseLine (String.concat "," (map esc (fields a))) = fields a.
Proof.
  intros Ha. unfold parseLine. unfold fields at 1.
  rewrite parse_fields. cbn [app]. now apply fields_trimmed.
Qed.

(** A line of the export holds neither of the two line break characters. *)
Lemma row_line_no_break (c : ascii) (a : Athlete) :
  c = LF \/ c = CR ->
  plain_athlete a = true ->
  has_char c (String.concat "," (map esc (fields a))) = false.
Proof.
  intros Hc Ha.
  assert (Hq : Ascii.eqb c dquote = false) by (destruct Hc as [->| ->]; reflexivity).
  assert (Hi : id_char c = false) by (destruct Hc as [->| ->]; reflexivity).
  apply has_char_concat; [destruct Hc as [->| ->]; reflexivity|].
  unfold plain_athlete in Ha. rewrite !andb_true_iff in Ha.
  destruct Ha as [[[[H1 H2] H3] H4] H5].
  apply plain_text_inv in H1 as (_ & H1 & H1').
  apply plain_text_inv in H2 as (_ & H2 & H2').
  apply plain_text_inv in H3 as (_ & H3 & H3').
  apply plain_text_inv in H4 as (_ & H4 & H4').
  apply plain_text_inv in H5 as (_ & H5 & H5').
  intros x Hx. unfold fields in Hx. cbn [map] in Hx.
  rewrite !elem_of_cons in Hx. rewrite elem_of_nil in Hx.
  destruct Hx as [->|[->|[->|[->|[->|[->|[]]]]]]]; rewrite has_char_esc by exact Hq;
    [now apply String_id_has_char| | | | |];
    destruct Hc as [->| ->]; assumption.
Qed.

Lemma trim_nonblank (c : ascii) (r : string) :
  is_ws c = false -> is_empty (trim (String c r)) = false.
Proof.
  intros Hc. unfold trim. cbn [trimStart]. rewrite Hc.
  cbn [trimEnd]. rewrite Hc. reflexivity.
Qed.

Lemma row_line_nonblank (a : Athlete) :
  is_empty (trim (String.concat "," (map esc (fields a)))) = false.
Proof.
  unfold fields. cbn [map]. rewrite esc_String_id.
  change (String.concat "," (String_ (a_id a) :: ?l))
    with (String_ (a_id a) +:+ String comma (String.concat "," l)).
  pose proof (String_id_chars (a_id a)) as Hch.
  pose proof (String_id_nonempty (a_id a)) as Hne.
  destruct (String_ (a_id a)) as [|c r]; [discriminate|].
  cbn [all_chars] in Hch. apply andb_true_iff in Hch as [Hc _].
  cbn [String.append]. apply trim_nonblank. now apply id_char_not_ws.
Qed.

(** Reading back the text that [toCSV] wrote for a roster of plain records:
    the headers are those of the export and there is one row per athlete. *)
Lemma fromCSV_toCSV (l : list Athlete) :
  Forall (fun a => plain_athlete a = true) l ->
  fromCSV (toCSV athlete_get l roster_headers)
  = mkParsed roster_headers (map row_of l).
Proof.
  intros Hl. unfold toCSV.
  set (head := String.concat "," roster_headers).
  set (lines := map (fun r => String.concat "," (map (fun h => esc (athlete_get r h)) roster_headers)) l).
  assert (Hlines : lines = map (fun a => String.concat "," (map esc (fields a))) l)
    by reflexivity.
  assert (Hbreak : forall c, c = LF \/ c = CR ->
            forall x, x ∈ head :: lines -> has_char c x = false).
  { intros c Hc x Hx. apply elem_of_cons in Hx as [->|Hx].
    - destruct Hc as [->| ->]; reflexivity.
    - rewrite Hlines in Hx. change (map ?f ?l) with (f <$> l) in Hx.
      apply list_elem_of_fmap in Hx as (a & -> & Ha).
      apply row_line_no_break; [exact Hc|].
      rewrite Forall_forall in Hl. now apply Hl. }
  unfold fromCSV.
  assert (Hcr : has_char CR (String.concat (String LF EmptyString) (head :: lines)) = false).
  { apply has_char_concat; [reflexivity|]. apply Hbreak. now right. }
  rewrite (crlf_to_lf_id _ Hcr), (cr_to_lf_id _ Hcr).
  rewrite split_on_join by (apply Hbreak; now left).
  assert (Hfilter : List.filter (fun l => negb (is_empty (trim l))) lines = lines).
  { rewrite Hlines. clear. induction l as [|a l IH]; [reflexivity|].
    cbn [map List.filter]. rewrite row_line_nonblank. cbn [negb]. now rewrite IH. }
  cbn [List.filter]. change (negb (is_empty (trim head))) with true. cbn iota.
  rewrite Hfilter.
  change (map trim (parseLine head)) with roster_headers.
  f_equal. rewrite Hlines, map_map.
  apply map_ext_in. intros a Ha. unfold row_of.
  rewrite parseLine_row; [reflexivity|].
  rewrite Forall_forall in Hl. apply Hl. now apply list_elem_of_In.
Qed.

End CsvRoundTrip.

Section CsvImport.

Lemma row_of_lookup (a : Athlete) :
  row_of a !! "id" = Some (String_ (a_id a)) /\
  row_of a !! "first" = Some (first a) /\
  row_of a !! "last" = Some (last a) /\
  row_of a !! "position" = Some (position a) /\
  row_of a !! "jersey" = Some (jersey a) /\
  row_of a !! "team" = Some (team a).
Proof.
  unfold row_of, roster_headers, fields. cbn [fill_row].
  cbn [lookup list_lookup default].
  repeat split; by simplify_map_eq.
Qed.

Lemma exact_id_inv (n : jsnum) :
  exact_id n = true ->
  match n with
  | Num z => - MAX_SAFE_INTEGER <= z <= MAX_SAFE_INTEGER
  | NaN => True
  end.
Proof.
  destruct n as [z|]; [|trivial]. cbn. rewrite andb_true_iff, !Z.leb_le. tauto.
Qed.

(** The first loop of the import gives back the athlete that the line was
    written for, unless it skips the row. *)
Lemma map_row_of (a : Athlete) (clock : Date * Z) :
  plain_athlete a = true -> exact_id (a_id a) = true ->
  map_row (row_of a) clock
  = Some (if negb (truthy_str (first a)) && negb (truthy_str (last a))
          then None else Some a).
Proof.
  intros Hp Hid. unfold map_row.
  destruct (row_of_lookup a) as (-> & -> & -> & -> & -> & ->).
  cbn [nullish default from_option id].
  unfold plain_athlete in Hp. rewrite !andb_true_iff in Hp.
  destruct Hp as [[[[H1 H2] H3] H4] H5].
  apply plain_text_inv in H1 as (-> & _). apply plain_text_inv in H2 as (-> & _).
  apply plain_text_inv in H3 as (-> & _). apply plain_text_inv in H4 as (-> & _).
  apply plain_text_inv in H5 as (-> & _).
  rewrite String_id_trim.
  assert (Ht : truthy_str (String_ (a_id a)) = true)
    by (unfold truthy_str; now rewrite String_id_nonempty).
  rewrite Ht.
  rewrite (Number_String _ (exact_id_inv _ Hid)).
  destruct (_ && _); [reflexivity|]. destruct a; reflexivity.
Qed.

Lemma map_rows_of (l : list Athlete) (i : nat) (clock : nat -> Date * Z) :
  Forall (fun a => plain_athlete a = true /\ exact_id (a_id a) = true) l ->
  exists mapped,
    map_rows (map row_of l) i clock = Some mapped /\
    forall a, a ∈ mapped -> a ∈ l.
Proof.
  intros Hl. revert i. induction Hl as [|a l [Hp Hid] Hl IH]; intros i.
  - exists []. split; [reflexivity|]. intros a Ha. exact Ha.
  - destruct (IH (S i)) as (mapped & Hm & Hin).
    cbn [map map_rows]. rewrite (map_row_of a (clock i) Hp Hid), Hm.
    destruct (_ && _).
    + exists mapped. split; [reflexivity|].
      intros b Hb. apply list_elem_of_further. now apply Hin.
    + exists (a :: mapped). split; [reflexivity|].
      intros b Hb. apply elem_of_cons in Hb as [->|Hb].
      * apply list_elem_of_here.
      * apply list_elem_of_further. now apply Hin.
Qed.

(** C4, as the code has it.  For every roster whose ids are pairwise
    distinct and are [NaN] or integers that a double holds exactly, and whose
    text fields are trimmed and hold no line break, exporting the roster to
    CSV and importing that text gives the same roster, record for record,
    and leaves the document as it was. *)
Theorem csv_round_trip (clock : nat -> Date * Z) (s : State) :
  NoDup (map a_id (roster s)) ->
  Forall (fun a => plain_athlete a = true /\ exact_id (a_id a) = true) (roster s) ->
  exists s',
    importRosterCSV (Some (exportRosterCSV s)) clock s = Done s' /\
    roster s' = roster s /\
    document s' = document s /\
    persisted s'.
Proof.
  intros Hnd Hl. unfold importRosterCSV, exportRosterCSV.
  rewrite fromCSV_toCSV by (eapply Forall_impl; [exact Hl | now intros a [? ?]]).
  cbn [rows].
  destruct (map_rows_of (roster s) 0 clock Hl) as (mapped & -> & Hin).
  rewrite (merge_same (roster s) mapped Hnd Hin).
  eexists. split; [reflexivity|].
  destruct (selected _).
  - match goal with |- context [selectTimestamp ?i ?x] =>
      destruct (selectTimestamp_frame i x) as (Hd & Hls & _ & _ & Hr) end.
    unfold persisted. rewrite Hd, Hls, Hr. by repeat split.
  - by repeat split.
Qed.

Lemma csv_round_trip_witness :
  exists s',
    importRosterCSV (Some (exportRosterCSV quoted_names)) a_clock quoted_names
      = Done s' /\
    roster s' = roster quoted_names /\
    document s' = document quoted_names /\
    persisted s'.
Proof.
  apply (csv_round_trip a_clock quoted_names).
  - apply (bool_decide_unpack _). vm_compute. exact I.
  - apply (bool_decide_unpack _). vm_compute. exact I.
Defined.

(** C4 as stated fails: a name that holds a line break is quoted by the
    export, but the import splits the text into lines before it looks at
    quotes, so the record comes back with its first name cut and its last
    name empty. *)
Lemma csv_round_trip_breaks_lines :
  NoDup (map a_id (roster two_line_name)) /\
  exists s',
    importRosterCSV (Some (exportRosterCSV two_line_name)) a_clock two_line_name
      = Done s' /\
    roster s' = [mkAthlete (Num 5) "Ann" EmptyString EmptyString EmptyString EmptyString] /\
    roster s' <> roster two_line_name.
Proof.
  split; [apply (bool_decide_unpack _); vm_compute; exact I|].
  eexists. split; [vm_compute; reflexivity|].
  split; [reflexivity | discriminate].
Qed.

(** Leading and trailing white space of a field is lost as well. *)
Example csv_round_trip_trims :
  exists s',
    importRosterCSV (Some (exportRosterCSV padded_name)) a_clock padded_name
      = Done s' /\
    roster s' = [mkAthlete (Num 5) "Ann" "Lee" EmptyString EmptyString EmptyString].
Proof. eexists. split; [vm_compute; reflexivity | reflexivity]. Qed.

End CsvImport.

(** ** Roster import: what the merge does to the roster *)

Section ImportMerge.

Lemma map_set_keyed (b : Athlete) (l : list Athlete) :
  map_set (a_id b) b (map (fun a => (a_id a, a)) l)
  = map (fun a => (a_id a, a)) (upsert b l).
Proof.
  induction l as [|a l IH]; [reflexivity|].
  cbn [map map_set upsert].
  destruct (same_value_zero (a_id a) (a_id b)) eqn:E.
  - apply same_value_zero_eq in E. cbn [map]. now rewrite E.
  - cbn [map]. now rewrite IH.
Qed.

Lemma map_set_all_keyed (mapped l : list Athlete) :
  map_set_all a_id mapped (map (fun a => (a_id a, a)) l)
  = map (fun a => (a_id a, a)) (foldl (fun l b => upsert b l) l mapped).
Proof.
  revert l. induction mapped as [|b mapped IH]; intros l; [reflexivity|].
  unfold map_set_all in *. cbn [foldl]. rewrite map_set_keyed. apply IH.
Qed.

(** On a roster with pairwise distinct ids, the merge through the [Map] puts
    the imported records into the roster one by one. *)
Lemma merge_by_id_upsert (old mapped : list Athlete) :
  NoDup (map a_id old) ->
  merge_by_id old mapped = foldl (fun l b => upsert b l) old mapped.
Proof.
  intros Hnd. unfold merge_by_id.
  rewrite (roster_map old Hnd), map_set_all_keyed. apply snd_keyed.
Qed.

Lemma upsert_in_place (l : list Athlete) (i : nat) (a b : Athlete) :
  NoDup (map a_id l) -> l !! i = Some a -> a_id b = a_id a ->
  upsert b l = <[i := b]> l.
Proof.
  intros Hnd Hi Hid.
  rewrite <- (merge_overwrites_in_place l i a b Hnd Hi Hid).
  now rewrite (merge_by_id_upsert l [b] Hnd).
Qed.

(** What the roster import does as specified.  It skips every row in which
    no first-name and no last-name column, under any accepted header, is
    populated.  A kept row has such a column; its id is a generated one when
    the id cell is absent or blank, and otherwise [Number] of the cell.  On a
    roster with pairwise distinct ids the kept rows are put into the roster
    one by one, and a row whose id equals the id of a roster entry overwrites
    that entry in place.  The result is persisted. *)
Theorem roster_import_merges_by_id (text : string) (clock : nat -> Date * Z)
    (s : State) (mapped : list Athlete) :
  NoDup (map a_id (roster s)) ->
  map_rows (rows (fromCSV text)) 0 clock = Some mapped ->
  (exists s',
      importRosterCSV (Some text) clock s = Done s' /\
      roster s' = foldl (fun l b => upsert b l) (roster s) mapped /\
      persisted s') /\
  (forall r c,
      (forall h, h ∈ name_headers -> cell r h = EmptyString) ->
      map_row r c = Some None) /\
  (forall r now rnd a,
      map_row r (now, rnd) = Some (Some a) ->
      (exists h, h ∈ name_headers /\ cell r h <> EmptyString) /\
      (cell r "id" = EmptyString -> uidNumeric now rnd = Some (a_id a)) /\
      (cell r "id" <> EmptyString -> Number_ (cell r "id") = Some (a_id a))) /\
  (forall l i a b,
      NoDup (map a_id l) -> l !! i = Some a -> a_id b = a_id a ->
      upsert b l = <[i := b]> l).
Proof.
  intros Hnd Hrows. split; [|split; [|split]].
  - unfold importRosterCSV. rewrite Hrows.
    eexists. split; [reflexivity|].
    rewrite <- (merge_by_id_upsert _ _ Hnd).
    destruct (selected _).
    + match goal with |- context [selectTimestamp ?i ?x] =>
        destruct (selectTimestamp_frame i x) as (Hd & Hls & _ & _ & Hr) end.
      unfold persisted. rewrite Hd, Hls, Hr. by split.
    + by split.
  - apply map_row_skips.
  - intros r now rnd a Ha. split; [now apply (map_row_kept r (now, rnd) a)|].
    split.
    + intros Hid. revert Ha. unfold cell in Hid. unfold map_row. rewrite Hid.
      cbn [truthy_str is_empty negb fst snd].
      destruct (_ && _); [discriminate|].
      destruct (uidNumeric now rnd) as [n|]; [|discriminate].
      now intros [= <-].
    + intros Hid. now apply (map_row_reads_id r (now, rnd) a).
  - apply upsert_in_place.
Qed.

Lemma roster_import_merges_by_id_witness :
  exists s',
    importRosterCSV (Some three_rows) a_clock two_athletes = Done s' /\
    roster s' =
      foldl (fun l b => upsert b l) (roster two_athletes)
        [mkAthlete (Num 6) "Rob" "Roy" EmptyString EmptyString EmptyString;
         mkAthlete (Num 261101120000123) "New" "Guy" EmptyString EmptyString EmptyString] /\
    persisted s'.
Proof.
  apply (roster_import_merges_by_id three_rows a_clock two_athletes).
  - apply (bool_decide_unpack _). vm_compute. exact I.
  - vm_compute. reflexivity.
Defined.

(** The roster after the import of the three rows: the second entry is
    overwritten in place, the row without an id is appended with a generated
    id, and the row without a name is skipped. *)
Example roster_import_three_rows :
  exists s',
    importRosterCSV (Some three_rows) a_clock two_athletes = Done s' /\
    roster s' =
      [mkAthlete (Num 5) "Ann" "Lee" "WR" "12" "Blue";
       mkAthlete (Num 6) "Rob" "Roy" EmptyString EmptyString EmptyString;
       mkAthlete (Num 261101120000123) "New" "Guy" EmptyString EmptyString EmptyString].
Proof. eexists. split; [vm_compute; reflexivity | reflexivity]. Qed.

End ImportMerge.

(** ** Examples from the specification *)

Section Examples.

Example fmtTime_examples :
  fmtTime 65 = "1:05" /\ fmtTime 0 = "0:00" /\ fmtTime (-3) = "0:00".
Proof. by repeat split. Qed.

Example parseYouTubeId_examples :
  parseYouTubeId (Some (mkURL "youtu.be" "/abc123" None)) = "abc123" /\
  parseYouTubeId (Some (mkURL "x.com" "/watch" (Some "abc123"))) = "abc123" /\
  parseYouTubeId (Some (mkURL "x.com" "/embed/abc123" None)) = "abc123" /\
  parseYouTubeId (Some (mkURL "x.com" "/about" None)) = EmptyString /\
  parseYouTubeId None = EmptyString.
Proof. by repeat split. Qed.

Example uidNumeric_example :
  uidNumeric (mkDate 2026 10 1 9 5 7) 42 = Some (Num 261101090507042).
Proof. vm_compute. reflexivity. Qed.

End Examples.

(** * Further properties *)

(** ** Trimming, lower case and the search filter *)

Section Trim.

Lemma trimStart_no_lead (s : string) : no_lead (trimStart s).
Proof.
  induction s as [|c s IH]; [exact I|].
  cbn [trimStart]. destruct (is_ws c) eqn:E; [exact IH | exact E].
Qed.

Lemma trimStart_id (s : string) : no_lead s -> trimStart s = s.
Proof. destruct s as [|c s]; [reflexivity|]. cbn. now intros ->. Qed.

Lemma trimEnd_no_lead (s : string) : no_lead s -> no_lead (trimEnd s).
Proof.
  destruct s as [|c s]; [intros _; exact I|].
  cbn [no_lead trimEnd]. intros Hc. rewrite Hc. exact Hc.
Qed.

Lemma trimEnd_idem (s : string) : trimEnd (trimEnd s) = trimEnd s.
Proof.
  induction s as [|c s IH]; [reflexivity|].
  cbn [trimEnd]. destruct (is_ws c && is_empty (trimEnd s)) eqn:E; [reflexivity|].
  cbn [trimEnd]. rewrite IH, E. reflexivity.
Qed.

Lemma trim_idem (s : string) : trim (trim s) = trim s.
Proof.
  unfold trim.
  rewrite (trimStart_id (trimEnd (trimStart s)))
    by apply trimEnd_no_lead, trimStart_no_lead.
  apply trimEnd_idem.
Qed.

Lemma has_char_trimStart (c : ascii) (s : string) :
  has_char c s = false -> has_char c (trimStart s) = false.
Proof.
  induction s as [|d s IH]; [reflexivity|].
  intros H. cbn [trimStart]. destruct (is_ws d); [|exact H].
  cbn [has_char] in H. apply orb_false_iff in H as [_ H]. now apply IH.
Qed.

Lemma has_char_trimEnd (c : ascii) (s : string) :
  has_char c s = false -> has_char c (trimEnd s) = false.
Proof.
  induction s as [|d s IH]; [reflexivity|].
  intros H. cbn [has_char] in H. apply orb_false_iff in H as [Hd H].
  cbn [trimEnd]. destruct (_ && _); [reflexivity|].
  cbn [has_char]. now rewrite Hd, IH.
Qed.

Lemma has_char_trim (c : ascii) (s : string) :
  has_char c s = false -> has_char c (trim s) = false.
Proof. intros H. now apply has_char_trimEnd, has_char_trimStart. Qed.

Lemma lower_char_ws (c : ascii) : is_ws (lower_char c) = is_ws c.
Proof. destruct c as [[] [] [] [] [] [] [] []]; reflexivity. Qed.

Lemma lower_char_idem (c : ascii) : lower_char (lower_char c) = lower_char c.
Proof. destruct c as [[] [] [] [] [] [] [] []]; reflexivity. Qed.

Lemma toLowerCase_idem (s : string) : toLowerCase (toLowerCase s) = toLowerCase s.
Proof.
  induction s as [|c s IH]; [reflexivity|].
  cbn [toLowerCase]. now rewrite lower_char_idem, IH.
Qed.

Lemma toLowerCase_empty (s : string) : is_empty (toLowerCase s) = is_empty s.
Proof. destruct s; reflexivity. Qed.

Lemma trimStart_lower (s : string) :
  trimStart (toLowerCase s) = toLowerCase (trimStart s).
Proof.
  induction s as [|c s IH]; [reflexivity|].
  cbn [toLowerCase trimStart]. rewrite lower_char_ws.
  destruct (is_ws c); [exact IH | reflexivity].
Qed.

Lemma trimEnd_lower (s : string) :
  trimEnd (toLowerCase s) = toLowerCase (trimEnd s).
Proof.
  induction s as [|c s IH]; [reflexivity|].
  cbn [toLowerCase trimEnd]. rewrite lower_char_ws, IH, toLowerCase_empty.
  destruct (_ && _); reflexivity.
Qed.

Lemma trim_lower (s : string) : trim (toLowerCase s) = toLowerCase (trim s).
Proof. unfold trim. now rewrite trimStart_lower, trimEnd_lower. Qed.

End Trim.

Section Search.

(** X1.  [norm] is idempotent: a text that was normalised (trimmed and put
    in lower case) is not changed by normalising it again. *)
Theorem norm_idempotent (s : string) : norm (norm s) = norm s.
Proof.
  unfold norm. now rewrite trim_lower, trim_idem, toLowerCase_idem.
Qed.

Lemma prefix_app (q y z : string) :
  String.prefix q y = true -> String.prefix q (y +:+ z) = true.
Proof.
  revert y. induction q as [|a q IH]; intros y H;
    [destruct (y +:+ z); reflexivity|].
  destruct y as [|b y]; [discriminate|].
  cbn [String.append]. cbn [String.prefix] in *.
  destruct (ascii_dec a b); [now apply IH | discriminate].
Qed.

Lemma includes_unfold (q y : string) :
  includes q y = String.prefix q y ||
                 match y with EmptyString => false | String _ r => includes q r end.
Proof. destruct y; reflexivity. Qed.

Lemma includes_app_r (q y z : string) :
  includes q y = true -> includes q (y +:+ z) = true.
Proof.
  induction y as [|c y IH]; intros H.
  - rewrite includes_unfold in H. rewrite orb_false_r in H.
    rewrite includes_unfold. apply orb_true_iff. left. now apply (prefix_app q EmptyString z).
  - rewrite includes_unfold in H. apply orb_true_iff in H as [H|H].
    + rewrite includes_unfold. apply orb_true_iff. left. now apply prefix_app.
    + cbn [String.append]. rewrite includes_unfold. apply orb_true_iff. right.
      now apply IH.
Qed.

Lemma includes_app_l (q x y : string) :
  includes q y = true -> includes q (x +:+ y) = true.
Proof.
  intros H. induction x as [|c x IH]; [exact H|].
  cbn [String.append]. rewrite includes_unfold. apply orb_true_iff. now right.
Qed.

Lemma includes_middle (q x y z : string) :
  includes q y = true -> includes q (x +:+ y +:+ z) = true.
Proof. intros H. now apply includes_app_l, includes_app_r. Qed.

Lemma rosterMatches_own_field (typed f : string) (a : Athlete) :
  f ∈ [first a; last a; position a; jersey a; team a] ->
  includes (norm typed) (norm f) = true \/ trim typed = EmptyString ->
  rosterMatches typed a = true.
Proof.
  intros Hf [Hin|Hblank]; unfold rosterMatches; apply orb_true_iff;
    [right | left; unfold norm; now rewrite Hblank].
  unfold rosterSearchIndex. cbn [String.concat].
  rewrite !elem_of_cons in Hf. rewrite elem_of_nil in Hf.
  destruct Hf as [->|[->|[->|[->|[->|[]]]]]].
  - apply includes_app_l, (includes_app_l _ " "). now apply includes_app_r.
  - do 2 apply includes_app_l, (includes_app_l _ " "). now apply includes_app_r.
  - do 3 apply includes_app_l, (includes_app_l _ " "). now apply includes_app_r.
  - do 4 apply includes_app_l, (includes_app_l _ " "). now apply includes_app_r.
  - do 5 apply includes_app_l, (includes_app_l _ " "). exact Hin.
Qed.

Lemma filter_length_Permutation {A : Type} (f : A -> bool) (l l' : list A) :
  l ≡ₚ l' -> length (List.filter f l) = length (List.filter f l').
Proof.
  induction 1 as [|x l l' _ IH|x y l|l l' l'' _ IH1 _ IH2].
  - reflexivity.
  - cbn. destruct (f x); cbn; now rewrite IH.
  - cbn. destruct (f x), (f y); reflexivity.
  - now rewrite IH1.
Qed.

Lemma elem_of_filter_sorted (sort : list Athlete -> list Athlete)
    (f : Athlete -> bool) (l : list Athlete) (a : Athlete) :
  (forall l, sort l ≡ₚ l) ->
  a ∈ List.filter f (sort l) <-> a ∈ l /\ f a = true.
Proof.
  intros Hsort. rewrite !list_elem_of_In, filter_In.
  split; intros [Hin Hf]; (split; [|exact Hf]).
  - now apply (Permutation_in _ (Hsort l)).
  - now apply (Permutation_in _ (Permutation_sym (Hsort l))).
Qed.

(** X2.  The roster table shows an athlete of the roster whenever what was
    typed into its search box, trimmed and in lower case, occurs in one of
    the athlete's five text fields, trimmed and in lower case; a blank search
    box shows every athlete.  The athlete search of the tagging panel filters
    in the same way and then shows the first 30 rows only: it shows such an
    athlete when at most 30 athletes of the roster match, it never shows more
    than 30 rows, and every row it shows is a row that the roster table shows
    for the same search text. *)
Theorem search_finds_own_field (sort_last sort_jersey : list Athlete -> list Athlete)
    (typed f : string) (a : Athlete) (s : State) :
  (forall l, sort_last l ≡ₚ l) -> (forall l, sort_jersey l ≡ₚ l) ->
  a ∈ roster s ->
  f ∈ [first a; last a; position a; jersey a; team a] ->
  includes (norm typed) (norm f) = true \/ trim typed = EmptyString ->
  a ∈ rosterRows sort_last typed s /\
  ((length (List.filter (rosterMatches typed) (roster s)) <= 30)%nat ->
   a ∈ athleteRows sort_jersey typed s) /\
  (length (athleteRows sort_jersey typed s) <= 30)%nat /\
  (forall b, b ∈ athleteRows sort_jersey typed s -> b ∈ rosterRows sort_last typed s).
Proof.
  intros Hl Hj Ha Hf Hq.
  pose proof (rosterMatches_own_field typed f a Hf Hq) as Hm.
  unfold rosterRows, athleteRows. split; [|split; [|split]].
  - now apply elem_of_filter_sorted.
  - intros Hlen. destruct (roster s) as [|a0 l] eqn:E; [now apply elem_of_nil in Ha|].
    rewrite take_ge.
    + now apply elem_of_filter_sorted.
    + now rewrite (filter_length_Permutation _ _ _ (Hj (a0 :: l))).
  - destruct (roster s); [cbn; lia|]. rewrite length_take. lia.
  - intros b Hb. destruct (roster s) as [|a0 l] eqn:E; [now apply elem_of_nil in Hb|].
    apply subseteq_take in Hb.
    apply (elem_of_filter_sorted _ _ _ _ Hj) in Hb.
    now apply elem_of_filter_sorted.
Qed.

Lemma search_finds_own_field_witness :
  mkAthlete (Num 6) "Bob" "Ray" "QB" "7" "Blue"
    ∈ rosterRows (fun l => l) "  RAY " two_athletes /\
  ((length (List.filter (rosterMatches "  RAY ") (roster two_athletes)) <= 30)%nat ->
   mkAthlete (Num 6) "Bob" "Ray" "QB" "7" "Blue"
     ∈ athleteRows (fun l => l) "  RAY " two_athletes) /\
  (length (athleteRows (fun l => l) "  RAY " two_athletes) <= 30)%nat /\
  (forall b, b ∈ athleteRows (fun l => l) "  RAY " two_athletes ->
             b ∈ rosterRows (fun l => l) "  RAY " two_athletes).
Proof.
  apply (search_finds_own_field (fun l => l) (fun l => l) "  RAY " "Ray"
           (mkAthlete (Num 6) "Bob" "Ray" "QB" "7" "Blue") two_athletes).
  - intros l. reflexivity.
  - intros l. reflexivity.
  - apply (bool_decide_unpack _). vm_compute. exact I.
  - apply (bool_decide_unpack _). vm_compute. exact I.
  - left. vm_compute. reflexivity.
Defined.

(** The rows for that search text on the roster of two, and the cut at 30
    rows on a roster of 31 athletes who all match. *)
Example search_rows :
  rosterRows (fun l => l) "  RAY " two_athletes
    = [mkAthlete (Num 6) "Bob" "Ray" "QB" "7" "Blue"] /\
  athleteRows (fun l => l) "  RAY " two_athletes
    = [mkAthlete (Num 6) "Bob" "Ray" "QB" "7" "Blue"] /\
  length (rosterRows (fun l => l) "ray"
            (set_roster (repeat (mkAthlete (Num 6) "Bob" "Ray" "QB" "7" "Blue") 31)
               two_athletes)) = 31%nat /\
  length (athleteRows (fun l => l) "ray"
            (set_roster (repeat (mkAthlete (Num 6) "Bob" "Ray" "QB" "7" "Blue") 31)
               two_athletes)) = 30%nat.
Proof. repeat split; vm_compute; reflexivity. Qed.

End Search.

(** ** Escaping for HTML *)

Section Html.

(** X3.  The text that [escapeHtml] returns holds no angle bracket, no double
    quote and no apostrophe, so it cannot open a tag or end an attribute; a
    text without the five replaced characters is returned as it is. *)
Theorem escapeHtml_safe (s : string) :
  (forall c, c ∈ ["<"%char; ">"%char; dquote; "'"%char] ->
             has_char c (escapeHtml s) = false) /\
  (all_chars (fun c => negb (html_special c)) s = true -> escapeHtml s = s).
Proof.
  split.
  - intros c Hc. induction s as [|d s IH]; [reflexivity|].
    cbn [escapeHtml]. rewrite has_char_app, IH, orb_false_r.
    rewrite !elem_of_cons in Hc. rewrite elem_of_nil in Hc.
    destruct (Ascii.eqb_spec d "&"); [destruct Hc as [->|[->|[->|[->|[]]]]]; reflexivity|].
    destruct (Ascii.eqb_spec d "<"); [destruct Hc as [->|[->|[->|[->|[]]]]]; reflexivity|].
    destruct (Ascii.eqb_spec d ">"); [destruct Hc as [->|[->|[->|[->|[]]]]]; reflexivity|].
    destruct (Ascii.eqb_spec d dquote); [destruct Hc as [->|[->|[->|[->|[]]]]]; reflexivity|].
    destruct (Ascii.eqb_spec d "'"); [destruct Hc as [->|[->|[->|[->|[]]]]]; reflexivity|].
    cbn [has_char]. rewrite orb_false_r. apply Ascii.eqb_neq.
    destruct Hc as [->|[->|[->|[->|[]]]]]; congruence.
  - induction s as [|d s IH]; [reflexivity|].
    cbn [all_chars escapeHtml]. intros H. apply andb_true_iff in H as [Hd Hs].
    rewrite (IH Hs). apply negb_true_iff in Hd. unfold html_special in Hd.
    cbn [has_char] in Hd. rewrite !orb_false_iff in Hd.
    destruct Hd as [(H1 & H2 & H3 & H4 & _) H5].
    now rewrite H1, H2, H3, H5, H4.
Qed.

End Html.

(** ** Time labels and video identifiers *)

Section Labels.

Lemma digits_colon_split (s1 s2 t1 t2 : string) :
  all_chars is_digit s1 = true -> all_chars is_digit s2 = true ->
  s1 +:+ String ":" t1 = s2 +:+ String ":" t2 ->
  s1 = s2 /\ t1 = t2.
Proof.
  revert s2. induction s1 as [|c s1 IH]; intros s2 H1 H2 Heq.
  - destruct s2 as [|d s2]; cbn [String.append] in Heq.
    + injection Heq as ->. now split.
    + injection Heq as <- _. cbn [all_chars] in H2.
      apply andb_true_iff in H2 as [H2 _]. discriminate.
  - destruct s2 as [|d s2]; cbn [String.append] in Heq.
    + injection Heq as -> _. cbn [all_chars] in H1.
      apply andb_true_iff in H1 as [H1 _]. discriminate.
    + injection Heq as -> Heq. cbn [all_chars] in H1, H2.
      apply andb_true_iff in H1 as [_ H1]. apply andb_true_iff in H2 as [_ H2].
      destruct (IH s2 H1 H2 Heq) as [-> ->]. now split.
Qed.

Lemma fmtTime_shape (sec : Z) :
  fmtTime sec
  = dec_string (Z.max 0 sec / 60) +:+ String ":" (two_digits (Z.max 0 sec mod 60)).
Proof.
  unfold fmtTime.
  assert (Hm : 0 <= Z.max 0 sec / 60) by (apply Z.div_pos; lia).
  assert (Hs : 0 <= Z.max 0 sec mod 60 < 60) by (apply Z.mod_pos_bound; lia).
  unfold String_Z at 1. destruct (Z.ltb_spec (Z.max 0 sec / 60) 0); [lia|].
  change (padStart0 2 (String_Z ?n)) with (pad n 2).
  rewrite pad2_two_digits by lia. reflexivity.
Qed.

(** X4.  [fmtTime] shows two times alike exactly when they are the same
    number of seconds after clamping at zero: every negative time reads as
    zero, and different non-negative times get different labels. *)
Theorem fmtTime_injective (a b : Z) :
  fmtTime a = fmtTime b <-> Z.max 0 a = Z.max 0 b.
Proof.
  split.
  - rewrite !fmtTime_shape. intros Heq.
    apply digits_colon_split in Heq as [Hm Hs];
      [|apply dec_string_all_digits|apply dec_string_all_digits].
    assert (Ha : 0 <= Z.max 0 a mod 60 < 60) by (apply Z.mod_pos_bound; lia).
    assert (Hb : 0 <= Z.max 0 b mod 60 < 60) by (apply Z.mod_pos_bound; lia).
    apply (f_equal (dec_val 0)) in Hm, Hs.
    rewrite !dec_string_val in Hm by (apply Z.div_pos; lia).
    rewrite !two_digits_val in Hs by lia.
    pose proof (Z.div_mod (Z.max 0 a) 60). pose proof (Z.div_mod (Z.max 0 b) 60).
    lia.
  - unfold fmtTime. now intros ->.
Qed.

(** X5.  [parseYouTubeId] reads the id from the three shapes of URL: on a
    short-link host (a host name that contains [youtu.be]) the id is the path
    without its leading slash, whatever the query holds; elsewhere the [v]
    parameter is the id, whatever the path is; and without a [v] parameter
    the id is the path segment after [embed]. *)
Theorem parseYouTubeId_shapes (host vid : string) (v : option string) :
  truthy_str vid = true -> has_char "/" vid = false ->
  (includes "youtu.be" host = true ->
   parseYouTubeId (Some (mkURL host ("/" +:+ vid) v)) = vid) /\
  (includes "youtu.be" host = false ->
   forall path, parseYouTubeId (Some (mkURL host path (Some vid))) = vid) /\
  (includes "youtu.be" host = false ->
   truthy_str (default EmptyString v) = false ->
   parseYouTubeId (Some (mkURL host ("/embed/" +:+ vid) v)) = vid).
Proof.
  intros Hid Hslash. unfold parseYouTubeId.
  cbn [hostname pathname searchParams_v]. repeat split.
  - intros ->. reflexivity.
  - intros -> path. cbn [default from_option id]. now rewrite Hid.
  - intros -> ->.
    assert (Hsplit : split_on "/" ("/embed/" +:+ vid) EmptyString
                     = [EmptyString; "embed"; vid]).
    { change ("/embed/" +:+ vid) with (String "/" ("embed" +:+ String "/" vid)).
      cbn [split_on]. rewrite Ascii.eqb_refl. f_equal.
      rewrite split_on_line by reflexivity.
      cbn [split_on String.append]. rewrite Ascii.eqb_refl. f_equal.
      rewrite <- (append_nil_r vid) at 1.
      rewrite split_on_line by exact Hslash. reflexivity. }
    rewrite Hsplit. cbn [List.filter truthy_str is_empty negb]. rewrite Hid.
    cbn. now rewrite Hid.
Qed.

Lemma parseYouTubeId_shapes_witness :
  parseYouTubeId (Some (mkURL "www.youtube.com" "/embed/abc123" None)) = "abc123".
Proof.
  apply (parseYouTubeId_shapes "www.youtube.com" "abc123" None);
    reflexivity.
Defined.

End Labels.

(** ** Reading CSV text *)

Section CsvReading.

Lemma crlf_to_lf_crlf (t : string) :
  has_char CR t = false -> crlf_to_lf (lf_to_crlf t) = t.
Proof.
  induction t as [|c r IH]; intros H; [reflexivity|].
  cbn [has_char] in H. apply orb_false_iff in H as [Hc Hr].
  specialize (IH Hr). cbn [lf_to_crlf].
  destruct (Ascii.eqb_spec c LF) as [->|Hlf].
  - cbn [crlf_to_lf]. rewrite !Ascii.eqb_refl. cbn [andb]. now rewrite IH.
  - cbn [crlf_to_lf]. destruct (lf_to_crlf r) as [|c' r'] eqn:E.
    + cbn in IH. now subst r.
    + rewrite ascii_eqb_sym in Hc. rewrite Hc. cbn [andb]. now rewrite IH.
Qed.

Lemma crlf_to_lf_no_lf (s : string) : has_char LF s = false -> crlf_to_lf s = s.
Proof.
  induction s as [|c r IH]; intros H; [reflexivity|].
  cbn [has_char] in H. apply orb_false_iff in H as [_ Hr].
  cbn [crlf_to_lf]. destruct r as [|c' r']; [reflexivity|].
  assert (Hc' : Ascii.eqb c' LF = false).
  { cbn [has_char] in Hr. apply orb_false_iff in Hr as [Hc' _].
    now rewrite ascii_eqb_sym. }
  rewrite Hc', andb_false_r. now rewrite IH.
Qed.

Lemma lf_to_cr_no_lf (t : string) : has_char LF (lf_to_cr t) = false.
Proof.
  induction t as [|c r IH]; [reflexivity|].
  cbn [lf_to_cr has_char]. rewrite IH, orb_false_r.
  destruct (Ascii.eqb_spec c LF) as [->|Hc]; [reflexivity|].
  apply Ascii.eqb_neq. congruence.
Qed.

Lemma cr_to_lf_cr (t : string) :
  has_char CR t = false -> cr_to_lf (lf_to_cr t) = t.
Proof.
  induction t as [|c r IH]; intros H; [reflexivity|].
  cbn [has_char] in H. apply orb_false_iff in H as [Hc Hr].
  cbn [lf_to_cr cr_to_lf]. rewrite (IH Hr).
  destruct (Ascii.eqb_spec c LF) as [->|Hlf]; [reflexivity|].
  rewrite ascii_eqb_sym in Hc. now rewrite Hc.
Qed.

(** X6.  The three kinds of line end are read alike: a text whose lines end
    in CR LF, or in a lone CR, gives the same headers and rows as the text
    with LF line ends. *)
Theorem fromCSV_line_ends (text : string) :
  has_char CR text = false ->
  fromCSV (lf_to_crlf text) = fromCSV text /\
  fromCSV (lf_to_cr text) = fromCSV text.
Proof.
  intros H. unfold fromCSV.
  rewrite (crlf_to_lf_crlf text H).
  rewrite (crlf_to_lf_no_lf (lf_to_cr text) (lf_to_cr_no_lf text)).
  rewrite (cr_to_lf_cr text H).
  rewrite (crlf_to_lf_id text H), (cr_to_lf_id text H).
  now split.
Qed.

Lemma fromCSV_line_ends_witness :
  fromCSV (lf_to_crlf three_rows) = fromCSV three_rows /\
  fromCSV (lf_to_cr three_rows) = fromCSV three_rows.
Proof. apply (fromCSV_line_ends three_rows). reflexivity. Defined.

Lemma parse_go_no_quotes (line cur : string) (cells : list string) :
  has_char dquote line = false ->
  parse_go line cells cur false = (cells ++ split_on comma line cur)%list.
Proof.
  revert cells cur. induction line as [|ch rest IH]; intros cells cur H;
    [reflexivity|].
  cbn [has_char] in H. apply orb_false_iff in H as [Hq Hrest].
  rewrite ascii_eqb_sym in Hq. cbn [parse_go split_on]. rewrite Hq.
  destruct (Ascii.eqb ch comma); cbn [andb negb].
  - rewrite IH by assumption. now rewrite <- app_assoc.
  - now apply IH.
Qed.

(** X7.  On a line without double quotes [parseLine] is the split at every
    comma, with every cell trimmed. *)
Theorem parseLine_without_quotes (line : string) :
  has_char dquote line = false ->
  parseLine line = map trim (split_on comma line EmptyString).
Proof.
  intros H. unfold parseLine. now rewrite parse_go_no_quotes.
Qed.

Lemma parseLine_without_quotes_witness :
  parseLine " 7 , Ann,,Lee " = ["7"; "Ann"; EmptyString; "Lee"].
Proof. apply (parseLine_without_quotes " 7 , Ann,,Lee "). reflexivity. Defined.

(** X8.  A line that [toCSV] writes is read back by [parseLine] cell by cell,
    whatever the fields hold (commas, double quotes, line breaks), up to the
    trimming of each cell. *)
Theorem parseLine_reads_escaped_line (f : string) (fs : list string) :
  parseLine (String.concat "," (map esc (f :: fs))) = map trim (f :: fs).
Proof. unfold parseLine. now rewrite parse_fields. Qed.

Lemma lookup_assign_eq (h v : string) (row : gmap string string) :
  h <> proto_name -> assign h v row !! h = Some v.
Proof.
  intros Hne. unfold assign. apply String.eqb_neq in Hne. rewrite Hne.
  apply lookup_insert_eq.
Qed.

Lemma lookup_assign_ne (h h' v : string) (row : gmap string string) :
  h <> h' -> assign h v row !! h' = row !! h'.
Proof.
  intros Hne. unfold assign. destruct (String.eqb h proto_name); [reflexivity|].
  now apply lookup_insert_ne.
Qed.

Lemma lookup_assign_proto (h v : string) (row : gmap string string) :
  assign h v row !! proto_name = row !! proto_name.
Proof.
  unfold assign. destruct (String.eqb_spec h proto_name) as [_|Hne]; [reflexivity|].
  now apply lookup_insert_ne.
Qed.

Lemma fill_row_other (hs : list string) (k : nat) (cells : list string)
    (row : gmap string string) (h : string) :
  h ∉ hs -> fill_row hs k cells row !! h = row !! h.
Proof.
  revert k row. induction hs as [|h0 hs IH]; intros k row Hh; [reflexivity|].
  apply not_elem_of_cons in Hh as [Hne Hh].
  cbn [fill_row]. rewrite IH by assumption. now rewrite lookup_assign_ne.
Qed.

Lemma fill_row_proto (hs : list string) (k : nat) (cells : list string)
    (row : gmap string string) :
  fill_row hs k cells row !! proto_name = row !! proto_name.
Proof.
  revert k row. induction hs as [|h0 hs IH]; intros k row; [reflexivity|].
  cbn [fill_row]. rewrite IH. apply lookup_assign_proto.
Qed.

Lemma fill_row_at (hs : list string) (k i : nat) (cells : list string)
    (row : gmap string string) (h : string) :
  NoDup hs -> hs !! i = Some h -> h <> proto_name ->
  fill_row hs k cells row !! h = Some (default EmptyString (cells !! (k + i)%nat)).
Proof.
  revert k i row. induction hs as [|h0 hs IH]; intros k i row Hnd Hi Hp;
    [discriminate|].
  apply NoDup_cons in Hnd as [Hnotin Hnd]. cbn [fill_row].
  destruct i as [|i]; cbn in Hi.
  - injection Hi as ->. rewrite fill_row_other by assumption.
    rewrite lookup_assign_eq by assumption. now rewrite Nat.add_0_r.
  - rewrite (IH (S k) i _ Hnd Hi Hp). do 3 f_equal. lia.
Qed.

(** X9.  The own properties of the row object that [fromCSV] builds for a
    line are the columns of the header line (taken to be pairwise distinct)
    apart from a header [__proto__]: the column of a header at position [i]
    holds the cell at position [i], or the empty string when the line is too
    short; a name that is no header is no property, so cells beyond the last
    header are dropped; and a header [__proto__] gives no property, because
    the assignment to that name reaches the setter of [Object.prototype]. *)
Theorem row_has_header_columns (hs cells : list string) (h : string) :
  NoDup hs ->
  (forall i, hs !! i = Some h -> h <> proto_name ->
     fill_row hs 0 cells ∅ !! h = Some (default EmptyString (cells !! i))) /\
  (h ∉ hs -> fill_row hs 0 cells ∅ !! h = None) /\
  fill_row hs 0 cells ∅ !! proto_name = None.
Proof.
  intros Hnd. split; [|split].
  - intros i Hi Hp. now rewrite (fill_row_at hs 0 i cells ∅ h Hnd Hi Hp).
  - intros Hh. now rewrite fill_row_other.
  - now rewrite fill_row_proto.
Qed.

Lemma row_has_header_columns_witness :
  (forall i, ["id"; proto_name; "first"; "last"] !! i = Some "last" ->
     "last" <> proto_name ->
     fill_row ["id"; proto_name; "first"; "last"] 0 ["7"; "x"; "Ann"] ∅ !! "last"
     = Some (default EmptyString (["7"; "x"; "Ann"] !! i))) /\
  ("last" ∉ ["id"; proto_name; "first"; "last"] ->
   fill_row ["id"; proto_name; "first"; "last"] 0 ["7"; "x"; "Ann"] ∅ !! "last" = None) /\
  fill_row ["id"; proto_name; "first"; "last"] 0 ["7"; "x"; "Ann"] ∅ !! proto_name = None.
Proof.
  apply (row_has_header_columns ["id"; proto_name; "first"; "last"] ["7"; "x"; "Ann"] "last").
  apply (bool_decide_unpack _). vm_compute. exact I.
Defined.

(** The row of the line [7,x,Ann] under the headers [id], [__proto__],
    [first] and [last]: three properties, the last one empty. *)
Example row_with_proto_header :
  fill_row ["id"; proto_name; "first"; "last"] 0 ["7"; "x"; "Ann"] ∅
  = {[ "id" := "7"; "first" := "Ann"; "last" := EmptyString ]}.
Proof. apply (bool_decide_unpack _). vm_compute. exact I. Qed.

End CsvReading.

(** ** What the roster import stores *)

Section ImportedRecords.

Lemma split_on_has_char (c sep : ascii) (s cur : string) :
  has_char c cur = false -> has_char c s = false \/ c = sep ->
  forall seg, seg ∈ split_on sep s cur -> has_char c seg = false.
Proof.
  revert cur. induction s as [|d r IH]; intros cur Hcur Hs seg Hseg.
  - cbn in Hseg. apply list_elem_of_singleton in Hseg. now subst.
  - cbn [split_on] in Hseg.
    assert (Hr : has_char c r = false \/ c = sep).
    { destruct Hs as [Hs|Hs]; [left|now right].
      cbn [has_char] in Hs. now apply orb_false_iff in Hs as [_ Hs]. }
    destruct (Ascii.eqb_spec d sep) as [->|Hd].
    + apply elem_of_cons in Hseg as [->|Hseg]; [exact Hcur|].
      now apply (IH EmptyString).
    + apply (IH (cur +:+ String d EmptyString)); [|exact Hr|exact Hseg].
      rewrite has_char_app, Hcur. cbn [has_char orb]. rewrite orb_false_r.
      destruct Hs as [Hs|Hs].
      * cbn [has_char] in Hs. now apply orb_false_iff in Hs as [Hs _].
      * subst c. apply Ascii.eqb_neq. congruence.
Qed.

Lemma cr_to_lf_no_cr (s : string) : has_char CR (cr_to_lf s) = false.
Proof.
  induction s as [|c r IH]; [reflexivity|].
  cbn [cr_to_lf has_char]. rewrite IH, orb_false_r.
  destruct (Ascii.eqb_spec c CR) as [->|Hc]; [reflexivity|].
  apply Ascii.eqb_neq. congruence.
Qed.

(** [parseLine] builds its cells from characters of the line and from double
    quotes. *)
Lemma parse_go_has_char (c : ascii) (n : nat) :
  Ascii.eqb c dquote = false ->
  forall (line cur : string) (cells : list string) (inQ : bool),
    (String.length line <= n)%nat ->
    has_char c line = false -> has_char c cur = false ->
    (forall x, x ∈ cells -> has_char c x = false) ->
    forall x, x ∈ parse_go line cells cur inQ -> has_char c x = false.
Proof.
  intros Hq. induction n as [|n IH]; intros line cur cells inQ Hlen Hline Hcur Hcells x Hx.
  - destruct line; [|cbn in Hlen; lia].
    cbn in Hx. apply elem_of_app in Hx as [Hx|Hx]; [now apply Hcells|].
    apply list_elem_of_singleton in Hx. now subst.
  - destruct line as [|ch rest].
    { cbn in Hx. apply elem_of_app in Hx as [Hx|Hx]; [now apply Hcells|].
      apply list_elem_of_singleton in Hx. now subst. }
    cbn [String.length] in Hlen. cbn [has_char] in Hline.
    apply orb_false_iff in Hline as [Hch Hrest].
    assert (Hadd : forall d, Ascii.eqb c d = false ->
              has_char c (cur +:+ String d EmptyString) = false).
    { intros d Hd. rewrite has_char_app, Hcur. cbn [has_char]. now rewrite Hd. }
    assert (Hpush : forall y, y ∈ (cells ++ [cur])%list -> has_char c y = false).
    { intros y Hy. apply elem_of_app in Hy as [Hy|Hy]; [now apply Hcells|].
      apply list_elem_of_singleton in Hy. now subst. }
    cbn [parse_go] in Hx.
    destruct (Ascii.eqb ch dquote).
    + destruct rest as [|ch' rest'].
      * apply (IH EmptyString cur cells (negb inQ)); auto. cbn. lia.
      * destruct (inQ && Ascii.eqb ch' dquote).
        -- apply (IH rest' (cur +:+ String dquote EmptyString) cells inQ); auto.
           ++ cbn [String.length] in Hlen. lia.
           ++ cbn [has_char] in Hrest. now apply orb_false_iff in Hrest as [_ Hrest].
        -- apply (IH (String ch' rest') cur cells (negb inQ)); auto. lia.
    + destruct (Ascii.eqb ch comma && negb inQ).
      * apply (IH rest EmptyString (cells ++ [cur])%list inQ); auto. lia.
      * apply (IH rest (cur +:+ String ch EmptyString) cells inQ); auto. lia.
Qed.

Lemma parseLine_has_char (c : ascii) (line : string) :
  Ascii.eqb c dquote = false -> has_char c line = false ->
  forall x, x ∈ parseLine line -> has_char c x = false.
Proof.
  intros Hq Hline x Hx. unfold parseLine in Hx.
  change (map trim ?l) with (trim <$> l) in Hx.
  apply list_elem_of_fmap in Hx as (y & -> & Hy).
  apply has_char_trim.
  apply (parse_go_has_char c (String.length line) Hq line EmptyString [] false);
    auto.
  intros z Hz. by apply elem_of_nil in Hz.
Qed.

Lemma fill_row_values (P : string -> Prop) (hs : list string) (k : nat)
    (cells : list string) (row : gmap string string) :
  P EmptyString -> (forall x, x ∈ cells -> P x) ->
  (forall h v, row !! h = Some v -> P v) ->
  forall h v, fill_row hs k cells row !! h = Some v -> P v.
Proof.
  intros H0 Hcells. revert k row. induction hs as [|h0 hs IH]; intros k row Hrow h v Hv.
  - now apply (Hrow h).
  - cbn [fill_row] in Hv. apply (IH (S k) _) in Hv; [exact Hv|].
    intros h' v' Hv'. unfold assign in Hv'.
    destruct (String.eqb h0 proto_name); [now apply (Hrow h')|].
    destruct (decide (h0 = h')) as [->|Hne].
    + rewrite lookup_insert_eq in Hv'. injection Hv' as <-.
      destruct (cells !! k) as [x|] eqn:E; [|exact H0].
      apply Hcells. apply list_elem_of_lookup. now exists k.
    + rewrite lookup_insert_ne in Hv' by assumption. now apply (Hrow h').
Qed.

(** What a single-line text is after trimming. *)
Lemma plain_trim (x : string) :
  has_char LF x = false -> has_char CR x = false -> plain_text (trim x) = true.
Proof.
  intros H1 H2. unfold plain_text.
  rewrite trim_idem, String.eqb_refl.
  now rewrite (has_char_trim LF x H1), (has_char_trim CR x H2).
Qed.

(** The rows of [fromCSV] hold single-line cells only. *)
Lemma fromCSV_rows_single_line (text : string) (r : gmap string string)
    (h v : string) :
  r ∈ rows (fromCSV text) -> r !! h = Some v ->
  has_char LF v = false /\ has_char CR v = false.
Proof.
  unfold fromCSV. set (norm_text := cr_to_lf (crlf_to_lf text)).
  assert (Hlines : forall l,
            l ∈ List.filter (fun l => negb (is_empty (trim l)))
                  (split_on LF norm_text EmptyString) ->
            has_char LF l = false /\ has_char CR l = false).
  { intros l Hl. apply list_elem_of_In, filter_In in Hl as [Hl _].
    apply list_elem_of_In in Hl. split.
    - apply (split_on_has_char LF LF norm_text EmptyString); auto.
    - apply (split_on_has_char CR LF norm_text EmptyString); auto.
      left. apply cr_to_lf_no_cr. }
  destruct (List.filter _ _) as [|l0 ls]; cbn [rows].
  - intros Hr. by apply elem_of_nil in Hr.
  - intros Hr Hv. change (map ?f ?l) with (f <$> l) in Hr.
    apply list_elem_of_fmap in Hr as (l & -> & Hl).
    destruct (Hlines l) as [Hlf Hcr]; [now apply list_elem_of_further|].
    revert h v Hv.
    apply (fill_row_values (fun v => has_char LF v = false /\ has_char CR v = false)).
    + now split.
    + intros x Hx. split; apply (parseLine_has_char _ l); auto.
    + intros h v Hv. rewrite lookup_empty in Hv. discriminate.
Qed.

Lemma dec_val_nonneg (s : string) (acc : Z) :
  all_chars is_digit s = true -> 0 <= acc -> 0 <= dec_val acc s.
Proof.
  revert acc. induction s as [|c s IH]; intros acc Hs Hacc; [exact Hacc|].
  cbn [all_chars] in Hs. apply andb_true_iff in Hs as [Hc Hs].
  cbn [dec_val]. apply IH; [exact Hs|].
  unfold is_digit in Hc. apply andb_true_iff in Hc as [Hc _].
  apply Nat.leb_le in Hc. unfold digit_val. lia.
Qed.

Lemma dec_int_nonneg (t : string) (neg : bool) (v : Z) :
  dec_int t = Some (neg, v) -> 0 <= v.
Proof.
  assert (Hbody : forall b r,
            (if negb (is_empty r) && all_chars is_digit r
             then Some (b, dec_val 0 r) else None) = Some (neg, v) -> 0 <= v).
  { intros b r. destruct (negb (is_empty r)); [|discriminate].
    cbn [andb]. destruct (all_chars is_digit r) eqn:E; [|discriminate].
    intros [= _ <-]. now apply dec_val_nonneg. }
  unfold dec_int. destruct t as [|c r]; [discriminate|].
  destruct c as [[] [] [] [] [] [] [] []]; apply Hbody.
Qed.

Lemma Number_exact (t : string) (n : jsnum) :
  Number_ t = Some n -> exact_id n = true.
Proof.
  unfold Number_. destruct (is_empty (trim t)); [now intros [= <-]|].
  destruct (dec_int (trim t)) as [[neg v]|] eqn:E.
  - apply dec_int_nonneg in E.
    destruct (Z.ltb_spec MAX_SAFE_INTEGER v) as [|Hv]; [discriminate|].
    destruct (neg && (v =? 0)); [discriminate|].
    intros [= <-]. cbn [exact_id].
    destruct neg; apply andb_true_iff; split; apply Z.leb_le;
      unfold MAX_SAFE_INTEGER in *; lia.
  - destruct (all_chars numeric_char (trim t)); [discriminate|].
    now intros [= <-].
Qed.

End ImportedRecords.

Section ImportedRows.

Lemma single_line_default3 (r : gmap string string) (h1 h2 h3 : string) :
  (forall h v, r !! h = Some v -> has_char LF v = false /\ has_char CR v = false) ->
  has_char LF (default EmptyString (r !! h1 ?? r !! h2 ?? r !! h3)) = false /\
  has_char CR (default EmptyString (r !! h1 ?? r !! h2 ?? r !! h3)) = false.
Proof.
  intros Hr. unfold nullish.
  destruct (r !! h1) eqn:E1; [now apply (Hr h1)|].
  destruct (r !! h2) eqn:E2; [now apply (Hr h2)|].
  destruct (r !! h3) eqn:E3; [now apply (Hr h3) | now split].
Qed.

Lemma single_line_default2 (r : gmap string string) (h1 h2 : string) :
  (forall h v, r !! h = Some v -> has_char LF v = false /\ has_char CR v = false) ->
  has_char LF (default EmptyString (r !! h1 ?? r !! h2)) = false /\
  has_char CR (default EmptyString (r !! h1 ?? r !! h2)) = false.
Proof.
  intros Hr. unfold nullish.
  destruct (r !! h1) eqn:E1; [now apply (Hr h1)|].
  destruct (r !! h2) eqn:E2; [now apply (Hr h2) | now split].
Qed.

Lemma map_row_round_trips (r : gmap string string) (clock : Date * Z)
    (a : Athlete) :
  (forall h v, r !! h = Some v -> has_char LF v = false /\ has_char CR v = false) ->
  map_row r clock = Some (Some a) -> round_trips a.
Proof.
  intros Hr. unfold map_row.
  destruct (_ && _); [discriminate|].
  destruct (if truthy_str _ then _ else _) as [n|] eqn:En; [|discriminate].
  intros [= <-]. split.
  - unfold plain_athlete. cbn [first last position jersey team].
    destruct (single_line_default3 r "first" "firstname" "name" Hr) as [A1 A2].
    destruct (single_line_default3 r "last" "lastname" "surname" Hr) as [B1 B2].
    destruct (single_line_default2 r "position" "pos" Hr) as [C1 C2].
    destruct (single_line_default3 r "jersey" "number" "jerseyNumber" Hr) as [D1 D2].
    destruct (single_line_default2 r "team" "squad" Hr) as [E1 E2].
    now rewrite !plain_trim.
  - cbn [a_id]. destruct (truthy_str _); [now apply (Number_exact _ _ En)|].
    unfold uidNumeric in En. now apply (Number_exact _ _ En).
Qed.

Lemma map_rows_round_trip (rs : list (gmap string string)) (i : nat)
    (clock : nat -> Date * Z) (mapped : list Athlete) :
  (forall r h v, r ∈ rs -> r !! h = Some v ->
     has_char LF v = false /\ has_char CR v = false) ->
  map_rows rs i clock = Some mapped ->
  forall a, a ∈ mapped -> round_trips a.
Proof.
  revert i mapped. induction rs as [|r rs IH]; intros i mapped Hrs Hm a Ha.
  - injection Hm as <-. by apply elem_of_nil in Ha.
  - cbn [map_rows] in Hm.
    destruct (map_row r (clock i)) as [[b|]|] eqn:Er; [| |discriminate];
      (destruct (map_rows rs (S i) clock) as [l|] eqn:El; [|discriminate]);
      injection Hm as <-.
    + apply elem_of_cons in Ha as [->|Ha].
      * apply (map_row_round_trips r (clock i)); [|exact Er].
        intros h v. apply Hrs, list_elem_of_here.
      * apply (IH (S i) l); auto.
        intros r' h v Hr'. apply Hrs. now apply list_elem_of_further.
    + apply (IH (S i) l); auto.
      intros r' h v Hr'. apply Hrs. now apply list_elem_of_further.
Qed.

Lemma map_set_elem {V : Type} (k : jsnum) (v : V) (m : list (jsnum * V))
    (k0 : jsnum) (v0 : V) :
  (k0, v0) ∈ map_set k v m -> (k0, v0) ∈ m \/ (k0 = k /\ v0 = v).
Proof.
  induction m as [|[k' v'] m IH]; cbn [map_set]; intros H.
  - apply list_elem_of_singleton in H. injection H as -> ->. now right.
  - destruct (same_value_zero k' k) eqn:E.
    + apply same_value_zero_eq in E. subst k'.
      apply elem_of_cons in H as [H|H].
      * injection H as -> ->. now right.
      * left. now apply list_elem_of_further.
    + apply elem_of_cons in H as [H|H].
      * left. rewrite H. apply list_elem_of_here.
      * destruct (IH H) as [H'|H']; [left; now apply list_elem_of_further | now right].
Qed.

Lemma map_set_all_elem (l : list Athlete) (m : list (jsnum * Athlete))
    (k0 : jsnum) (v0 : Athlete) :
  (k0, v0) ∈ map_set_all a_id l m ->
  (k0, v0) ∈ m \/ (k0 = a_id v0 /\ v0 ∈ l).
Proof.
  revert m. induction l as [|b l IH]; intros m H; [now left|].
  unfold map_set_all in *. cbn [foldl] in H.
  destruct (IH _ H) as [H'|[H1 H2]].
  - apply map_set_elem in H' as [H'|[-> ->]]; [now left|].
    right. split; [reflexivity | apply list_elem_of_here].
  - right. split; [exact H1 | now apply list_elem_of_further].
Qed.

(** Every record of the merged roster is a record of the old roster or an
    imported one, and its key in the [Map] is its id. *)
Lemma merge_by_id_elem (old mapped : list Athlete) (a : Athlete) :
  a ∈ merge_by_id old mapped -> a ∈ old \/ a ∈ mapped.
Proof.
  unfold merge_by_id. intros H. change (map snd ?l) with (snd <$> l) in H.
  apply list_elem_of_fmap in H as ([k v] & -> & H). cbn [snd].
  apply map_set_all_elem in H as [H|[_ H]]; [|now right].
  apply map_set_all_elem in H as [H|[_ H]]; [|now left].
  by apply elem_of_nil in H.
Qed.

Lemma importRosterCSV_roster (text : string) (clock : nat -> Date * Z)
    (s s' : State) :
  importRosterCSV (Some text) clock s = Done s' ->
  exists mapped,
    imported_rows text clock = Some mapped /\
    roster s' = merge_by_id (roster s) mapped.
Proof.
  unfold importRosterCSV, imported_rows.
  destruct (map_rows _ _ _) as [mapped|]; [|discriminate].
  intros [= <-]. exists mapped. split; [reflexivity|].
  destruct (selected _); [|reflexivity].
  match goal with |- context [selectTimestamp ?i ?x] =>
    destruct (selectTimestamp_frame i x) as (_ & _ & _ & _ & Hr) end.
  now rewrite Hr.
Qed.

(** X10.  Every record that a roster import adds or overwrites has trimmed,
    single-line text fields and an id that prints and reads back as itself:
    the records that the import stores are records that a CSV export
    followed by an import gives back.  Records of the old roster that the
    file does not mention are kept. *)
Theorem import_stores_round_trip_records (text : string)
    (clock : nat -> Date * Z) (s s' : State) (a : Athlete) :
  importRosterCSV (Some text) clock s = Done s' ->
  a ∈ roster s' -> a ∈ roster s \/ round_trips a.
Proof.
  intros Hdone Ha.
  apply importRosterCSV_roster in Hdone as (mapped & Hm & Hr).
  rewrite Hr in Ha. apply merge_by_id_elem in Ha as [Ha|Ha]; [now left|].
  right.
  apply (map_rows_round_trip (rows (fromCSV text)) 0 clock mapped); auto.
  intros r h v. apply fromCSV_rows_single_line.
Qed.

Lemma import_stores_round_trip_records_witness :
  exists s',
    importRosterCSV (Some three_rows) a_clock two_athletes = Done s' /\
    (mkAthlete (Num 6) "Rob" "Roy" EmptyString EmptyString EmptyString
       ∈ roster two_athletes \/
     round_trips (mkAthlete (Num 6) "Rob" "Roy" EmptyString EmptyString EmptyString)).
Proof.
  eexists. split; [vm_compute; reflexivity|].
  eapply (import_stores_round_trip_records three_rows a_clock two_athletes).
  - vm_compute. reflexivity.
  - apply (bool_decide_unpack _). vm_compute. exact I.
Defined.

End ImportedRows.

(** ** The merge by id: distinct ids and repeated imports *)

Section MergeInvariant.

Lemma map_set_keys {V : Type} (k : jsnum) (v : V) (m : list (jsnum * V)) :
  map fst (map_set k v m)
  = if bool_decide (k ∈ map fst m) then map fst m else (map fst m ++ [k])%list.
Proof.
  induction m as [|[k' v'] m IH]; [reflexivity|].
  cbn [map_set map fst].
  destruct (same_value_zero k' k) eqn:E.
  - apply same_value_zero_eq in E. subst k'.
    rewrite bool_decide_eq_true_2 by apply list_elem_of_here. reflexivity.
  - assert (Hne : k' <> k).
    { intros ->. rewrite (proj2 (same_value_zero_eq k k) eq_refl) in E. discriminate. }
    cbn [map fst]. rewrite IH.
    destruct (bool_decide (k ∈ map fst m)) eqn:B.
    + apply bool_decide_eq_true_1 in B.
      rewrite bool_decide_eq_true_2 by now apply list_elem_of_further.
      reflexivity.
    + apply bool_decide_eq_false_1 in B.
      rewrite bool_decide_eq_false_2; [reflexivity|].
      intros H. apply elem_of_cons in H as [H|H]; congruence.
Qed.

Lemma map_set_NoDup {V : Type} (k : jsnum) (v : V) (m : list (jsnum * V)) :
  NoDup (map fst m) -> NoDup (map fst (map_set k v m)).
Proof.
  intros Hnd. rewrite map_set_keys. case_bool_decide; [exact Hnd|].
  apply NoDup_app. split; [exact Hnd|]. split.
  - intros x Hx Hk. apply list_elem_of_singleton in Hk. now subst.
  - apply NoDup_singleton.
Qed.

Lemma map_set_key_in {V : Type} (k : jsnum) (v : V) (m : list (jsnum * V)) (x : jsnum) :
  x ∈ map fst m \/ x = k -> x ∈ map fst (map_set k v m).
Proof.
  intros H. rewrite map_set_keys. case_bool_decide as Hk.
  - destruct H as [H| ->]; assumption.
  - apply elem_of_app. destruct H as [H| ->]; [now left|].
    right. apply list_elem_of_here.
Qed.

Lemma map_set_all_NoDup (l : list Athlete) (m : list (jsnum * Athlete)) :
  NoDup (map fst m) -> NoDup (map fst (map_set_all a_id l m)).
Proof.
  revert m. induction l as [|b l IH]; intros m Hnd; [exact Hnd|].
  unfold map_set_all in *. cbn [foldl]. now apply IH, map_set_NoDup.
Qed.

Lemma map_set_all_key_in (l : list Athlete) (m : list (jsnum * Athlete)) (x : jsnum) :
  x ∈ map fst m \/ x ∈ map a_id l -> x ∈ map fst (map_set_all a_id l m).
Proof.
  revert m. induction l as [|b l IH]; intros m H.
  - destruct H as [H|H]; [exact H | by apply elem_of_nil in H].
  - unfold map_set_all in *. cbn [foldl]. apply IH.
    destruct H as [H|H].
    + left. apply map_set_key_in. now left.
    + cbn [map] in H. apply elem_of_cons in H as [->|H]; [|now right].
      left. apply map_set_key_in. now right.
Qed.

(** The entries of the [Map] are keyed by the id of their record. *)
Lemma merge_map_keyed (old mapped : list Athlete) (k : jsnum) (v : Athlete) :
  (k, v) ∈ map_set_all a_id mapped (map_set_all a_id old []) -> k = a_id v.
Proof.
  intros H. apply map_set_all_elem in H as [H|[H _]]; [|exact H].
  apply map_set_all_elem in H as [H|[H _]]; [|exact H].
  by apply elem_of_nil in H.
Qed.

Lemma keyed_map (m : list (jsnum * Athlete)) :
  (forall k v, (k, v) ∈ m -> k = a_id v) ->
  map (fun a => (a_id a, a)) (map snd m) = m /\ map a_id (map snd m) = map fst m.
Proof.
  intros Hk. induction m as [|[k v] m IH]; [now split|].
  destruct IH as [IH1 IH2].
  { intros k' v' H. apply Hk. now apply list_elem_of_further. }
  cbn [map snd fst]. rewrite IH1, IH2.
  rewrite <- (Hk k v) by apply list_elem_of_here. now split.
Qed.

(** X11.  After a roster import the ids of the roster are pairwise distinct,
    whatever the roster and the file were: records that shared an id are
    merged into one. *)
Theorem import_makes_ids_distinct (text : string) (clock : nat -> Date * Z)
    (s s' : State) :
  importRosterCSV (Some text) clock s = Done s' ->
  NoDup (map a_id (roster s')).
Proof.
  intros Hdone. apply importRosterCSV_roster in Hdone as (mapped & _ & ->).
  unfold merge_by_id.
  destruct (keyed_map _ (merge_map_keyed (roster s) mapped)) as [_ ->].
  apply map_set_all_NoDup, map_set_all_NoDup. cbn. apply NoDup_nil_2.
Qed.

Lemma import_makes_ids_distinct_witness :
  exists s',
    importRosterCSV (Some three_rows) a_clock two_athletes = Done s' /\
    NoDup (map a_id (roster s')).
Proof.
  eexists. split; [vm_compute; reflexivity|].
  apply (import_makes_ids_distinct three_rows a_clock two_athletes).
  vm_compute. reflexivity.
Defined.

Lemma map_set_elem_NoDup (k : jsnum) (v : Athlete) (m : list (jsnum * Athlete))
    (k0 : jsnum) (v0 : Athlete) :
  NoDup (map fst m) ->
  (k0, v0) ∈ map_set k v m ->
  ((k0, v0) ∈ m /\ k0 <> k) \/ (k0 = k /\ v0 = v).
Proof.
  induction m as [|[k' v'] m IH]; cbn [map_set]; intros Hnd H.
  - apply list_elem_of_singleton in H. injection H as -> ->. now right.
  - cbn [map fst] in Hnd. apply NoDup_cons in Hnd as [Hnotin Hnd].
    destruct (same_value_zero k' k) eqn:E.
    + apply same_value_zero_eq in E. subst k'.
      apply elem_of_cons in H as [H|H].
      * injection H as -> ->. now right.
      * left. split; [now apply list_elem_of_further|].
        intros ->. apply Hnotin. change (k ∈ fst <$> m).
        apply list_elem_of_fmap. now exists (k, v0).
    + assert (Hne : k' <> k).
      { intros ->. rewrite (proj2 (same_value_zero_eq k k) eq_refl) in E. discriminate. }
      apply elem_of_cons in H as [H|H].
      * injection H as -> ->. left. split; [apply list_elem_of_here | exact Hne].
      * destruct (IH Hnd H) as [[H1 H2]|H']; [|now right].
        left. split; [now apply list_elem_of_further | exact H2].
Qed.

(** Setting a key that is present replaces the value of its entry. *)
Lemma map_set_present (k : jsnum) (b : Athlete) (m : list (jsnum * Athlete)) :
  NoDup (map fst m) -> k ∈ map fst m ->
  map_set k b m
  = map (fun kv => (fst kv, if same_value_zero (fst kv) k then b else snd kv)) m.
Proof.
  induction m as [|[k' v'] m IH]; intros Hnd Hk; [by apply elem_of_nil in Hk|].
  cbn [map fst] in Hnd, Hk. apply NoDup_cons in Hnd as [Hnotin Hnd].
  cbn [map_set map fst snd].
  destruct (same_value_zero k' k) eqn:E.
  - apply same_value_zero_eq in E. subst k'. f_equal.
    rewrite <- (map_id m) at 1. apply map_ext_in. intros [k1 v1] H1. cbn [fst snd].
    destruct (same_value_zero k1 k) eqn:E1; [|reflexivity].
    apply same_value_zero_eq in E1. subst k1. exfalso. apply Hnotin.
    change (k ∈ fst <$> m). apply list_elem_of_fmap. exists (k, v1).
    split; [reflexivity | now apply list_elem_of_In].
  - f_equal. apply IH; [exact Hnd|].
    apply elem_of_cons in Hk as [->|Hk]; [|exact Hk].
    rewrite (proj2 (same_value_zero_eq k' k') eq_refl) in E. discriminate.
Qed.

Lemma map_set_all_present (l : list Athlete) (m : list (jsnum * Athlete)) :
  NoDup (map fst m) -> (forall b, b ∈ l -> a_id b ∈ map fst m) ->
  map_set_all a_id l m
  = map (fun kv => (fst kv, overridden l (fst kv) (snd kv))) m.
Proof.
  revert m. induction l as [|b l IH]; intros m Hnd Hin.
  - cbn. rewrite <- (map_id m) at 1. apply map_ext. now intros [k v].
  - unfold map_set_all in *. cbn [foldl].
    rewrite (map_set_present (a_id b) b m Hnd) by apply Hin, list_elem_of_here.
    rewrite IH.
    + rewrite map_map. apply map_ext. intros [k v]. cbn [fst snd].
      unfold overridden. cbn [foldl]. reflexivity.
    + rewrite map_map. cbn [fst]. exact Hnd.
    + intros b' Hb'. rewrite map_map. cbn [fst].
      apply Hin. now apply list_elem_of_further.
Qed.

Lemma overridden_snoc (l : list Athlete) (b : Athlete) (k : jsnum) (v : Athlete) :
  overridden (l ++ [b]) k v
  = if same_value_zero k (a_id b) then b else overridden l k v.
Proof. unfold overridden. now rewrite foldl_app. Qed.

(** After the rows were set, every entry holds the last row with its id. *)
Lemma overridden_fixed (l : list Athlete) (m0 : list (jsnum * Athlete)) :
  NoDup (map fst m0) ->
  forall k v, (k, v) ∈ map_set_all a_id l m0 -> overridden l k v = v.
Proof.
  intros Hnd. induction l as [|b l IH] using rev_ind; intros k v H; [reflexivity|].
  unfold map_set_all in H. rewrite foldl_app in H. cbn [foldl] in H.
  change (foldl _ m0 l) with (map_set_all a_id l m0) in H.
  rewrite overridden_snoc.
  apply map_set_elem_NoDup in H as [[H Hne]|[-> ->]];
    [| |now apply map_set_all_NoDup].
  - destruct (same_value_zero k (a_id b)) eqn:E; [|now apply IH].
    apply same_value_zero_eq in E. contradiction.
  - now rewrite (proj2 (same_value_zero_eq (a_id b) (a_id b)) eq_refl).
Qed.

(** Merging the same rows again changes nothing. *)
Lemma merge_by_id_idempotent (old mapped : list Athlete) :
  merge_by_id (merge_by_id old mapped) mapped = merge_by_id old mapped.
Proof.
  unfold merge_by_id at 1 2.
  set (m := map_set_all a_id mapped (map_set_all a_id old [])).
  assert (Hnd0 : NoDup (map fst (map_set_all a_id old [])))
    by (apply map_set_all_NoDup; cbn; apply NoDup_nil_2).
  assert (Hnd : NoDup (map fst m)) by now apply map_set_all_NoDup.
  destruct (keyed_map m (merge_map_keyed old mapped)) as [Hk1 Hk2].
  rewrite roster_map by now rewrite Hk2.
  rewrite Hk1.
  rewrite map_set_all_present.
  - unfold merge_by_id. fold m. f_equal.
    rewrite <- (map_id m) at 2. apply map_ext_in. intros [k v] H. cbn [fst snd].
    f_equal. apply (overridden_fixed mapped (map_set_all a_id old []) Hnd0).
    now apply list_elem_of_In.
  - exact Hnd.
  - intros b Hb. apply map_set_all_key_in. right.
    change (a_id b ∈ a_id <$> mapped). apply list_elem_of_fmap. now exists b.
Qed.

(** X12.  Importing a roster file a second time changes nothing, provided
    the second import reads the same records as the first (the ids that are
    generated for rows without one depend on the clock). *)
Theorem reimport_changes_nothing (text : string) (clock clock' : nat -> Date * Z)
    (s s1 s2 : State) :
  imported_rows text clock' = imported_rows text clock ->
  importRosterCSV (Some text) clock s = Done s1 ->
  importRosterCSV (Some text) clock' s1 = Done s2 ->
  roster s2 = roster s1.
Proof.
  intros Hsame H1 H2.
  apply importRosterCSV_roster in H1 as (mapped & Hm & Hr1).
  apply importRosterCSV_roster in H2 as (mapped' & Hm' & Hr2).
  rewrite Hsame, Hm in Hm'. injection Hm' as <-.
  rewrite Hr2, Hr1. apply merge_by_id_idempotent.
Qed.

End MergeInvariant.

Section Reimport.

Lemma reimport_changes_nothing_witness :
  exists s1 s2,
    importRosterCSV (Some rows_with_ids) a_clock two_athletes = Done s1 /\
    importRosterCSV (Some rows_with_ids) a_clock s1 = Done s2 /\
    roster s2 = roster s1.
Proof.
  eexists _, _. split; [vm_compute; reflexivity|].
  split; [vm_compute; reflexivity|].
  apply (reimport_changes_nothing rows_with_ids a_clock a_clock two_athletes).
  - reflexivity.
  - vm_compute. reflexivity.
  - vm_compute. reflexivity.
Defined.

End Reimport.

(** ** Annotations under the handlers *)

Section AnnotationFrames.

Context {B : Type} (g : Annotation -> B).

Lemma annotations_same (st st' : list Annotation) (refs : list nat) :
  (forall r, g <$> st' !! r = g <$> st !! r) ->
  map g (omap (fun r => st' !! r) refs) = map g (omap (fun r => st !! r) refs).
Proof.
  intros H. induction refs as [|r refs IH]; [reflexivity|].
  cbn [omap list_omap]. change (list_omap ?f ?l) with (omap f l).
  specialize (H r).
  destruct (st' !! r) as [t'|], (st !! r) as [t|]; cbn in H; try discriminate.
  - cbn [map]. injection H as ->. now rewrite IH.
  - exact IH.
Qed.

Lemma alter_same (f : Annotation -> Annotation) (i r : nat) (st : list Annotation) :
  (forall t, g (f t) = g t) -> g <$> alter f i st !! r = g <$> st !! r.
Proof.
  intros Hf. destruct (decide (i = r)) as [->|Hne].
  - rewrite list_lookup_alter_eq. destruct (st !! r); cbn; [now rewrite Hf | reflexivity].
  - now rewrite list_lookup_alter_ne.
Qed.

Lemma for_each_same (f : Annotation -> Annotation) (refs : list nat)
    (st : list Annotation) (r : nat) :
  (forall t, g (f t) = g t) ->
  g <$> foldl (fun st i => alter f i st) st refs !! r = g <$> st !! r.
Proof.
  intros Hf. revert st. induction refs as [|i refs IH]; intros st; [reflexivity|].
  cbn [foldl]. rewrite IH. now apply alter_same.
Qed.

End AnnotationFrames.

Section RosterCascade.

(** X13.  Clearing the roster empties it and empties the tag list of every
    annotation of the document, and the result is persisted. *)
Theorem clearRoster_clears_tags (s : State) :
  exists s',
    clearRoster s = Done s' /\
    roster s' = [] /\
    (forall t, t ∈ annotations s' -> taggedAthleteIds t = Some []) /\
    persisted s'.
Proof.
  unfold clearRoster. eexists. split; [reflexivity|].
  split; [reflexivity|]. split; [|reflexivity].
  intros t Ht. unfold annotations in Ht.
  apply list_elem_of_omap in Ht as (r & Hr & Hl).
  cbn [timestamps store saveState set_localStorage set_rosterStatus for_each_ts
       set_store set_roster] in Hr, Hl.
  apply (for_each_lookup (fun t => taggedAthleteIds t = Some []) (with_tags [])
           (timestamps s) (store s) r t); [|exact Hr|exact Hl].
  reflexivity.
Qed.

(** X14.  The roster operations (add, delete, clear, CSV import) leave every
    annotation as it was apart from its tag list: the same annotations, in
    the same order, with their ids, times, texts and drawings. *)
Theorem roster_events_keep_annotations (ev : Event) (s s' : State) :
  pure_roster_event ev = true ->
  handle ev s = Done s' ->
  map without_tags (annotations s') = map without_tags (annotations s).
Proof.
  destruct ev; try discriminate; intros _; cbn [handle].
  - unfold addAthlete. destruct (_ || _); [now intros [= <-]|].
    destruct (uidNumeric now rnd); [|discriminate]. now intros [= <-].
  - unfold rosterDelete_onclick.
    destruct (Number_ data_del0) as [n|]; [|discriminate].
    intros [= <-]. unfold annotations.
    cbn [store timestamps saveState set_localStorage for_each_ts set_store set_roster].
    apply annotations_same. intros r. now apply for_each_same.
  - unfold clearRoster. intros [= <-]. unfold annotations.
    cbn [store timestamps saveState set_localStorage for_each_ts set_store set_roster
         set_rosterStatus].
    apply annotations_same. intros r. now apply for_each_same.
  - unfold importRosterCSV. destruct file as [text|]; [|now intros [= <-]].
    destruct (map_rows _ _ _); [|discriminate]. intros [= <-].
    destruct (selected _); [|reflexivity].
    match goal with |- context [selectTimestamp ?i ?x] =>
      destruct (selectTimestamp_frame i x) as (_ & _ & Hs & Ht & _) end.
    unfold annotations. now rewrite Hs, Ht.
Qed.

Lemma roster_events_keep_annotations_witness :
  exists s',
    handle ClearRoster two_annotations = Done s' /\
    map without_tags (annotations s') = map without_tags (annotations two_annotations).
Proof.
  eexists. split; [reflexivity|].
  apply (roster_events_keep_annotations ClearRoster two_annotations); reflexivity.
Defined.

(** X15.  Only the roster operations and the project import change the
    roster, and only the Load button and the project import change the video
    reference: every other handler returns with them as they were. *)
Theorem roster_and_video_frame (ev : Event) (s s' : State) :
  handle ev s = Done s' ->
  (roster_event ev = false -> roster s' = roster s) /\
  (video_event ev = false ->
   youtubeUrl s' = youtubeUrl s /\ youtubeId s' = youtubeId s).
Proof.
  assert (Hsel : forall i x,
            roster (selectTimestamp i x) = roster x /\
            youtubeUrl (selectTimestamp i x) = youtubeUrl x /\
            youtubeId (selectTimestamp i x) = youtubeId x).
  { intros i x. unfold selectTimestamp.
    destruct (find_ts _ _) as [r|]; [|by repeat split].
    destruct (store _ !! r); by repeat split. }
  destruct ev; cbn [handle roster_event video_event].
  - unfold addAthlete. destruct (_ || _); [intros [= <-]; by repeat split|].
    destruct (uidNumeric now rnd); [|discriminate].
    intros [= <-]. by repeat split.
  - unfold rosterDelete_onclick. destruct (Number_ data_del0); [|discriminate].
    intros [= <-]. by repeat split.
  - unfold clearRoster. intros [= <-]. by repeat split.
  - unfold importRosterCSV. destruct file as [text|]; [|intros [= <-]; by repeat split].
    destruct (map_rows _ _ _); [|discriminate]. intros [= <-].
    split; [discriminate|]. intros _.
    destruct (selected _); [|by split].
    match goal with |- context [selectTimestamp ?i ?x] =>
      destruct (Hsel i x) as (_ & -> & ->) end. by split.
  - unfold addTimestampAtCurrent. destruct (negb _); [intros [= <-]; by repeat split|].
    destruct (uidNumeric now rnd); [|discriminate]. intros [= <-].
    match goal with |- context [selectTimestamp ?i ?x] =>
      destruct (Hsel i x) as (-> & -> & ->) end. by repeat split.
  - unfold saveTimestampEdits. destruct (negb _); [intros [= <-]; by repeat split|].
    destruct (find_ts _ _); intros [= <-]; by repeat split.
  - unfold deleteTimestamp. destruct (selectedTsId s) as [id|];
      [|intros [= <-]; by repeat split].
    destruct (negb _); intros [= <-]; by repeat split.
  - unfold tagButton_onclick. destruct ts as [r|]; [|discriminate].
    destruct (store s !! r); [|discriminate]. intros [= <-]. by repeat split.
  - unfold pill_onclick. destruct (store s !! ts); [|discriminate].
    intros [= <-]. by repeat split.
  - unfold pointerDown. destruct (negb _); [intros [= <-]; by repeat split|].
    destruct (negb _); [intros [= <-]; by repeat split|].
    destruct (uidNumeric _ _); [|discriminate]. intros [= <-]. by repeat split.
  - unfold pointerMove. destruct (negb _); [intros [= <-]; by repeat split|].
    destruct (activeStroke s); intros [= <-]; by repeat split.
  - unfold pointerUp. destruct (negb _); [intros [= <-]; by repeat split|].
    destruct (activeStroke s); [|intros [= <-]; by repeat split].
    destruct (find_ts _ _) as [r|]; [|intros [= <-]; by repeat split].
    destruct (store s !! r); [|discriminate]. intros [= <-]. by repeat split.
  - unfold clearDraw_onclick. destruct (negb _); [intros [= <-]; by repeat split|].
    destruct (find_ts _ _); intros [= <-]; by repeat split.
  - unfold load_onclick. destruct (negb _); [intros [= <-]; by repeat split|].
    destruct (_ || _); intros [= <-]; (split; [reflexivity | discriminate]).
  - unfold newProject. destruct (uidNumeric now rnd); [|discriminate].
    intros [= <-]. by repeat split.
  - intros _. split; discriminate.
Qed.

Lemma roster_and_video_frame_witness :
  exists s',
    handle (NewProject noon 123) two_annotations = Done s' /\
    (roster_event (NewProject noon 123) = false -> roster s' = roster two_annotations) /\
    (video_event (NewProject noon 123) = false ->
     youtubeUrl s' = youtubeUrl two_annotations /\
     youtubeId s' = youtubeId two_annotations).
Proof.
  eexists. split; [vm_compute; reflexivity|].
  apply (roster_and_video_frame (NewProject noon 123) two_annotations).
  vm_compute. reflexivity.
Defined.

End RosterCascade.

(** ** Tagging *)

Section TagSet.

Lemma alter_fixed {A : Type} (f : A -> A) (r : nat) (st : list A) (t : A) :
  st !! r = Some t -> f t = t -> alter f r st = st.
Proof.
  intros Ht Hf. apply list_eq. intros i.
  destruct (decide (r = i)) as [<-|Hne].
  - rewrite list_lookup_alter_eq, Ht. cbn. now rewrite Hf.
  - now rewrite list_lookup_alter_ne.
Qed.

Lemma tagged_existsb (tid : jsnum) (ids : list jsnum) :
  existsb (fun x => same_value_zero x tid) ids = true <-> tid ∈ ids.
Proof.
  rewrite existsb_exists. split.
  - intros (x & Hx & E). apply same_value_zero_eq in E. subst.
    now apply list_elem_of_In.
  - intros H. exists tid. split; [now apply list_elem_of_In|].
    now apply same_value_zero_eq.
Qed.

Lemma add_tag_spec (tid : jsnum) (t : Annotation) :
  tid ∈ or_empty (taggedAthleteIds (add_tag tid t)) /\
  (NoDup (or_empty (taggedAthleteIds t)) ->
   NoDup (or_empty (taggedAthleteIds (add_tag tid t)))) /\
  (forall x, x ∈ or_empty (taggedAthleteIds (add_tag tid t)) <->
             x ∈ or_empty (taggedAthleteIds t) \/ x = tid).
Proof.
  unfold add_tag.
  destruct (existsb _ _) eqn:E; cbn [taggedAthleteIds with_tags or_empty default
                                       from_option id].
  - apply tagged_existsb in E. split; [exact E|]. split; [trivial|].
    intros x. split; [now left | intros [H| ->]; assumption].
  - assert (Hn : tid ∉ or_empty (taggedAthleteIds t)).
    { intros H. apply tagged_existsb in H. congruence. }
    split; [apply elem_of_app; right; apply list_elem_of_here|]. split.
    + intros Hnd. apply NoDup_app. split; [exact Hnd|]. split.
      * intros x Hx Hx'. apply list_elem_of_singleton in Hx'. now subst.
      * apply NoDup_singleton.
    + intros x. rewrite elem_of_app, list_elem_of_singleton. reflexivity.
Qed.

Lemma add_tag_again (tid : jsnum) (t : Annotation) :
  add_tag tid (add_tag tid t) = add_tag tid t.
Proof.
  destruct (add_tag_spec tid t) as (Hin & _ & _).
  apply tagged_existsb in Hin.
  unfold add_tag at 1. rewrite Hin. clear Hin.
  unfold add_tag. destruct (existsb _ _); reflexivity.
Qed.

(** X16.  Tagging is an insertion into a set kept as a list: after the
    click the athlete's id is in the tag list of the annotation, the list has
    the old ids and that one, a list without duplicates stays without
    duplicates, and clicking the same button again changes nothing at all. *)
Theorem tagging_is_set_insertion (a : Athlete) (r : nat) (t : Annotation)
    (s : State) :
  store s !! r = Some t ->
  exists s1 t1,
    tagButton_onclick (Some r) a s = Done s1 /\
    store s1 !! r = Some t1 /\
    (forall x, x ∈ or_empty (taggedAthleteIds t1) <->
               x ∈ or_empty (taggedAthleteIds t) \/ x = a_id a) /\
    (NoDup (or_empty (taggedAthleteIds t)) -> NoDup (or_empty (taggedAthleteIds t1))) /\
    tagButton_onclick (Some r) a s1 = Done s1.
Proof.
  intros Ht. unfold tagButton_onclick at 1. rewrite Ht.
  destruct (add_tag_spec (a_id a) t) as (_ & Hnd & Hiff).
  eexists _, (add_tag (a_id a) t). split; [reflexivity|].
  assert (Hl : alter (add_tag (a_id a)) r (store s) !! r = Some (add_tag (a_id a) t))
    by now rewrite list_lookup_alter_eq, Ht.
  split; [exact Hl|]. split; [exact Hiff|]. split; [exact Hnd|].
  unfold tagButton_onclick.
  cbn [store saveState set_store set_localStorage]. rewrite Hl.
  rewrite (alter_fixed _ r _ _ Hl (add_tag_again (a_id a) t)). reflexivity.
Qed.

Lemma tagging_is_set_insertion_witness :
  exists s1 t1,
    tagButton_onclick (Some 1%nat) (mkAthlete (Num 5) "Ann" "Lee" "WR" "12" "Blue")
      two_annotations = Done s1 /\
    store s1 !! 1%nat = Some t1 /\
    (forall x, x ∈ or_empty (taggedAthleteIds t1) <->
               x ∈ or_empty (Some ([] : list jsnum)) \/ x = Num 5) /\
    (NoDup (or_empty (Some ([] : list jsnum))) -> NoDup (or_empty (taggedAthleteIds t1))) /\
    tagButton_onclick (Some 1%nat) (mkAthlete (Num 5) "Ann" "Lee" "WR" "12" "Blue") s1
      = Done s1.
Proof.
  apply (tagging_is_set_insertion (mkAthlete (Num 5) "Ann" "Lee" "WR" "12" "Blue")
           1%nat (mkAnnotation (Num 8) 9 "Corner" EmptyString (Some []) (Some []))
           two_annotations).
  reflexivity.
Defined.

Lemma filter_all {A : Type} (p : A -> bool) (l : list A) :
  (forall x, x ∈ l -> p x = true) -> List.filter p l = l.
Proof.
  induction l as [|x l IH]; intros H; [reflexivity|].
  cbn [List.filter]. rewrite (H x) by apply list_elem_of_here.
  rewrite IH; [reflexivity|]. intros y Hy. apply H. now apply list_elem_of_further.
Qed.

(** X17.  Tagging an athlete whose id is a number and who is not yet tagged,
    and then clicking the pill of that tag, gives the annotation the tag list
    it had before; the result is persisted. *)
Theorem tag_then_untag_restores (a : Athlete) (z : Z) (r : nat) (t : Annotation)
    (s : State) :
  a_id a = Num z -> store s !! r = Some t ->
  Num z ∉ or_empty (taggedAthleteIds t) ->
  exists s1 s2,
    tagButton_onclick (Some r) a s = Done s1 /\
    pill_onclick r (a_id a) s1 = Done s2 /\
    store s2 !! r = Some (with_tags (or_empty (taggedAthleteIds t)) t) /\
    persisted s2.
Proof.
  intros Hid Ht Hnot. unfold tagButton_onclick. rewrite Ht, Hid.
  eexists _, _. split; [reflexivity|].
  unfold pill_onclick. cbn [store saveState set_store set_localStorage].
  rewrite list_lookup_alter_eq, Ht. cbn [fmap option_fmap option_map].
  split; [reflexivity|]. split; [|reflexivity].
  cbn [store saveState set_store set_localStorage].
  rewrite !list_lookup_alter_eq, Ht. cbn [fmap option_fmap option_map]. f_equal.
  unfold add_tag.
  destruct (existsb _ _) eqn:E; [apply tagged_existsb in E; contradiction|].
  unfold untag, with_tags.
  cbn [taggedAthleteIds or_empty default from_option id
       t_id time title description drawings].
  do 2 f_equal. rewrite List.filter_app. cbn [List.filter strict_eq].
  rewrite Z.eqb_refl. cbn [negb]. rewrite app_nil_r.
  apply filter_all. intros x Hx. apply negb_true_iff.
  destruct (strict_eq x (Num z)) eqn:Ex; [|reflexivity].
  apply strict_eq_true in Ex as (z' & -> & [= ->]). contradiction.
Qed.

Lemma tag_then_untag_restores_witness :
  exists s1 s2,
    tagButton_onclick (Some 1%nat) (mkAthlete (Num 5) "Ann" "Lee" "WR" "12" "Blue")
      two_annotations = Done s1 /\
    pill_onclick 1%nat (Num 5) s1 = Done s2 /\
    store s2 !! 1%nat
      = Some (mkAnnotation (Num 8) 9 "Corner" EmptyString (Some []) (Some [])) /\
    persisted s2.
Proof.
  apply (tag_then_untag_restores (mkAthlete (Num 5) "Ann" "Lee" "WR" "12" "Blue") 5
           1%nat (mkAnnotation (Num 8) 9 "Corner" EmptyString (Some []) (Some []))
           two_annotations).
  - reflexivity.
  - reflexivity.
  - apply (bool_decide_unpack _). vm_compute. exact I.
Defined.

(** X18.  The Tag buttons are not rendered again when the selected timestamp
    is deleted, so they stay bound to the deleted annotation: a click on one
    of them returns without an error and saves, but the tag goes to the
    deleted object and the document is as it was after the deletion. *)
Theorem tag_after_delete_is_lost (a : Athlete) (r : nat) (s : State) :
  rendered_ts s = Some r ->
  exists s1 s2,
    deleteTimestamp s = Done s1 /\
    tagButton_onclick (rendered_ts s) a s1 = Done s2 /\
    document s2 = document s1 /\
    persisted s2.
Proof.
  intros Hr. rewrite Hr. unfold rendered_ts in Hr.
  destruct (selected s) eqn:Hsel; [|discriminate].
  pose proof Hr as Hf. apply find_ts_Some in Hf as (_ & n & t & Hn & Ht & Heq).
  unfold selected in Hsel. rewrite Hn in Hsel.
  unfold deleteTimestamp. rewrite Hn, Hsel. cbn [negb].
  eexists _, _. split; [reflexivity|].
  unfold tagButton_onclick.
  cbn [store saveState set_localStorage setStatus set_drawings set_selectedTsId
       set_timestamps]. rewrite Ht.
  split; [reflexivity|]. split; [|reflexivity].
  unfold document, annotations.
  cbn [store timestamps roster projectId youtubeUrl youtubeId saveState
       set_localStorage setStatus set_drawings set_selectedTsId set_timestamps
       set_store].
  f_equal. apply annotations_alter_other.
  intros Hin. apply list_elem_of_In, filter_In in Hin as [_ Hkeep].
  rewrite Ht, Heq in Hkeep. discriminate.
Qed.

Lemma tag_after_delete_is_lost_witness :
  exists s1 s2,
    deleteTimestamp two_annotations = Done s1 /\
    tagButton_onclick (rendered_ts two_annotations)
      (mkAthlete (Num 5) "Ann" "Lee" "WR" "12" "Blue") s1 = Done s2 /\
    document s2 = document s1 /\
    persisted s2.
Proof.
  apply (tag_after_delete_is_lost (mkAthlete (Num 5) "Ann" "Lee" "WR" "12" "Blue")
           1%nat two_annotations).
  reflexivity.
Defined.

End TagSet.

(** ** Timestamps: select, add, edit, delete *)

Section Timestamps.

(** X19.  Selecting a timestamp that exists makes it the selection and puts
    its strokes, and only them, into the drawing buffer, whatever was selected
    before: selecting one timestamp and then another gives the state that
    selecting the other one alone gives. *)
Theorem selecting_replaces_buffer (id1 : option jsnum) (id2 : jsnum)
    (r : nat) (t : Annotation) (s : State) :
  find_ts (Some id2) s = Some r -> store s !! r = Some t ->
  selectTimestamp (Some id2) (selectTimestamp id1 s) = selectTimestamp (Some id2) s /\
  selectedTsId (selectTimestamp (Some id2) s) = Some id2 /\
  drawingsBuf (selectTimestamp (Some id2) s) = or_empty (drawings t).
Proof.
  intros Hf Ht.
  assert (H2 : selectTimestamp (Some id2) s
               = set_drawings (or_empty (drawings t)) (set_selectedTsId (Some id2) s)).
  { unfold selectTimestamp.
    change (find_ts (Some id2) (set_selectedTsId (Some id2) s))
      with (find_ts (Some id2) s).
    rewrite Hf. cbn [store set_selectedTsId]. now rewrite Ht. }
  split; [|rewrite H2; now split].
  rewrite H2.
  set (s1 := selectTimestamp id1 s).
  assert (Hs1 : store s1 = store s /\ timestamps s1 = timestamps s)
    by (destruct (selectTimestamp_frame id1 s) as (_ & _ & ? & ? & _); now split).
  destruct Hs1 as [Hst Hts].
  unfold selectTimestamp at 1.
  assert (Hf1 : find_ts (Some id2) (set_selectedTsId (Some id2) s1) = Some r).
  { unfold find_ts in *. cbn [store timestamps set_selectedTsId].
    now rewrite Hst, Hts. }
  rewrite Hf1. cbn [store set_selectedTsId]. rewrite Hst, Ht.
  unfold s1, selectTimestamp.
  destruct (find_ts id1 (set_selectedTsId id1 s)) as [r1|]; [|reflexivity].
  destruct (store (set_selectedTsId id1 s) !! r1); reflexivity.
Qed.

Lemma selecting_replaces_buffer_witness :
  selectTimestamp (Some (Num 7)) (selectTimestamp (Some (Num 8)) two_annotations)
    = selectTimestamp (Some (Num 7)) two_annotations /\
  selectedTsId (selectTimestamp (Some (Num 7)) two_annotations) = Some (Num 7) /\
  drawingsBuf (selectTimestamp (Some (Num 7)) two_annotations) = or_empty (Some []).
Proof.
  apply (selecting_replaces_buffer (Some (Num 8)) (Num 7) 0%nat
           (mkAnnotation (Num 7) 3 "Kick-off" EmptyString (Some [Num 5]) (Some []))
           two_annotations); reflexivity.
Defined.

Lemma omap_filter (p : Annotation -> bool) (st : list Annotation) (refs : list nat) :
  omap (fun r => st !! r)
    (List.filter (fun r => match st !! r with Some t => p t | None => true end) refs)
  = List.filter p (omap (fun r => st !! r) refs).
Proof.
  induction refs as [|r refs IH]; [reflexivity|].
  cbn [List.filter omap list_omap]. change (list_omap ?f ?l) with (omap f l).
  destruct (st !! r) as [t|] eqn:E.
  - cbn [List.filter]. destruct (p t).
    + cbn [omap list_omap]. change (list_omap ?f ?l) with (omap f l).
      now rewrite E, IH.
    + exact IH.
  - cbn [omap list_omap]. change (list_omap ?f ?l) with (omap f l).
    now rewrite E, IH.
Qed.

(** X20.  Deleting the selected timestamp removes from the document every
    annotation whose id is the selected id, keeps the other annotations in
    their order, clears the selection and the drawing buffer, leaves the
    roster alone and persists. *)
Theorem deleteTimestamp_removes_selected (id : jsnum) (s : State) :
  selectedTsId s = Some id -> truthy_num id = true ->
  exists s',
    deleteTimestamp s = Done s' /\
    annotations s'
      = List.filter (fun t => negb (strict_eq (t_id t) id)) (annotations s) /\
    selectedTsId s' = None /\ drawingsBuf s' = [] /\
    roster s' = roster s /\
    persisted s'.
Proof.
  intros Hsel Htr. unfold deleteTimestamp. rewrite Hsel, Htr. cbn [negb].
  eexists. split; [reflexivity|]. split; [|by repeat split].
  unfold annotations.
  cbn [store timestamps saveState set_localStorage setStatus set_drawings
       set_selectedTsId set_timestamps].
  apply (omap_filter (fun t => negb (strict_eq (t_id t) id))).
Qed.

Lemma deleteTimestamp_removes_selected_witness :
  exists s',
    deleteTimestamp two_annotations = Done s' /\
    annotations s'
      = List.filter (fun t => negb (strict_eq (t_id t) (Num 8)))
          (annotations two_annotations) /\
    selectedTsId s' = None /\ drawingsBuf s' = [] /\
    roster s' = roster two_annotations /\
    persisted s'.
Proof.
  apply (deleteTimestamp_removes_selected (Num 8) two_annotations); reflexivity.
Defined.

Lemma annotations_grow (st : list Annotation) (refs : list nat) (ts : Annotation) :
  Forall (fun r => (r < length st)%nat) refs ->
  omap (fun r => (st ++ [ts])%list !! r) (refs ++ [length st])%list
  = (omap (fun r => st !! r) refs ++ [ts])%list.
Proof.
  intros Hv. induction Hv as [|r refs Hr Hv IH].
  - cbn [app omap list_omap]. rewrite lookup_app_r by lia.
    now rewrite Nat.sub_diag.
  - cbn [app omap list_omap]. change (list_omap ?f ?l) with (omap f l).
    rewrite IH. rewrite lookup_app_l by exact Hr.
    destruct (st !! r); reflexivity.
Qed.

(** X21.  Adding a timestamp when the player exists appends exactly one
    annotation to the document, with the given time, the default title, and
    empty description, tags and drawings; it leaves the annotations before
    it and the roster as they were, selects the new id and persists. *)
Theorem addTimestamp_appends_one (time : Z) (now : Date) (rnd : Z) (s : State) :
  hasPlayer s = true -> valid_date now = true -> 0 <= rnd < 1000 ->
  valid_refs s ->
  exists s',
    addTimestampAtCurrent time now rnd s = Done s' /\
    annotations s'
      = (annotations s ++
         [mkAnnotation (Num (uid_value now rnd)) time "New coaching point"
            EmptyString (Some []) (Some [])])%list /\
    selectedTsId s' = Some (Num (uid_value now rnd)) /\
    roster s' = roster s /\
    persisted s'.
Proof.
  intros Hp Hd Hr Hv. unfold addTimestampAtCurrent.
  rewrite Hp, (uidNumeric_value now rnd Hd Hr). cbn [negb].
  eexists. split; [reflexivity|].
  match goal with |- context [selectTimestamp ?i ?x] =>
    destruct (selectTimestamp_frame i x) as (Hdoc & Hls & Hst & Hts & Hros);
    assert (Hsel : selectedTsId (selectTimestamp i x) = i)
  end.
  { unfold selectTimestamp. destruct (find_ts _ _) as [r|]; [|reflexivity].
    destruct (store _ !! r); reflexivity. }
  split; [|split; [exact Hsel|split; [now rewrite Hros|]]].
  - unfold annotations. rewrite Hst, Hts.
    cbn [store timestamps saveState set_localStorage setStatus set_timestamps set_store].
    now apply annotations_grow.
  - unfold persisted. now rewrite Hdoc, Hls.
Qed.

Lemma addTimestamp_appends_one_witness :
  exists s',
    addTimestampAtCurrent 12 noon 123 two_annotations = Done s' /\
    annotations s'
      = (annotations two_annotations ++
         [mkAnnotation (Num 261101120000123) 12 "New coaching point"
            EmptyString (Some []) (Some [])])%list /\
    selectedTsId s' = Some (Num 261101120000123) /\
    roster s' = roster two_annotations /\
    persisted s'.
Proof.
  apply (addTimestamp_appends_one 12 noon 123 two_annotations).
  - reflexivity.
  - reflexivity.
  - lia.
  - apply (bool_decide_unpack _). vm_compute. exact I.
Defined.

(** X22.  Saving the edits of the selected timestamp overwrites its title and
    description with the trimmed text of the two inputs and changes nothing
    else: every other annotation object, and the id, time, tags and drawings
    of every annotation of the document, are as before; the result is
    persisted. *)
Theorem saving_edits_changes_text_only (tsTitle tsDesc : string) (r : nat)
    (t : Annotation) (s : State) :
  rendered_ts s = Some r -> store s !! r = Some t ->
  exists s',
    saveTimestampEdits tsTitle tsDesc s = Done s' /\
    store s' !! r = Some (with_text (trim tsTitle) (trim tsDesc) t) /\
    (forall r', r' <> r -> store s' !! r' = store s !! r') /\
    map without_text (annotations s') = map without_text (annotations s) /\
    roster s' = roster s /\
    persisted s'.
Proof.
  intros Hr Ht. unfold rendered_ts in Hr.
  destruct (selected s) eqn:Hsel; [|discriminate].
  unfold saveTimestampEdits. rewrite Hsel, Hr. cbn [negb].
  eexists. split; [reflexivity|].
  cbn [store timestamps roster saveState set_localStorage setStatus set_store].
  split; [now rewrite list_lookup_alter_eq, Ht|].
  split; [intros r' Hne; now rewrite list_lookup_alter_ne|].
  split; [|by split].
  unfold annotations.
  cbn [store timestamps saveState set_localStorage setStatus set_store].
  apply annotations_same. intros r'. now apply alter_same.
Qed.

Lemma saving_edits_changes_text_only_witness :
  exists s',
    saveTimestampEdits " Set piece " "near post" two_annotations = Done s' /\
    store s' !! 1%nat
      = Some (mkAnnotation (Num 8) 9 "Set piece" "near post" (Some []) (Some [])) /\
    (forall r', r' <> 1%nat -> store s' !! r' = store two_annotations !! r') /\
    map without_text (annotations s') = map without_text (annotations two_annotations) /\
    roster s' = roster two_annotations /\
    persisted s'.
Proof.
  apply (saving_edits_changes_text_only " Set piece " "near post" 1%nat
           (mkAnnotation (Num 8) 9 "Corner" EmptyString (Some []) (Some []))
           two_annotations); reflexivity.
Defined.

End Timestamps.

(** ** References stay valid *)

Section ValidRefs.

Lemma for_each_length (f : Annotation -> Annotation) (refs : list nat)
    (st : list Annotation) :
  length (foldl (fun st r => alter f r st) st refs) = length st.
Proof.
  revert st. induction refs as [|r refs IH]; intros st; [reflexivity|].
  cbn [foldl]. rewrite IH. apply length_alter.
Qed.

Lemma valid_refs_initial (pid : jsnum) : valid_refs (initial pid).
Proof. constructor. Qed.

(** Every handler keeps the references of [state.timestamps] valid. *)
Lemma valid_refs_preserved (ev : Event) (s s' : State) :
  valid_refs s -> handle ev s = Done s' -> valid_refs s'.
Proof.
  unfold valid_refs. intros Hv.
  assert (Hsel : forall i x,
            Forall (fun r => (r < length (store x))%nat) (timestamps x) ->
            Forall (fun r => (r < length (store (selectTimestamp i x)))%nat)
              (timestamps (selectTimestamp i x))).
  { intros i x Hx. destruct (selectTimestamp_frame i x) as (_ & _ & -> & -> & _).
    exact Hx. }
  assert (Halter : forall f r,
            Forall (fun r' => (r' < length (alter f r (store s)))%nat) (timestamps s)).
  { intros f r. eapply Forall_impl; [exact Hv|]. intros r' Hr'. cbn beta.
    now rewrite length_alter. }
  destruct ev; cbn [handle].
  - unfold addAthlete. destruct (_ || _); [now intros [= <-]|].
    destruct (uidNumeric now rnd); [|discriminate]. now intros [= <-].
  - unfold rosterDelete_onclick. destruct (Number_ data_del0); [|discriminate].
    intros [= <-]. cbn. eapply Forall_impl; [exact Hv|]. intros r Hr. cbn beta.
    now rewrite for_each_length.
  - unfold clearRoster. intros [= <-]. cbn. eapply Forall_impl; [exact Hv|].
    intros r Hr. cbn beta. now rewrite for_each_length.
  - unfold importRosterCSV. destruct file as [text|]; [|now intros [= <-]].
    destruct (map_rows _ _ _); [|discriminate]. intros [= <-].
    destruct (selected _); [apply Hsel|]; exact Hv.
  - unfold addTimestampAtCurrent. destruct (negb _); [now intros [= <-]|].
    destruct (uidNumeric now rnd); [|discriminate]. intros [= <-].
    apply Hsel. cbn. rewrite length_app. cbn [length].
    apply Forall_app. split.
    + eapply Forall_impl; [exact Hv|]. intros r Hr. cbn beta in Hr. lia.
    + constructor; [lia | constructor].
  - unfold saveTimestampEdits. destruct (negb _); [now intros [= <-]|].
    destruct (find_ts _ _); intros [= <-]; [apply Halter | exact Hv].
  - unfold deleteTimestamp. destruct (selectedTsId s) as [id|]; [|now intros [= <-]].
    destruct (negb _); intros [= <-]; [exact Hv|]. cbn.
    apply Forall_forall. intros r Hr.
    apply list_elem_of_In, filter_In in Hr as [Hr _].
    rewrite Forall_forall in Hv. now apply Hv, list_elem_of_In.
  - unfold tagButton_onclick. destruct ts as [r|]; [|discriminate].
    destruct (store s !! r); [|discriminate]. intros [= <-]. apply Halter.
  - unfold pill_onclick. destruct (store s !! ts); [|discriminate].
    intros [= <-]. apply Halter.
  - unfold pointerDown. destruct (negb _); [now intros [= <-]|].
    destruct (negb _); [now intros [= <-]|].
    destruct (uidNumeric _ _); [|discriminate]. now intros [= <-].
  - unfold pointerMove. destruct (negb _); [now intros [= <-]|].
    destruct (activeStroke s); now intros [= <-].
  - unfold pointerUp. destruct (negb _); [now intros [= <-]|].
    destruct (activeStroke s); [|now intros [= <-]].
    destruct (find_ts _ _) as [r|]; [|now intros [= <-]].
    destruct (store s !! r); [|discriminate]. intros [= <-]. apply Halter.
  - unfold clearDraw_onclick. destruct (negb _); [now intros [= <-]|].
    destruct (find_ts _ _); intros [= <-]; [apply Halter | exact Hv].
  - unfold load_onclick. destruct (negb _); [now intros [= <-]|].
    destruct (_ || _); now intros [= <-].
  - unfold newProject. destruct (uidNumeric now rnd); [|discriminate].
    intros [= <-]. constructor.
  - unfold importProject, import_failed.
    destruct file as [[[|obj]|]|]; try now intros [= <-].
    destruct (f_roster obj) as [| |ros]; try now intros [= <-].
    destruct (f_timestamps obj) as [| |tss]; try now intros [= <-].
    destruct (match f_projectId obj with Some id => Some id | None => _ end);
      [|discriminate].
    intros [= <-].
    assert (Hfresh : Forall (fun r => (r < length (store s ++ tss))%nat)
                       (seq (length (store s)) (length tss))).
    { apply Forall_forall. intros r Hr. apply list_elem_of_In, in_seq in Hr.
      rewrite length_app. lia. }
    destruct (truthy_str _); [destruct (_ && _)|]; exact Hfresh.
Qed.

End ValidRefs.

(** ** Gestures that are refused, and the video queue *)

Section Refusals.

Lemma set_activeStroke_same (s : State) : set_activeStroke (activeStroke s) s = s.
Proof. destruct s; reflexivity. Qed.

Lemma pointerMoves_touch_stroke_only (moves : list PointerEvent) (s : State) :
  exists k,
    foldl (fun o e => and_then o (pointerMove e)) (Done s) moves
    = Done (set_activeStroke k s).
Proof.
  revert s. induction moves as [|e moves IH]; intros s.
  - exists (activeStroke s). now rewrite set_activeStroke_same.
  - cbn [foldl and_then]. unfold pointerMove at 2.
    destruct (negb (drawEnabled s)); [apply IH|].
    destruct (activeStroke s) as [k|]; [|apply IH].
    destruct (IH (set_activeStroke (Some (push_point (e_point e) k)) s)) as [k' Hk'].
    exists k'. exact Hk'.
Qed.

(** X23.  A pointer gesture made while drawing is disabled, or while no
    timestamp is selected, commits nothing: after pointer-down, any number
    of pointer-moves and pointer-up, the document and its stored copy are as
    before, also when a stroke from an earlier gesture was still in
    progress. *)
Theorem refused_gesture_commits_nothing (down : PointerEvent)
    (moves : list PointerEvent) (s : State) :
  drawEnabled s = false \/ selectedTsId s = None ->
  exists s',
    gesture down moves s = Done s' /\
    document s' = document s /\ localStorage s' = localStorage s.
Proof.
  intros Href. unfold gesture.
  assert (Hdown : exists s0,
            pointerDown down s = Done s0 /\
            document s0 = document s /\ localStorage s0 = localStorage s /\
            drawEnabled s0 = drawEnabled s /\ selectedTsId s0 = selectedTsId s).
  { unfold pointerDown. destruct (drawEnabled s) eqn:Hd; cbn [negb].
    - destruct Href as [Href|Href]; [discriminate|].
      unfold selected. rewrite Href. cbn [negb].
      eexists. split; [reflexivity|]. by repeat split.
    - exists s. by repeat split. }
  destruct Hdown as (s0 & -> & Hdoc & Hls & Hde & Hsel).
  destruct (pointerMoves_touch_stroke_only moves s0) as [k ->].
  cbn [and_then]. unfold pointerUp.
  cbn [drawEnabled activeStroke selectedTsId set_activeStroke].
  assert (Hend : document (set_activeStroke k s0) = document s /\
                 localStorage (set_activeStroke k s0) = localStorage s)
    by (split; [exact Hdoc | exact Hls]).
  destruct (drawEnabled s0) eqn:Hd0; cbn [negb]; [|eexists; split; [reflexivity | exact Hend]].
  destruct k as [k|]; [|eexists; split; [reflexivity | exact Hend]].
  destruct Href as [Href|Href]; [congruence|].
  rewrite Hsel, Href. cbn [find_ts].
  eexists; split; [reflexivity | exact Hend].
Qed.

Lemma refused_gesture_commits_nothing_witness :
  exists s',
    gesture a_pointer_event [a_pointer_event] two_athletes = Done s' /\
    document s' = document two_athletes /\
    localStorage s' = localStorage two_athletes.
Proof.
  apply (refused_gesture_commits_nothing a_pointer_event [a_pointer_event] two_athletes).
  left. reflexivity.
Defined.

(** X24.  A video that is loaded before the player is ready is not sent to
    the player by the Load button; it is stored, persisted and queued, and
    the ready callback sends exactly that id to the player and empties the
    queue without touching the document. *)
Theorem queued_video_is_cued_on_ready (ytUrl : string) (u : option URL) (s : State) :
  truthy_str (parseYouTubeId u) = true -> playerReady s = false ->
  exists s1,
    load_onclick ytUrl u s = Done s1 /\
    load_cue u s = None /\
    youtubeId s1 = parseYouTubeId u /\ persisted s1 /\
    pendingVideoId s1 = Some (parseYouTubeId u) /\
    snd (onReady s1) = Some (parseYouTubeId u) /\
    pendingVideoId (fst (onReady s1)) = None /\
    playerReady (fst (onReady s1)) = true /\
    document (fst (onReady s1)) = document s1.
Proof.
  intros Hid Hnr. unfold load_onclick, load_cue. rewrite Hid, Hnr.
  cbn [playerReady hasPlayer saveState set_youtube set_localStorage].
  rewrite Hnr. cbn [negb orb].
  eexists. split; [reflexivity|]. split; [reflexivity|].
  split; [reflexivity|]. split; [reflexivity|]. split; [reflexivity|].
  unfold onReady.
  cbn [pendingVideoId setStatus set_playerReady set_pendingVideoId default
       from_option id].
  rewrite Hid. by repeat split.
Qed.

Lemma queued_video_is_cued_on_ready_witness :
  exists s1,
    load_onclick "https://youtu.be/abc123" (Some (mkURL "youtu.be" "/abc123" None))
      (initial (Num 1)) = Done s1 /\
    load_cue (Some (mkURL "youtu.be" "/abc123" None)) (initial (Num 1)) = None /\
    youtubeId s1 = "abc123" /\ persisted s1 /\
    pendingVideoId s1 = Some "abc123" /\
    snd (onReady s1) = Some "abc123" /\
    pendingVideoId (fst (onReady s1)) = None /\
    playerReady (fst (onReady s1)) = true /\
    document (fst (onReady s1)) = document s1.
Proof.
  apply (queued_video_is_cued_on_ready "https://youtu.be/abc123"
           (Some (mkURL "youtu.be" "/abc123" None)) (initial (Num 1)));
    reflexivity.
Defined.

End Refusals.

(** ** Generated ids, and files without rows *)

Section Edges.

(** X25.  With a clock reading that [Date] can return and a draw below 1000,
    [uidNumeric] returns a positive integer below ten to the fifteenth: a
    number that a double holds exactly and that is truthy, so that a
    generated id is never taken for a missing selection. *)
Theorem generated_id_is_positive (d : Date) (rnd : Z) :
  valid_date d = true -> 0 <= rnd < 1000 ->
  exists z,
    uidNumeric d rnd = Some (Num z) /\
    0 < z < 10 ^ 15 /\
    truthy_num (Num z) = true /\ exact_id (Num z) = true.
Proof.
  intros Hd Hr. exists (uid_value d rnd).
  split; [now apply uidNumeric_value|].
  apply valid_date_bounds in Hd.
  assert (Hz : 0 < uid_value d rnd < 10 ^ 15) by (unfold uid_value; lia).
  split; [exact Hz|]. split.
  - cbn [truthy_num]. apply negb_true_iff, Z.eqb_neq. lia.
  - cbn [exact_id]. apply andb_true_iff.
    split; apply Z.leb_le; unfold MAX_SAFE_INTEGER; lia.
Qed.

Lemma generated_id_is_positive_witness :
  exists z,
    uidNumeric noon 123 = Some (Num z) /\
    0 < z < 10 ^ 15 /\
    truthy_num (Num z) = true /\ exact_id (Num z) = true.
Proof.
  apply (generated_id_is_positive noon 123); [reflexivity | lia].
Defined.

Lemma trimStart_blank (s : string) : all_chars is_ws s = true -> trimStart s = EmptyString.
Proof.
  induction s as [|c s IH]; [reflexivity|].
  cbn [all_chars trimStart]. intros H. apply andb_true_iff in H as [Hc Hs].
  rewrite Hc. now apply IH.
Qed.

Lemma trim_blank (s : string) : all_chars is_ws s = true -> trim s = EmptyString.
Proof. intros H. unfold trim. now rewrite trimStart_blank. Qed.

Lemma crlf_to_lf_blank (s : string) :
  all_chars is_ws s = true -> all_chars is_ws (crlf_to_lf s) = true.
Proof.
  assert (H : forall n s, (String.length s <= n)%nat ->
            all_chars is_ws s = true -> all_chars is_ws (crlf_to_lf s) = true).
  { clear s. induction n as [|n IH]; intros s Hlen Hs.
    - destruct s; [reflexivity | cbn in Hlen; lia].
    - destruct s as [|c r]; [reflexivity|].
      cbn [all_chars] in Hs. apply andb_true_iff in Hs as [Hc Hr].
      cbn [String.length] in Hlen. cbn [crlf_to_lf].
      destruct r as [|c' r']; [cbn [all_chars]; now rewrite Hc|].
      destruct (_ && _).
      + cbn [all_chars]. change (is_ws LF) with true. cbn [andb].
        apply IH; [cbn [String.length] in Hlen; lia|].
        cbn [all_chars] in Hr. now apply andb_true_iff in Hr as [_ Hr].
      + cbn [all_chars]. rewrite Hc. cbn [andb]. apply IH; [lia | exact Hr]. }
  apply (H (String.length s)). lia.
Qed.

Lemma cr_to_lf_blank (s : string) :
  all_chars is_ws s = true -> all_chars is_ws (cr_to_lf s) = true.
Proof.
  induction s as [|c r IH]; [reflexivity|].
  cbn [all_chars cr_to_lf]. intros H. apply andb_true_iff in H as [Hc Hr].
  rewrite (IH Hr), andb_true_r.
  destruct (Ascii.eqb c CR); [reflexivity | exact Hc].
Qed.

Lemma split_on_blank (sep : ascii) (s cur : string) :
  all_chars is_ws s = true -> all_chars is_ws cur = true ->
  forall seg, seg ∈ split_on sep s cur -> all_chars is_ws seg = true.
Proof.
  revert cur. induction s as [|c r IH]; intros cur Hs Hcur seg Hseg.
  - cbn in Hseg. apply list_elem_of_singleton in Hseg. now subst.
  - cbn [all_chars] in Hs. apply andb_true_iff in Hs as [Hc Hr].
    cbn [split_on] in Hseg. destruct (Ascii.eqb c sep).
    + apply elem_of_cons in Hseg as [->|Hseg]; [exact Hcur|].
      now apply (IH EmptyString).
    + apply (IH (cur +:+ String c EmptyString)); auto.
      rewrite all_chars_app, Hcur. cbn [all_chars]. now rewrite Hc.
Qed.

Lemma fromCSV_blank (text : string) :
  all_chars is_ws text = true -> fromCSV text = mkParsed [] [].
Proof.
  intros H. unfold fromCSV.
  assert (Hf : List.filter (fun l => negb (is_empty (trim l)))
                 (split_on LF (cr_to_lf (crlf_to_lf text)) EmptyString) = []).
  { pose proof (split_on_blank LF (cr_to_lf (crlf_to_lf text)) EmptyString
                  (cr_to_lf_blank _ (crlf_to_lf_blank _ H)) eq_refl) as Hall.
    induction (split_on LF (cr_to_lf (crlf_to_lf text)) EmptyString) as [|l ls IH];
      [reflexivity|].
    cbn [List.filter]. rewrite (trim_blank l) by apply Hall, list_elem_of_here.
    cbn [is_empty negb]. apply IH. intros seg Hseg. apply Hall.
    now apply list_elem_of_further. }
  now rewrite Hf.
Qed.

(** X26.  Importing a roster file that is empty or holds white space only
    imports no row: a roster with pairwise distinct ids is left as it is, the
    status line reports zero rows and the document is saved. *)
Theorem blank_file_imports_nothing (text : string) (clock : nat -> Date * Z)
    (s : State) :
  all_chars is_ws text = true -> NoDup (map a_id (roster s)) ->
  exists s',
    importRosterCSV (Some text) clock s = Done s' /\
    roster s' = roster s /\
    rosterStatus s' = "Imported 0 rows (merged by ID)." /\
    persisted s'.
Proof.
  intros Hblank Hnd. unfold importRosterCSV.
  rewrite (fromCSV_blank text Hblank). cbn [rows map_rows].
  rewrite (merge_same (roster s) [] Hnd)
    by (intros a Ha; by apply elem_of_nil in Ha).
  eexists. split; [reflexivity|].
  destruct (selected _).
  - match goal with |- context [selectTimestamp ?i ?x] =>
      destruct (selectTimestamp_frame i x) as (Hd & Hls & _ & _ & Hr);
      assert (Hrs : rosterStatus (selectTimestamp i x) = rosterStatus x)
    end.
    { unfold selectTimestamp. destruct (find_ts _ _) as [r|]; [|reflexivity].
      destruct (store _ !! r); reflexivity. }
    unfold persisted. rewrite Hd, Hls, Hr, Hrs. by repeat split.
  - by repeat split.
Qed.

Lemma blank_file_imports_nothing_witness :
  exists s',
    importRosterCSV (Some (String LF " ")) a_clock two_athletes = Done s' /\
    roster s' = roster two_athletes /\
    rosterStatus s' = "Imported 0 rows (merged by ID)." /\
    persisted s'.
Proof.
  apply (blank_file_imports_nothing (String LF " ") a_clock two_athletes).
  - reflexivity.
  - apply (bool_decide_unpack _). vm_compute. exact I.
Defined.

End Edges.

Section ClearDrawings.

(** X27.  The Clear drawings button empties the drawings of the selected
    annotation and the drawing buffer, and nothing else: every other
    annotation object, and the id, time, texts and tags of every annotation
    of the document, are as before; the result is persisted. *)
Theorem clearing_drawings_is_local (r : nat) (t : Annotation) (s : State) :
  rendered_ts s = Some r -> store s !! r = Some t ->
  exists s',
    clearDraw_onclick s = Done s' /\
    store s' !! r = Some (with_drawings [] t) /\ drawingsBuf s' = [] /\
    (forall r', r' <> r -> store s' !! r' = store s !! r') /\
    map without_drawings (annotations s') = map without_drawings (annotations s) /\
    roster s' = roster s /\
    persisted s'.
Proof.
  intros Hr Ht. unfold rendered_ts in Hr.
  destruct (selected s) eqn:Hsel; [|discriminate].
  unfold clearDraw_onclick. rewrite Hsel, Hr. cbn [negb].
  eexists. split; [reflexivity|].
  cbn [store timestamps drawingsBuf roster saveState set_localStorage setStatus
       set_drawings set_store].
  split; [now rewrite list_lookup_alter_eq, Ht|]. split; [reflexivity|].
  split; [intros r' Hne; now rewrite list_lookup_alter_ne|].
  split; [|split; reflexivity].
  unfold annotations.
  cbn [store timestamps saveState set_localStorage setStatus set_drawings set_store].
  apply annotations_same. intros r'. now apply alter_same.
Qed.

Lemma clearing_drawings_is_local_witness :
  exists s',
    clearDraw_onclick drawn_annotations = Done s' /\
    store s' !! 1%nat
      = Some (mkAnnotation (Num 8) 9 "Corner" EmptyString (Some []) (Some [])) /\
    drawingsBuf s' = [] /\
    (forall r', r' <> 1%nat -> store s' !! r' = store drawn_annotations !! r') /\
    map without_drawings (annotations s')
      = map without_drawings (annotations drawn_annotations) /\
    roster s' = roster drawn_annotations /\
    persisted s'.
Proof.
  apply (clearing_drawings_is_local 1%nat
           (mkAnnotation (Num 8) 9 "Corner" EmptyString (Some []) (Some [a_stroke]))
           drawn_annotations); reflexivity.
Defined.

End ClearDrawings.
